(** * BinomialCalculator: the statistical core, embedded and verified

    A shallow embedding of [services/distributions.py],
    [services/model_selector.py], the analysis part of
    [services/data_processor.py] and the cross-field validation of the
    forms ([data_manager/forms.py], [distribuciones/forms.py]).

    - Python [int] is [Z]; Python [float] is IEEE-754 binary64, taken from
      the Standard Library's executable specification [spec_float]
      (53 bits of precision, round to nearest even).
    - Exceptions are values of [exn]; a function that can raise returns
      [result].  The order of the binds is the order in which Python
      evaluates the sub-expressions, so the first exception raised is the
      one the model returns.
    - [scipy.stats] is an external library: the two probability mass
      functions are section variables of the engines.  A pair of instances
      written from the formulas of the specification is given for the
      worked scenarios.
    - A data frame is a finite map from column names to columns; a column
      is a list of optional labels ([None] is a null cell). *)

From Stdlib Require Import ZArith List String Ascii Bool Lia DecimalString.
From Stdlib Require Import Floats.SpecFloat.
From stdpp Require Import gmap strings.

Local Open Scope Z_scope.

(* ================================================================= *)
(** ** Exceptions and the error monad *)

Inductive exn : Type :=
| ValueError (msg : string)
| ZeroDivisionError
| OverflowError
| DataProcessingError (msg : string).

Inductive result (A : Type) : Type :=
| Ok (a : A)
| Raise (e : exn).

Arguments Ok {A} a.
Arguments Raise {A} e.

Definition bind {A B : Type} (r : result A) (k : A -> result B) : result B :=
  match r with
  | Ok a => k a
  | Raise e => Raise e
  end.

Notation "'let*' x ':=' e 'in' k" := (bind e (fun x => k))
  (at level 10, x pattern, e at level 100, k at level 200, only parsing).

Definition returns {A : Type} (r : result A) : Prop :=
  match r with Ok _ => True | Raise _ => False end.

(* ================================================================= *)
(** ** Python numbers *)

Module PyFloat.

Definition prec : Z := 53.
Definition emax : Z := 1024.

Definition float : Type := spec_float.

Definition fzero : float := S754_zero false.

Definition fadd : float -> float -> float := SFadd prec emax.
Definition fsub : float -> float -> float := SFsub prec emax.
Definition fmul : float -> float -> float := SFmul prec emax.
Definition fneg : float -> float := SFopp.
Definition fabs : float -> float := SFabs.
Definition feqb : float -> float -> bool := SFeqb.
Definition fltb : float -> float -> bool := SFltb.
Definition fleb : float -> float -> bool := SFleb.

(** The quotient of two integers rounded once to the nearest binary64
    value, ties to even.  This is what [a / b] computes on Python ints;
    a zero numerator takes the sign of the divisor. *)
Definition div_nearest (a b : Z) : float :=
  match a with
  | 0 => S754_zero (b <? 0)
  | _ =>
    let '(mz, ez, lz) := SFdiv_core_binary prec emax (Z.abs a) 0 (Z.abs b) 0 in
    binary_round_aux prec emax (xorb (a <? 0) (b <? 0)) mz ez lz
  end.

Definition finite_or_overflow (f : float) : result float :=
  match f with
  | S754_infinity _ | S754_nan => Raise OverflowError
  | _ => Ok f
  end.

(** [a / b] on two ints. *)
Definition int_truediv (a b : Z) : result float :=
  if b =? 0 then Raise ZeroDivisionError
  else finite_or_overflow (div_nearest a b).

(** [float(z)], also the implicit conversion of an int operand in mixed
    arithmetic. *)
Definition float_of_int (z : Z) : result float :=
  finite_or_overflow (binary_normalize prec emax z 0 false).

(** [x / y] on two floats. *)
Definition float_truediv (x y : float) : result float :=
  if feqb y fzero then Raise ZeroDivisionError
  else Ok (SFdiv prec emax x y).

(** [math.sqrt]. *)
Definition math_sqrt (x : float) : result float :=
  match x with
  | S754_finite true _ _ | S754_infinity true => Raise (ValueError "math domain error")
  | _ => Ok (SFsqrt prec emax x)
  end.

(** [int(x)]: truncation towards zero. *)
Definition float_to_int (x : float) : result Z :=
  match x with
  | S754_nan => Raise (ValueError "cannot convert float NaN to integer")
  | S754_infinity _ => Raise OverflowError
  | S754_zero _ => Ok 0
  | S754_finite s m e =>
    let a := if 0 <=? e then Z.pos m * 2 ^ e else Z.pos m / 2 ^ (- e) in
    Ok (if s then - a else a)
  end.

(** Truth value of a float in a condition. *)
Definition truthy (x : float) : bool := negb (feqb x fzero).

(** A decimal literal [m * 10^-k] of the source text: the nearest float. *)
Definition float_lit (m k : Z) : float := div_nearest m (10 ^ k).

Definition fone : float := float_lit 1 0.
Definition ftwo : float := float_lit 2 0.
Definition fsix : float := float_lit 6 0.
Definition fhundred : float := float_lit 100 0.

Definition round_half_even (num den : Z) : Z :=
  let q := num / den in
  match 2 * (num mod den) ?= den with
  | Lt => q
  | Gt => q + 1
  | Eq => if Z.even q then q else q + 1
  end.

(** [|x| * 10^nd] rounded to an integer, half to even, on the exact value
    [m * 2^e] of the float. *)
Definition scaled_round (m : positive) (e nd : Z) : Z :=
  if 0 <=? e then Z.pos m * 2 ^ e * 10 ^ nd
  else round_half_even (Z.pos m * 10 ^ nd) (2 ^ (- e)).

(** [round(x, nd)] for [0 <= nd]: the decimal nearest to the exact value
    of [x], converted back to the nearest float. *)
Definition py_round (x : float) (nd : Z) : float :=
  match x with
  | S754_finite s m e =>
    let q := scaled_round m e nd in
    if q =? 0 then S754_zero s
    else div_nearest (if s then - q else q) (10 ^ nd)
  | _ => x
  end.

Definition string_of_Z (z : Z) : string := NilEmpty.string_of_int (Z.to_int z).

Fixpoint zeros (k : nat) : string :=
  match k with
  | O => ""
  | S k' => "0" +:+ zeros k'
  end.

Definition zero_pad (width : nat) (s : string) : string :=
  zeros (width - String.length s) +:+ s.

Definition fixed_digits (q nd : Z) : string :=
  if nd <=? 0 then string_of_Z q
  else string_of_Z (q / 10 ^ nd) +:+ "." +:+
       zero_pad (Z.to_nat nd) (string_of_Z (q mod 10 ^ nd)).

(** [f"{x:.{nd}f}"]. *)
Definition format_fixed (x : float) (nd : Z) : string :=
  match x with
  | S754_nan => "nan"
  | S754_infinity s => if s then "-inf" else "inf"
  | S754_zero s => (if s then "-" else "") +:+ fixed_digits 0 nd
  | S754_finite s m e => (if s then "-" else "") +:+ fixed_digits (scaled_round m e nd) nd
  end.

(** [range(stop)]. *)
Definition py_range (stop : Z) : list Z := map Z.of_nat (seq 0 (Z.to_nat stop)).

End PyFloat.

Import PyFloat.

(* ================================================================= *)
(** ** services/distributions.py: BinomialDistribution *)

Module Binomial.

Record Inputs : Type := {
  in_n : Z;
  in_p : float;
  in_x : option Z;
  in_N : option Z
}.

Record Statistics : Type := {
  mean : float;
  variance : float;
  std : float;
  adjusted_std : option float;
  correction_factor : option float;
  skewness : float;
  kurtosis : float
}.

Record Interpretations : Type := {
  skewness_text : string;
  kurtosis_text : string
}.

Record Result : Type := {
  inputs : Inputs;
  population_type : string;
  population_ratio : option float;
  statistics : Statistics;
  interpretations : Interpretations;
  probability_x : option float;
  probability_x_pct : option float
}.

Definition msg_x_range (n : Z) : string :=
  "El número de éxitos (x) debe estar entre 0 y " +:+ string_of_Z n.

Definition _validate_inputs (n : Z) (p : float) (x N : option Z) : result unit :=
  if n <=? 0 then
    Raise (ValueError "El tamaño de la muestra (n) debe ser mayor que 0")
  else if negb (fleb fzero p && fleb p fone) then
    Raise (ValueError "La probabilidad (p) debe estar entre 0 y 1")
  else if match x with Some x => (x <? 0) || (n <? x) | None => false end then
    Raise (ValueError (msg_x_range n))
  else if match N with Some N => N <=? 0 | None => false end then
    Raise (ValueError "El tamaño de la población (N) debe ser mayor que 0")
  else if match N with Some N => N <? n | None => false end then
    Raise (ValueError "El tamaño de la muestra (n) no puede ser mayor que la población (N)")
  else Ok tt.

Definition _determine_population_type (n : Z) (N : option Z)
  : result (bool * option float) :=
  match N with
  | None => Ok (false, None)
  | Some N =>
    let* ratio := int_truediv n N in
    if fltb (float_lit 5 2) ratio then Ok (true, Some ratio)
    else Ok (false, Some ratio)
  end.

Definition _calculate_correction_factor (n N : Z) : result float :=
  let* r := int_truediv (N - n) (N - 1) in
  math_sqrt r.

Definition calculate_mean (n : Z) (p : float) : result float :=
  let* fn := float_of_int n in
  Ok (fmul fn p).

Definition calculate_variance (n : Z) (p : float) : result float :=
  let* fn := float_of_int n in
  Ok (fmul (fmul fn p) (fsub fone p)).

Definition calculate_std (n : Z) (p : float) (N : option Z)
  : result (float * option float) :=
  let* variance := calculate_variance n p in
  let* std := math_sqrt variance in
  match N with
  | Some N =>
    let* ratio := int_truediv n N in
    if fltb (float_lit 5 2) ratio then
      let* correction := _calculate_correction_factor n N in
      Ok (std, Some (fmul std correction))
    else Ok (std, None)
  | None => Ok (std, None)
  end.

Definition calculate_skewness (n : Z) (p : float) : result float :=
  let q := fsub fone p in
  if feqb p fzero || feqb p fone then Ok fzero
  else
    let numerator := fsub fone (fmul ftwo p) in
    let* fn := float_of_int n in
    let* root := math_sqrt (fmul (fmul fn p) q) in
    float_truediv numerator root.

Definition calculate_kurtosis (n : Z) (p : float) : result float :=
  let q := fsub fone p in
  if feqb p fzero || feqb p fone then Ok fzero
  else
    let numerator := fsub fone (fmul (fmul fsix p) q) in
    let* fn := float_of_int n in
    float_truediv numerator (fmul (fmul fn p) q).

Definition interpret_skewness (skewness : float) : string :=
  if fltb skewness (fneg (float_lit 5 1)) then
    "Asimetría negativa significativa: La distribución tiene una cola más larga hacia la izquierda."
  else if fltb (float_lit 5 1) skewness then
    "Asimetría positiva significativa: La distribución tiene una cola más larga hacia la derecha."
  else if fleb (fneg (float_lit 5 1)) skewness && fleb skewness (float_lit 5 1) then
    if fltb (fabs skewness) (float_lit 1 1) then
      "Distribución aproximadamente simétrica."
    else if fltb skewness fzero then
      "Ligera asimetría negativa: La distribución tiende a inclinarse hacia la izquierda."
    else
      "Ligera asimetría positiva: La distribución tiende a inclinarse hacia la derecha."
  else "Simétrica".

Definition interpret_kurtosis (kurtosis : float) : string :=
  if fltb fone kurtosis then
    "Leptocúrtica: La distribución es más puntiaguda que una distribución normal (colas pesadas)."
  else if fltb kurtosis (fneg fone) then
    "Platicúrtica: La distribución es más plana que una distribución normal (colas ligeras)."
  else
    "Mesocúrtica: La distribución tiene una forma similar a la campana de Gauss.".

Section WithPmf.

(** [scipy.stats.binom.pmf(x, n, p)]. *)
Variable binom_pmf : Z -> Z -> float -> float.

Definition calculate_probability (n : Z) (p : float) (x : Z) : float :=
  binom_pmf x n p.

(** [calculate(n=..., p=..., x=..., N=...)].  The attributes written on
    [self] are only read back inside the same call ([is_finite]); they are
    local bindings here. *)
Definition calculate (n : Z) (p : float) (x N : option Z) : result Result :=
  let* _ := _validate_inputs n p x N in
  let* (is_finite, ratio) := _determine_population_type n N in
  let* mean := calculate_mean n p in
  let* (std, adjusted_std) := calculate_std n p N in
  let* skewness := calculate_skewness n p in
  let* kurtosis := calculate_kurtosis n p in
  let* variance := calculate_variance n p in
  let* correction_factor :=
    match N with
    | Some N' =>
      if is_finite && negb (N' =? 0) then
        let* c := _calculate_correction_factor n N' in
        Ok (Some (py_round c 6))
      else Ok None
    | None => Ok None
    end in
  Ok {|
    inputs := {| in_n := n; in_p := p; in_x := x; in_N := N |};
    population_type := if is_finite then "Finita" else "Infinita";
    population_ratio := ratio;
    statistics := {|
      mean := py_round mean 6;
      variance := py_round variance 6;
      std := py_round std 6;
      adjusted_std :=
        match adjusted_std with
        | Some a => if truthy a then Some (py_round a 6) else None
        | None => None
        end;
      correction_factor := correction_factor;
      skewness := py_round skewness 6;
      kurtosis := py_round kurtosis 6
    |};
    interpretations := {|
      skewness_text := interpret_skewness skewness;
      kurtosis_text := interpret_kurtosis kurtosis
    |};
    probability_x :=
      match x with
      | Some x => Some (py_round (calculate_probability n p x) 6)
      | None => None
      end;
    probability_x_pct :=
      match x with
      | Some x => Some (py_round (fmul (calculate_probability n p x) fhundred) 4)
      | None => None
      end
  |}.

Definition get_probabilities (n : Z) (p : float) : list Z * list float :=
  let x_values := py_range (n + 1) in
  (x_values,
   map (fun x => py_round (fmul (calculate_probability n p x) fhundred) 4) x_values).

End WithPmf.

(** The dictionary [get_statistics] returns. *)
Record Summary : Type := {
  summary_mean : float;
  summary_std : float;
  summary_adjusted_std : option float;
  summary_skewness : float;
  summary_kurtosis : float
}.

(** [get_statistics(n=..., p=..., N=...)]: the inputs are not validated. *)
Definition get_statistics (n : Z) (p : float) (N : option Z) : result Summary :=
  let* mean := calculate_mean n p in
  let* (std, adjusted_std) := calculate_std n p N in
  let* skewness := calculate_skewness n p in
  let* kurtosis := calculate_kurtosis n p in
  Ok {|
    summary_mean := py_round mean 6;
    summary_std := py_round std 6;
    summary_adjusted_std :=
      match adjusted_std with
      | Some a => if truthy a then Some (py_round a 6) else None
      | None => None
      end;
    summary_skewness := py_round skewness 6;
    summary_kurtosis := py_round kurtosis 6
  |}.

End Binomial.

(* ================================================================= *)
(** ** services/distributions.py: HypergeometricDistribution *)

Module Hypergeometric.

Record Inputs : Type := {
  in_N : Z;
  in_K : Z;
  in_n : Z;
  in_x : option Z;
  in_p : float
}.

Record Statistics : Type := {
  mean : float;
  median : Z;
  variance : float;
  std : float;
  skewness : float;
  kurtosis : float
}.

Record Interpretations : Type := {
  skewness_text : string;
  kurtosis_text : string
}.

Record Result : Type := {
  inputs : Inputs;
  population_type : string;
  sample_ratio : float;
  statistics : Statistics;
  interpretations : Interpretations;
  probability_x : option float;
  probability_x_pct : option float
}.

Definition msg_x_negative : string :=
  "El número de éxitos en la muestra (x) no puede ser negativo".
Definition msg_x_above : string :=
  "El número de éxitos en la muestra (x) no puede ser mayor que ".
Definition msg_x_above_n (n : Z) : string := msg_x_above +:+ string_of_Z n.
Definition msg_x_above_K (K : Z) : string := msg_x_above +:+ "K=" +:+ string_of_Z K.

Definition _validate_inputs (N K n : Z) (x : option Z) : result unit :=
  if N <=? 0 then
    Raise (ValueError "El tamaño de la población (N) debe ser mayor que 0")
  else if K <? 0 then
    Raise (ValueError "El número de éxitos en la población (K) no puede ser negativo")
  else if N <? K then
    Raise (ValueError "El número de éxitos en la población (K) no puede ser mayor que N")
  else if n <=? 0 then
    Raise (ValueError "El tamaño de la muestra (n) debe ser mayor que 0")
  else if N <? n then
    Raise (ValueError "El tamaño de la muestra (n) no puede ser mayor que la población (N)")
  else
    match x with
    | Some x =>
      if x <? 0 then Raise (ValueError msg_x_negative)
      else if n <? x then Raise (ValueError (msg_x_above_n n))
      else if K <? x then Raise (ValueError (msg_x_above_K K))
      else Ok tt
    | None => Ok tt
    end.

Definition calculate_mean (N K n : Z) : result float :=
  let* ratio := int_truediv K N in
  let* fn := float_of_int n in
  Ok (fmul fn ratio).

Definition calculate_variance (N K n : Z) : result float :=
  let* p := int_truediv K N in
  let q := fsub fone p in
  let* fn := float_of_int n in
  let* fpc := int_truediv (N - n) (N - 1) in
  Ok (fmul (fmul (fmul fn p) q) fpc).

Definition calculate_std (N K n : Z) : result float :=
  let* variance := calculate_variance N K n in
  math_sqrt variance.

Definition calculate_skewness (N K n : Z) : result float :=
  if N =? 1 then Ok fzero
  else
    let* p := int_truediv K N in
    let q := fsub fone p in
    let* fN1 := float_of_int (N - 1) in
    let* root1 := math_sqrt fN1 in
    let* a := float_of_int (N - 2 * K) in
    let* b := float_of_int (N - 2 * n) in
    let numerator := fmul (fmul a root1) b in
    let* prod := float_of_int (n * K * (N - K) * (N - n)) in
    let* root2 := math_sqrt prod in
    let* c := float_of_int (N - 2) in
    let denominator := fmul root2 c in
    if feqb denominator fzero then Ok fzero
    else float_truediv numerator denominator.

Definition calculate_kurtosis (N K n : Z) : result float :=
  if N <=? 3 then Ok fzero
  else
    let* p := int_truediv K N in
    let q := fsub fone p in
    let* ratio1 := int_truediv (6 * K * (N - K) * (N - n)) (n * (N - n)) in
    let* a := float_of_int (N * (N + 1)) in
    let* b := float_of_int (N - 1) in
    let term1 := fmul b (fsub a ratio1) in
    let* term2 := int_truediv (3 * n * K * (N - K) * (N - n)) (n * (N - n)) in
    let numerator := fsub term1 term2 in
    let* denominator :=
      int_truediv (n * K * (N - K) * (N - n) * (N - 2) * (N - 3)) (N - 1) in
    if feqb denominator fzero then Ok fzero
    else
      let* c := float_of_int (N + 1) in
      float_truediv (fmul c numerator) denominator.

Definition interpret_kurtosis (kurtosis : float) : string :=
  if fltb fone kurtosis then
    "Leptocúrtica: La distribución es más puntiaguda que una distribución normal (colas pesadas)."
  else if fltb kurtosis (fneg fone) then
    "Platicúrtica: La distribución es más plana que una distribución normal (colas ligeras)."
  else
    "Mesocúrtica: La distribución tiene una forma similar a la campana de Gauss.".

Definition text_negative_skew : string :=
  "Sesgo Negativo (Asimetría izquierda): La media es menor que la mediana, indicando una cola más larga hacia valores menores.".
Definition text_positive_skew : string :=
  "Sesgo Positivo (Asimetría derecha): La media es mayor que la mediana, indicando una cola más larga hacia valores mayores.".
Definition text_symmetric : string :=
  "Sesgo Nulo (Simétrica): La media y la mediana son aproximadamente iguales, indicando una distribución simétrica.".

Section WithPmf.

(** [scipy.stats.hypergeom.pmf(x, N, K, n)]. *)
Variable hypergeom_pmf : Z -> Z -> Z -> Z -> float.

Definition calculate_probability (N K n x : Z) : float :=
  hypergeom_pmf x N K n.

(** The [for] loop of [calculate_median]: [cumulative] is the running sum
    on entry; the result is the [x] at which the loop returns, [None] when
    the loop runs to its end. *)
Fixpoint median_scan (N K n : Z) (xs : list Z) (cumulative : float) : option Z :=
  match xs with
  | [] => None
  | x :: rest =>
    let cumulative := fadd cumulative (calculate_probability N K n x) in
    if fleb (float_lit 5 1) cumulative then Some x
    else median_scan N K n rest cumulative
  end.

Definition calculate_median (N K n : Z) : result Z :=
  let* mean := calculate_mean N K n in
  let* floor_mean := float_to_int mean in
  let ceil_mean := floor_mean + 1 in
  let prob_floor := calculate_probability N K n floor_mean in
  let prob_ceil :=
    if ceil_mean <=? Z.min n K then calculate_probability N K n ceil_mean
    else fzero in
  match median_scan N K n (py_range (Z.min n K + 1)) fzero with
  | Some x => Ok x
  | None => Ok floor_mean
  end.

Definition interpret_skewness_by_median (N K n : Z) : result (string * float * Z) :=
  let* mean := calculate_mean N K n in
  let* median := calculate_median N K n in
  let* fmedian := float_of_int median in
  let interpretation :=
    if fltb mean (fsub fmedian (float_lit 1 1)) then text_negative_skew
    else if fltb (fadd fmedian (float_lit 1 1)) mean then text_positive_skew
    else text_symmetric in
  Ok (interpretation, py_round mean 6, median).

Definition calculate (N K n : Z) (x : option Z) : result Result :=
  let* _ := _validate_inputs N K n x in
  let* p := int_truediv K N in
  let* mean := calculate_mean N K n in
  let* variance := calculate_variance N K n in
  let* std := calculate_std N K n in
  let* skewness := calculate_skewness N K n in
  let* kurtosis := calculate_kurtosis N K n in
  let* (skewness_interp, mean_val, median_val) := interpret_skewness_by_median N K n in
  let* ratio := int_truediv n N in
  Ok {|
    inputs := {| in_N := N; in_K := K; in_n := n; in_x := x; in_p := py_round p 6 |};
    population_type := "Finita";
    sample_ratio := py_round ratio 4;
    statistics := {|
      mean := py_round mean 6;
      median := median_val;
      variance := py_round variance 6;
      std := py_round std 6;
      skewness := py_round skewness 6;
      kurtosis := py_round kurtosis 6
    |};
    interpretations := {|
      skewness_text := skewness_interp;
      kurtosis_text := interpret_kurtosis kurtosis
    |};
    probability_x :=
      match x with
      | Some x => Some (py_round (calculate_probability N K n x) 6)
      | None => None
      end;
    probability_x_pct :=
      match x with
      | Some x => Some (py_round (fmul (calculate_probability N K n x) fhundred) 4)
      | None => None
      end
  |}.

Definition get_probabilities (N K n : Z) : list Z * list float :=
  let x_values := py_range (Z.min n K + 1) in
  (x_values,
   map (fun x => py_round (fmul (calculate_probability N K n x) fhundred) 4) x_values).

(** The dictionary [get_statistics] returns. *)
Record Summary : Type := {
  summary_mean : float;
  summary_median : Z;
  summary_std : float;
  summary_skewness : float;
  summary_kurtosis : float
}.

(** [get_statistics(N=..., K=..., n=...)]: the inputs are not validated. *)
Definition get_statistics (N K n : Z) : result Summary :=
  let* mean := calculate_mean N K n in
  let* std := calculate_std N K n in
  let* skewness := calculate_skewness N K n in
  let* kurtosis := calculate_kurtosis N K n in
  let* (_, mean_val, median_val) := interpret_skewness_by_median N K n in
  Ok {|
    summary_mean := py_round mean 6;
    summary_median := median_val;
    summary_std := py_round std 6;
    summary_skewness := py_round skewness 6;
    summary_kurtosis := py_round kurtosis 6
  |}.

End WithPmf.

End Hypergeometric.

(* ================================================================= *)
(** ** services/distributions.py: DistributionFactory *)

Module DistributionFactory.

(** The two concrete subclasses of [BaseDistribution] that the module
    defines. *)
Inductive DistributionClass : Type := BinomialDistribution | HypergeometricDistribution.

Section Registry.

(** [str.lower]. *)
Variable lower : string -> string.

(** The classes that can be registered. *)
Context {C : Type}.

(** The class attribute [_distributions]: a dict, which keeps its keys in
    the order of their first insertion. *)
Definition registry : Type := list (string * C).

(** [d[key] = value]: an existing key keeps its place and takes the new
    value, a new key goes to the end. *)
Fixpoint dict_set (d : registry) (key : string) (value : C) : registry :=
  match d with
  | [] => [(key, value)]
  | (k, v) :: rest =>
    if String.eqb k key then (k, value) :: rest
    else (k, v) :: dict_set rest key value
  end.

(** [d[key]], [None] when [key not in d]. *)
Fixpoint dict_get (d : registry) (key : string) : option C :=
  match d with
  | [] => None
  | (k, v) :: rest => if String.eqb k key then Some v else dict_get rest key
  end.

(** [d.keys()]. *)
Definition keys (d : registry) : list string := map fst d.

(** [register(name, distribution_class)]; the registry after the call. *)
Definition register (d : registry) (name : string) (distribution_class : C) : registry :=
  dict_set d (lower name) distribution_class.

Definition msg_not_available (distribution_type available : string) : string :=
  "Distribución '" +:+ distribution_type +:+ "' no disponible. Opciones: " +:+ available.

(** [create(distribution_type)]; the value is the class whose constructor
    is called. *)
Definition create (d : registry) (distribution_type : string) : result C :=
  let distribution_type := lower distribution_type in
  match dict_get d distribution_type with
  | None =>
    let available := String.concat ", " (keys d) in
    Raise (ValueError (msg_not_available distribution_type available))
  | Some distribution_class => Ok distribution_class
  end.

Definition get_available_distributions (d : registry) : list string := keys d.

End Registry.

(** The registry as the class body initialises it. *)
Definition _distributions : registry :=
  [("binomial", BinomialDistribution); ("hypergeometric", HypergeometricDistribution)].

End DistributionFactory.

(* ================================================================= *)
(** ** services/model_selector.py *)

Module ModelSelector.

Inductive DistributionType : Type := BINOMIAL | HYPERGEOMETRIC.

Record ModelDecision : Type := {
  distribution_type : DistributionType;
  reason : string;
  sample_ratio : float;
  threshold_used : float;
  recommendation : option string
}.

Definition THRESHOLD : float := float_lit 20 2.

Definition decide (N K n : Z) : result ModelDecision :=
  if N <=? 0 then
    Raise (ValueError "La población (N) debe ser mayor que 0")
  else if K <? 0 then
    Raise (ValueError "Los éxitos en población (K) no pueden ser negativos")
  else if N <? K then
    Raise (ValueError "K no puede ser mayor que N")
  else if n <=? 0 then
    Raise (ValueError "El tamaño de muestra (n) debe ser mayor que 0")
  else if N <? n then
    Raise (ValueError "La muestra (n) no puede ser mayor que la población (N)")
  else
    let* sample_ratio := int_truediv n N in
    let threshold := THRESHOLD in
    let pct := format_fixed (fmul sample_ratio fhundred) 2 in
    let thr := format_fixed (fmul threshold fhundred) 0 in
    if fleb threshold sample_ratio then
      Ok {|
        distribution_type := HYPERGEOMETRIC;
        reason :=
          "La muestra representa el " +:+ pct +:+ "% de la población (≥" +:+ thr +:+
          "%). Se usa Distribución Hipergeométrica porque el muestreo sin reemplazo afecta significativamente las probabilidades.";
        sample_ratio := py_round sample_ratio 4;
        threshold_used := threshold;
        recommendation := None
      |}
    else
      Ok {|
        distribution_type := BINOMIAL;
        reason :=
          "La muestra representa el " +:+ pct +:+ "% de la población (<" +:+ thr +:+
          "%). Se usa Distribución Binomial como aproximación porque el efecto del muestreo sin reemplazo es despreciable.";
        sample_ratio := py_round sample_ratio 4;
        threshold_used := threshold;
        recommendation :=
          Some ("Para mayor precisión, considere usar la Distribución Hipergeométrica. La Binomial es una buena aproximación cuando n/N < "
                +:+ thr +:+ "%.")
      |}.

(** [DistributionType.value]. *)
Definition value (t : DistributionType) : string :=
  match t with
  | BINOMIAL => "binomial"
  | HYPERGEOMETRIC => "hypergeometric"
  end.

(** The keyword arguments prepared for the engine. *)
Inductive DistributionParams : Type :=
| BinomialParams (n : Z) (p : float) (x : option Z) (N : Z)
| HypergeometricParams (N K n : Z) (x : option Z).

Record Params : Type := {
  decision : ModelDecision;
  params_N : Z;
  params_K : Z;
  params_n : Z;
  params_x : option Z;
  params_p : float;
  distribution_params : DistributionParams
}.

Definition get_distribution_params (N K n : Z) (x : option Z) : result Params :=
  let* decision := decide N K n in
  let* p := int_truediv K N in
  Ok {|
    decision := decision;
    params_N := N;
    params_K := K;
    params_n := n;
    params_x := x;
    params_p := py_round p 6;
    distribution_params :=
      match distribution_type decision with
      | BINOMIAL => BinomialParams n (py_round p 6) x N
      | HYPERGEOMETRIC => HypergeometricParams N K n x
      end
  |}.

(** The dictionary [calculate_with_auto_selection] returns. *)
Inductive Results : Type :=
| BinomialResults (r : Binomial.Result)
| HypergeometricResults (r : Hypergeometric.Result).

Record DecisionInfo : Type := {
  info_distribution_type : string;
  info_distribution_name : string;
  info_reason : string;
  info_sample_ratio : float;
  info_threshold : float;
  info_recommendation : option string
}.

Record ChartData : Type := {
  x_values : list Z;
  probabilities : list float;
  cumulative : list float
}.

Record InputParams : Type := {
  input_N : Z;
  input_K : Z;
  input_n : Z;
  input_x : option Z;
  input_p : float
}.

Record AutoSelection : Type := {
  model_decision : DecisionInfo;
  results : Results;
  chart_data : ChartData;
  input_params : InputParams
}.

(** The loop that accumulates the chart's cumulative series;
    [cumulative_sum] is the running sum on entry. *)
Fixpoint cumulative_probs (probabilities : list float) (cumulative_sum : float) : list float :=
  match probabilities with
  | [] => []
  | prob :: rest =>
    let cumulative_sum := fadd cumulative_sum prob in
    py_round cumulative_sum 4 :: cumulative_probs rest cumulative_sum
  end.

(** What a call of [calculate_with_auto_selection] does: it returns, it
    raises one of the exceptions of the engines, or it raises the
    [TypeError] of an engine that compares a keyword argument it was not
    given ([None]) with a number. *)
Inductive outcome (A : Type) : Type :=
| Returned (a : A)
| Raised (e : exn)
| RaisedTypeError.

Arguments Returned {A} a.
Arguments Raised {A} e.
Arguments RaisedTypeError {A}.

Section WithEngines.

(** [str.lower] and the two mass functions of [scipy.stats]. *)
Variable lower : string -> string.
Variable binom_pmf : Z -> Z -> float -> float.
Variable hypergeom_pmf : Z -> Z -> Z -> Z -> float.

(** The state of [DistributionFactory._distributions] when the call is made. *)
Variable factory : @DistributionFactory.registry DistributionFactory.DistributionClass.

(** The tail of [calculate_with_auto_selection], once the engine has
    returned [results] and the chart's two series. *)
Definition auto_selection_result (N K n : Z) (x : option Z) (decision : ModelDecision)
    (results : Results) (chart : list Z * list float) : outcome AutoSelection :=
  let '(x_values, probabilities) := chart in
  let cumulative_probs := cumulative_probs probabilities fzero in
  match int_truediv K N with
  | Raise e => Raised e
  | Ok p =>
    Returned {|
      model_decision := {|
        info_distribution_type := value (distribution_type decision);
        info_distribution_name :=
          match distribution_type decision with
          | HYPERGEOMETRIC => "Hipergeométrica"
          | BINOMIAL => "Binomial"
          end;
        info_reason := reason decision;
        info_sample_ratio := sample_ratio decision;
        info_threshold := threshold_used decision;
        info_recommendation := recommendation decision
      |};
      results := results;
      chart_data := {|
        x_values := x_values;
        probabilities := probabilities;
        cumulative := cumulative_probs
      |};
      input_params := {|
        input_N := N; input_K := K; input_n := n; input_x := x;
        input_p := py_round p 6
      |}
    |}
  end.

(** [calculate_with_auto_selection(N, K, n, x)].  The engine is the class
    the factory holds under the decision's name; it receives the keyword
    arguments prepared for the decision.  An engine that is handed the
    other family's arguments misses [p] (binomial) or [K] (hypergeometric)
    and raises [TypeError] on its first comparison of that argument, the
    tests before it having passed in [decide]. *)
Definition calculate_with_auto_selection (N K n : Z) (x : option Z) : outcome AutoSelection :=
  match get_distribution_params N K n x with
  | Raise e => Raised e
  | Ok params =>
    let decision := decision params in
    let distribution_type := value (distribution_type decision) in
    match DistributionFactory.create lower factory distribution_type with
    | Raise e => Raised e
    | Ok distribution =>
      match distribution, distribution_params params with
      | DistributionFactory.BinomialDistribution, BinomialParams n' p' x' N' =>
        match Binomial.calculate binom_pmf n' p' x' (Some N') with
        | Raise e => Raised e
        | Ok results =>
          auto_selection_result N K n x decision (BinomialResults results)
            (Binomial.get_probabilities binom_pmf n' p')
        end
      | DistributionFactory.HypergeometricDistribution, HypergeometricParams N' K' n' x' =>
        match Hypergeometric.calculate hypergeom_pmf N' K' n' x' with
        | Raise e => Raised e
        | Ok results =>
          auto_selection_result N K n x decision (HypergeometricResults results)
            (Hypergeometric.get_probabilities hypergeom_pmf N' K' n')
        end
      | _, _ => RaisedTypeError
      end
    end
  end.

End WithEngines.

End ModelSelector.

(* ================================================================= *)
(** ** services/data_processor.py: analyze_categorical_column *)

Module DataProcessor.

Record Analysis : Type := {
  N : Z;
  K : Z;
  p : float;
  categories : gmap string Z;
  success_category : string;
  column_name : string
}.

(** [Series.dropna()]. *)
Definition dropna (col : list (option string)) : list string := omap id col.

(** [Series.value_counts()]: every distinct label with the number of its
    occurrences.  pandas orders the pairs by decreasing count; the order is
    only observable through the iteration order of [categories], which a
    finite map does not keep. *)
Definition value_counts (values : list string) : list (string * Z) :=
  map (fun v => (v, Z.of_nat (length (filter (fun w => w = v) values))))
      (remove_dups values).

(** [{str(k): int(v) for k, v in value_counts.items()}]; the labels are
    strings, on which [str] is the identity.  A later pair overwrites an
    earlier one with the same key. *)
Definition to_categories (counts : list (string * Z)) : gmap string Z :=
  fold_left (fun d kv => <[kv.1 := kv.2]> d) counts ∅.

Definition msg_no_column (column_name : string) : string :=
  "La columna '" +:+ column_name +:+ "' no existe en el archivo".
Definition msg_empty_column : string :=
  "La columna no contiene datos válidos".
Definition msg_no_category (success_category : string) : string :=
  "La categoría '" +:+ success_category +:+ "' no existe en la columna o tiene 0 ocurrencias".

Definition analyze_categorical_column
    (df : gmap string (list (option string))) (column_name success_category : string)
  : result Analysis :=
  match df !! column_name with
  | None => Raise (DataProcessingError (msg_no_column column_name))
  | Some col =>
    let col_data := dropna col in
    let N := Z.of_nat (length col_data) in
    if N =? 0 then Raise (DataProcessingError msg_empty_column)
    else
      let categories := to_categories (value_counts col_data) in
      let K := default 0 (categories !! success_category) in
      if K =? 0 then Raise (DataProcessingError (msg_no_category success_category))
      else
        let* ratio := int_truediv K N in
        Ok {|
          N := N;
          K := K;
          p := py_round ratio 6;
          categories := categories;
          success_category := success_category;
          column_name := column_name
        |}
  end.

End DataProcessor.

(* ================================================================= *)
(** ** data_manager/forms.py and distribuciones/forms.py: the [clean] methods

    The arguments are the values [cleaned_data.get] returns for the
    fields: [None] for a field that is empty or failed its own validators.
    The value is the list of the [add_error] calls, as (field, message),
    in the order in which they are made. *)

Module Forms.

Definition msg_x_range (n : Z) : string :=
  "El número de éxitos (x) debe estar entre 0 y " +:+ string_of_Z n.
Definition msg_n_above_N : string :=
  "El tamaño de la muestra (n) no puede ser mayor que la población (N)".
Definition msg_K_above_N : string := "K no puede ser mayor que N".
Definition msg_x_above_K (K : Z) : string := "x no puede ser mayor que K=" +:+ string_of_Z K.
Definition msg_x_above_n (n : Z) : string := "x no puede ser mayor que n=" +:+ string_of_Z n.

(** [CalculationParamsForm.clean]. *)
Definition CalculationParamsForm_clean (n x N K : option Z) : list (string * string) :=
  (match n, x with
   | Some n, Some x => if (x <? 0) || (n <? x) then [("x", msg_x_range n)] else []
   | _, _ => []
   end) ++
  (match n, N with
   | Some n, Some N => if N <? n then [("n", msg_n_above_N)] else []
   | _, _ => []
   end) ++
  (match K, N with
   | Some K, Some N => if N <? K then [("K", msg_K_above_N)] else []
   | _, _ => []
   end) ++
  (match x, K with
   | Some x, Some K => if K <? x then [("x", msg_x_above_K K)] else []
   | _, _ => []
   end).

(** [HypergeometricManualForm.clean]. *)
Definition HypergeometricManualForm_clean (N K n x : option Z) : list (string * string) :=
  (match K, N with
   | Some K, Some N => if N <? K then [("K", msg_K_above_N)] else []
   | _, _ => []
   end) ++
  (match n, N with
   | Some n, Some N => if N <? n then [("n", "n no puede ser mayor que N")] else []
   | _, _ => []
   end) ++
  (match x with
   | Some x =>
     (match n with
      | Some n => if n <? x then [("x", msg_x_above_n n)] else []
      | None => []
      end) ++
     (match K with
      | Some K => if K <? x then [("x", msg_x_above_K K)] else []
      | None => []
      end)
   | None => []
   end).

(** [BinomialDistributionForm.clean_p] and [BinomialDistributionForm.clean]. *)
Definition BinomialDistributionForm_clean_p (p : option float) : option float :=
  match p with
  | Some p => Some (py_round p 4)
  | None => None
  end.

Definition BinomialDistributionForm_clean (n x N : option Z) : list (string * string) :=
  (match n, x with
   | Some n, Some x => if (x <? 0) || (n <? x) then [("x", msg_x_range n)] else []
   | _, _ => []
   end) ++
  (match n, N with
   | Some n, Some N => if N <? n then [("n", msg_n_above_N)] else []
   | _, _ => []
   end).

End Forms.

(* ================================================================= *)
(** ** [str.lower] on ASCII text *)

Module PyStr.

(** The lower-case form of an ASCII letter; every other character of the
    ASCII range is its own lower-case form. *)
Definition lower_ascii (c : ascii) : ascii :=
  let k := nat_of_ascii c in
  if ((65 <=? k) && (k <=? 90))%nat then ascii_of_nat (k + 32) else c.

Fixpoint lower (s : string) : string :=
  match s with
  | EmptyString => EmptyString
  | String c rest => String (lower_ascii c) (lower rest)
  end.

End PyStr.

(* ================================================================= *)
(** ** The probability mass functions, from their formulas *)

Module SpecPmf.

(** [C(n, k)] by the multiplicative recurrence [C(n, k) = C(n-1, k-1) * n / k]. *)
Fixpoint comb_nat (n : Z) (k : nat) : Z :=
  match k with
  | O => 1
  | S k' => comb_nat (n - 1) k' * n / Z.of_nat k
  end.

Definition comb (n k : Z) : Z :=
  if (k <? 0) || (n <? k) then 0 else comb_nat n (Z.to_nat k).

Fixpoint fpow (b : float) (k : nat) : float :=
  match k with
  | O => fone
  | S k' => fmul (fpow b k') b
  end.

(** Modelled from the spec: [scipy.stats.hypergeom.pmf] is an external
    library.  Section 4.4 gives pmf(x) = C(K,x)·C(N-K,n-x)/C(N,n); the
    quotient of the two integers is rounded once. *)
Definition hypergeom_pmf (x N K n : Z) : float :=
  if comb N n =? 0 then S754_nan
  else div_nearest (comb K x * comb (N - K) (n - x)) (comb N n).

(** Modelled from the spec: [scipy.stats.binom.pmf] is an external
    library.  Section 4.3 gives pmf(x) = C(n,x)·p^x·(1-p)^(n-x). *)
Definition binom_pmf (x n : Z) (p : float) : float :=
  if (x <? 0) || (n <? x) then fzero
  else
    fmul (fmul (binary_normalize prec emax (comb n x) 0 false) (fpow p (Z.to_nat x)))
         (fpow (fsub fone p) (Z.to_nat (n - x))).

End SpecPmf.

(* ================================================================= *)
(** ** Definitions used by the statements *)

(** SpecFloat is written with the core library's integer operations;
    this restates them with the Standard Library's names. *)
Ltac z_names :=
  change IntDef.Z.eqb with Z.eqb in *; change IntDef.Z.compare with Z.compare in *;
  change IntDef.Z.mul with Z.mul in *; change IntDef.Z.add with Z.add in *;
  change IntDef.Z.sub with Z.sub in *; change IntDef.Z.even with Z.even in *;
  change IntDef.Z.min with Z.min in *; change IntDef.Z.max with Z.max in *;
  change IntDef.Z.leb with Z.leb in *; change IntDef.Z.div_eucl with Z.div_eucl in *;
  change IntDef.Z.shiftl with Z.shiftl in *; change IntDef.Z.opp with Z.opp in *.

(** Case analysis on the integer tests of a validation chain. *)
Ltac decide_tests :=
  repeat match goal with
         | |- context [Z.ltb ?a ?b] => destruct (Z.ltb_spec a b); try lia
         | |- context [Z.leb ?a ?b] => destruct (Z.leb_spec a b); try lia
         end.

(** Inversion of a chain of binds that returned a value. *)
Ltac bind_inv H :=
  repeat (cbn [bind] in H;
          match type of H with
          | bind ?e _ = Ok _ =>
            let E := fresh "E" in
            destruct e eqn:E; [|discriminate H]
          end);
  cbn [bind] in H.


(** The magnitude and exponent bounds that one rounding step guarantees. *)
Definition round_magnitude (mx ex : Z) : Z := Z.max (Zdigits2 mx + ex) (emin prec emax) + 1.
Definition round_exponent (mx ex : Z) : Z := Z.max ex (fexp prec emax (round_magnitude mx ex)).

(** [f] is a zero or a finite float below [2^B] whose exponent is at most [E]. *)
Definition fin_bounds (f : float) (B E : Z) : Prop :=
  match f with
  | S754_zero _ => True
  | S754_finite _ m e => Z.pos (digits2_pos m) + e <= B /\ e <= E
  | _ => False
  end.

Definition nonneg_float (f : float) : Prop :=
  match f with
  | S754_finite true _ _ | S754_infinity true => False
  | _ => True
  end.

(** The real [num / den] lies in [[m, m + 1)], at the place [l] of that
    interval: exactly [m], below, at or above its middle. *)
Definition located (num den m : Z) (l : location) : Prop :=
  0 < den /\ m * den <= num < (m + 1) * den /\
  l = (if num - m * den =? 0 then loc_Exact
       else loc_Inexact (2 * (num - m * den) ?= den)).

(** The counts of the specification, taken on the raw column. *)
Definition non_null_count (col : list (option string)) : Z :=
  Z.of_nat (length (filter (fun c => c <> None) col)).

Definition success_count (col : list (option string)) (success : string) : Z :=
  Z.of_nat (length (filter (fun c => c = Some success) col)).

(** The cumulative sum of the values [prob 0], ..., [prob (k - 1)], added
    in ascending order, and the test the median walk applies at [x]. *)
Definition running_sum (prob : Z -> float) (k : Z) : float :=
  fold_left (fun acc y => fadd acc (prob y)) (py_range k) fzero.

Definition reaches_half (prob : Z -> float) (x : Z) : bool :=
  fleb (float_lit 5 1) (running_sum prob (x + 1)).

(** Population sizes whose fourth power still converts to a float: every
    int-to-float conversion of the moment formulas succeeds below it. *)
Definition float_safe (N : Z) : Prop := N < 2 ^ 255.

(** [f] is an infinity or a finite float of magnitude at least [2^(M-1)],
    on the binary64 grid. *)
Definition mag_at_least (f : float) (M : Z) : Prop :=
  match f with
  | S754_finite _ m e => M <= Z.pos (digits2_pos m) + e /\ -1074 <= e
  | S754_infinity _ => True
  | _ => False
  end.

(** Case analysis on the integer tests of a form, in the goal and in the
    hypotheses. *)
Ltac clean_tests :=
  repeat match goal with
         | |- context [Z.ltb ?a ?b] => destruct (Z.ltb_spec a b)
         | |- context [Z.leb ?a ?b] => destruct (Z.leb_spec a b)
         | H : context [Z.ltb ?a ?b] |- _ => destruct (Z.ltb_spec a b)
         | H : context [Z.leb ?a ?b] |- _ => destruct (Z.leb_spec a b)
         end.

(* ================================================================= *)
(** ** The arithmetic on known values *)

Section KnownValues.

(** [0.2] is [0x1.999999999999ap-3] and [1 / 3] is [0x1.5555555555555p-2]. *)
Example literal_one_fifth : float_lit 20 2 = S754_finite false 7205759403792794 (-55).
Proof. vm_compute. reflexivity. Qed.

Example one_third : int_truediv 1 3 = Ok (S754_finite false 6004799503160661 (-54)).
Proof. vm_compute. reflexivity. Qed.

(** [0 / -5] is [-0.0], [1 / 0] raises, and an int above the float range
    does not convert. *)
Example zero_over_negative : int_truediv 0 (-5) = Ok (S754_zero true).
Proof. reflexivity. Qed.

Example division_by_zero : int_truediv 1 0 = Raise ZeroDivisionError.
Proof. reflexivity. Qed.

Example int_too_large : float_of_int (2 ^ 1024) = Raise OverflowError.
Proof. vm_compute. reflexivity. Qed.

(** [round(2.675, 2)] is [2.67] (the float 2.675 lies below the decimal),
    [round(2.5, 0)] is [2.0] (half to even) and [f"{12.345:.2f}"] is "12.35". *)
Example round_below_half : py_round (float_lit 2675 3) 2 = float_lit 267 2.
Proof. vm_compute. reflexivity. Qed.

Example round_half_to_even : py_round (float_lit 25 1) 0 = float_lit 2 0.
Proof. vm_compute. reflexivity. Qed.

Example format_two_decimals : format_fixed (float_lit 12345 3) 2 = "12.35".
Proof. vm_compute. reflexivity. Qed.

(** [math.sqrt(2.5)] and [int(-3.7)]. *)
Example sqrt_of_variance :
  math_sqrt (float_lit 25 1) = Ok (S754_finite false 7120816245988179 (-52)).
Proof. vm_compute. reflexivity. Qed.

Example int_truncates : float_to_int (fneg (float_lit 37 1)) = Ok (-3).
Proof. vm_compute. reflexivity. Qed.

End KnownValues.

(* ================================================================= *)
(** ** Facts about binary64 rounding *)

Section Rounding.

Lemma digits2_pos_size p : digits2_pos p = Pos.size p.
Proof. induction p; simpl; congruence. Qed.

Lemma Zdigits2_log2 m : 0 < m -> Zdigits2 m = Z.log2 m + 1.
Proof.
  destruct m as [|p|p]; try lia. intros _. cbn [Zdigits2]. rewrite digits2_pos_size.
  destruct p; cbn [Z.log2 Pos.size]; lia.
Qed.

Lemma Zdigits2_nonneg m : 0 <= Zdigits2 m.
Proof. destruct m; cbn [Zdigits2]; lia. Qed.

Lemma Zdigits2_mono a b : 0 <= a <= b -> Zdigits2 a <= Zdigits2 b.
Proof.
  intros [Ha Hab]. destruct (Z.eq_dec a 0) as [->|Hn].
  - apply Zdigits2_nonneg.
  - rewrite !Zdigits2_log2 by lia. pose proof (Z.log2_le_mono a b Hab). lia.
Qed.

Lemma Zdigits2_succ m : 0 <= m -> Zdigits2 (m + 1) <= Zdigits2 m + 1.
Proof.
  intros Hm. destruct (Z.eq_dec m 0) as [->|Hn]; [now vm_compute|].
  rewrite !Zdigits2_log2 by lia.
  pose proof (Z.log2_succ_le m). unfold Z.succ in *. lia.
Qed.

Lemma Zdigits2_shift m k :
  0 <= k -> 0 < m / 2 ^ k -> Zdigits2 (m / 2 ^ k) = Zdigits2 m - k.
Proof.
  intros Hk Hq.
  assert (Hm : 0 < m).
  { destruct (Z_lt_le_dec 0 m) as [|Hle]; [assumption|].
    assert (m / 2 ^ k <= 0)
      by (apply Z.div_le_upper_bound; [apply Z.pow_pos_nonneg|]; lia).
    lia. }
  rewrite !Zdigits2_log2 by lia.
  rewrite <- Z.shiftr_div_pow2 in * by lia.
  rewrite Z.log2_shiftr by lia.
  assert (k <= Z.log2 m); [|lia].
  destruct (Z_lt_le_dec (Z.log2 m) k) as [Hlt|]; [|assumption].
  exfalso. rewrite Z.shiftr_eq_0 in Hq by lia. lia.
Qed.

Lemma Zdigits2_lt_pow2 m k : 0 <= k -> 0 <= m < 2 ^ k -> Zdigits2 m <= k.
Proof.
  intros Hk [H0 Hm]. destruct (Z.eq_dec m 0) as [->|Hn]; [cbn [Zdigits2]; lia|].
  rewrite Zdigits2_log2 by lia.
  assert (Z.log2 m < k) by (apply Z.log2_lt_pow2; lia). lia.
Qed.

Lemma Zdigits2_gt m : 0 <= m -> m < 2 ^ Zdigits2 m.
Proof.
  intros Hm. destruct (Z.eq_dec m 0) as [->|Hn]; [now vm_compute|].
  rewrite Zdigits2_log2 by lia.
  pose proof (Z.log2_spec m ltac:(lia)). unfold Z.succ in *. lia.
Qed.

Lemma Zdigits2_mul a b :
  0 <= a -> 0 <= b -> Zdigits2 (a * b) <= Zdigits2 a + Zdigits2 b.
Proof.
  intros Ha Hb.
  destruct (Z.eq_dec a 0) as [->|Hna]; [rewrite Z.mul_0_l; cbn [Zdigits2]; apply Zdigits2_nonneg|].
  destruct (Z.eq_dec b 0) as [->|Hnb];
    [rewrite Z.mul_0_r; cbn [Zdigits2]; pose proof (Zdigits2_nonneg a); lia|].
  rewrite !Zdigits2_log2 by nia.
  pose proof (Z.log2_mul_above a b ltac:(lia) ltac:(lia)). lia.
Qed.

Lemma shr_1_m r : 0 <= shr_m r -> shr_m (shr_1 r) = shr_m r / 2.
Proof.
  destruct r as [m rr ss]. cbn [shr_1 shr_m]. intros Hm.
  destruct m as [|[p|p|]|p]; cbn [shr_m]; try reflexivity; try lia.
  - apply Z.div_unique with 1; lia.
  - apply Z.div_unique with 0; lia.
Qed.

Lemma iter_shr_1_m p :
  forall r, 0 <= shr_m r -> shr_m (SpecFloat.iter_pos shr_1 p r) = shr_m r / 2 ^ Z.pos p.
Proof.
  assert (Hpow : forall q, 0 < 2 ^ Z.pos q) by (intros q; apply Z.pow_pos_nonneg; lia).
  assert (Hnn : forall r, 0 <= shr_m r -> 0 <= shr_m (shr_1 r)).
  { intros r Hr. rewrite shr_1_m by assumption. apply Z.div_pos; lia. }
  induction p as [p IH|p IH|]; intros r Hr; cbn [SpecFloat.iter_pos].
  - assert (H1 := Hnn r Hr).
    assert (H2 : 0 <= shr_m (SpecFloat.iter_pos shr_1 p (shr_1 r))).
    { rewrite IH by assumption. apply Z.div_pos; [assumption|apply Hpow]. }
    rewrite IH by assumption. rewrite IH by assumption. rewrite shr_1_m by assumption.
    pose proof (Hpow p).
    rewrite !Z.div_div by lia.
    f_equal.
    replace (Z.pos p~1) with (1 + Z.pos p + Z.pos p) by lia.
    rewrite !Z.pow_add_r by lia. lia.
  - assert (H2 : 0 <= shr_m (SpecFloat.iter_pos shr_1 p r)).
    { rewrite IH by assumption. apply Z.div_pos; [assumption|apply Hpow]. }
    rewrite IH by assumption. rewrite IH by assumption.
    pose proof (Hpow p).
    rewrite !Z.div_div by lia.
    f_equal.
    replace (Z.pos p~0) with (Z.pos p + Z.pos p) by lia.
    rewrite !Z.pow_add_r by lia. lia.
  - rewrite shr_1_m by assumption. reflexivity.
Qed.

Lemma shr_spec m l e n :
  0 <= m ->
  let '(r, e') := shr (shr_record_of_loc m l) e n in
  0 <= shr_m r /\ e' = Z.max e (e + n) /\
  (shr_m r = 0 \/ Zdigits2 (shr_m r) + e' = Zdigits2 m + e).
Proof.
  intros Hm.
  assert (Hrec : shr_m (shr_record_of_loc m l) = m) by (destruct l as [|[]]; reflexivity).
  destruct n as [|p|p]; cbn [shr].
  - rewrite Hrec. repeat split; try lia.
  - rewrite iter_shr_1_m by (rewrite Hrec; assumption). rewrite Hrec.
    assert (0 <= m / 2 ^ Z.pos p)
      by (apply Z.div_pos; [assumption|apply Z.pow_pos_nonneg; lia]).
    repeat split; try lia.
    destruct (Z.eq_dec (m / 2 ^ Z.pos p) 0) as [|Hne]; [left; assumption|right].
    rewrite Zdigits2_shift by lia. lia.
  - rewrite Hrec. repeat split; try lia.
Qed.

Lemma round_nearest_even_bounds m l : m <= round_nearest_even m l <= m + 1.
Proof. destruct l as [|[]]; cbn [round_nearest_even]; try lia. destruct (Z.even m); lia. Qed.

(** One rounding step returns a zero or a finite float of the requested
    sign, with its magnitude and exponent under control, as long as the
    exponent bound stays representable. *)
Lemma binary_round_aux_shape s mx ex lx :
  0 <= mx -> round_exponent mx ex <= emax - prec ->
  match binary_round_aux prec emax s mx ex lx with
  | S754_zero s' => s' = s
  | S754_finite s' m e =>
    s' = s /\ e <= round_exponent mx ex /\ Z.pos (digits2_pos m) + e <= round_magnitude mx ex
  | _ => False
  end.
Proof.
  intros Hmx HE. unfold binary_round_aux, shr_fexp.
  pose proof (shr_spec mx lx ex (fexp prec emax (Zdigits2 mx + ex) - ex) Hmx) as H1.
  destruct (shr (shr_record_of_loc mx lx) ex _) as [r1 e1].
  destruct H1 as (Hr1 & He1 & Hd1).
  set (m2 := round_nearest_even (shr_m r1) (loc_of_shr_record r1)).
  pose proof (round_nearest_even_bounds (shr_m r1) (loc_of_shr_record r1)) as Hm2.
  fold m2 in Hm2.
  assert (Hm2' : 0 <= m2) by lia.
  pose proof (shr_spec m2 loc_Exact e1 (fexp prec emax (Zdigits2 m2 + e1) - e1) Hm2') as H3.
  destruct (shr (shr_record_of_loc m2 loc_Exact) e1 _) as [r3 e3].
  destruct H3 as (Hr3 & He3 & Hd3).
  assert (Hd2 : Zdigits2 m2 <= Zdigits2 (shr_m r1) + 1).
  { etransitivity; [apply Zdigits2_mono with (b := shr_m r1 + 1); lia|].
    apply Zdigits2_succ; assumption. }
  pose proof (Zdigits2_nonneg mx) as Hdx.
  pose proof (Zdigits2_nonneg m2) as Hdm2.
  assert (Hmag1 : Zdigits2 (shr_m r1) + e1 <= Z.max (Zdigits2 mx + ex) (emin prec emax)).
  { destruct Hd1 as [Hz|Heq]; [rewrite Hz; cbn [Zdigits2]|];
      unfold fexp, emin, prec, emax in *; lia. }
  unfold round_exponent, round_magnitude in *. unfold fexp, emin in *.
  destruct (shr_m r3) as [|m|m] eqn:Hm3; try lia; [reflexivity|].
  assert (Hdig3 : Zdigits2 (Z.pos m) + e3 = Zdigits2 m2 + e1)
    by (destruct Hd3; [discriminate|assumption]).
  cbn [Zdigits2] in Hdig3.
  assert (He3' : e3 <= emax - prec) by lia.
  apply Z.leb_le in He3'. rewrite He3'.
  repeat split; lia.
Qed.

Lemma digits2_pos_iter_xO m d :
  Z.pos (digits2_pos (Pos.iter xO m d)) = Z.pos (digits2_pos m) + Z.pos d.
Proof.
  induction d as [|d IH] using Pos.peano_ind.
  - cbn. lia.
  - rewrite Pos.iter_succ. cbn [digits2_pos]. lia.
Qed.

Lemma shl_align_spec mx ex ex' :
  let '(mz, ez) := shl_align mx ex ex' in
  Z.pos (digits2_pos mz) + ez = Z.pos (digits2_pos mx) + ex /\ ez = Z.min ex ex'.
Proof.
  unfold shl_align. destruct (ex' - ex) as [|d|d] eqn:Hd; try (split; lia).
  rewrite digits2_pos_iter_xO. split; lia.
Qed.

Lemma float_of_int_ok z k :
  0 <= k <= 1023 -> Z.abs z < 2 ^ k ->
  exists f, float_of_int z = Ok f /\ fin_bounds f (k + 1) (Z.max 0 (k - 52)) /\
            (0 <= z -> nonneg_float f).
Proof.
  intros Hk Hz. unfold float_of_int.
  assert (Hpos : forall s m, Z.pos m < 2 ^ k -> (s = true -> ~ 0 <= z) ->
            exists f, finite_or_overflow (binary_round prec emax s m 0) = Ok f /\
                      fin_bounds f (k + 1) (Z.max 0 (k - 52)) /\ (0 <= z -> nonneg_float f)).
  { intros s m Hm Hs. unfold binary_round.
    pose proof (shl_align_spec m 0 (fexp prec emax (Z.pos (digits2_pos m) + 0))) as Hal.
    destruct (shl_align m 0 _) as [mz ez]. destruct Hal as [Hmag Hez].
    assert (Hd : Z.pos (digits2_pos m) <= k)
      by (apply (Zdigits2_lt_pow2 (Z.pos m)); lia).
    pose proof (binary_round_aux_shape s (Z.pos mz) ez loc_Exact) as Hsh.
    unfold round_exponent, round_magnitude, fexp, emin, prec, emax in *. cbn [Zdigits2] in Hsh.
    specialize (Hsh ltac:(lia) ltac:(lia)).
    destruct (binary_round_aux _ _ _ _ _ _) as [s'|s'| |s' m' e']; try contradiction.
    - eexists. split; [reflexivity|]. split; [exact I|intros _; exact I].
    - eexists. split; [reflexivity|]. destruct Hsh as (-> & He & Hm').
      split; [cbn [fin_bounds]; lia|].
      intros Hz0. destruct s; [exfalso; exact (Hs eq_refl Hz0)|exact I]. }
  destruct z as [|m|m]; cbn [binary_normalize].
  - eexists. split; [reflexivity|]. split; [exact I|intros _; exact I].
  - apply Hpos; [exact Hz|discriminate].
  - apply Hpos; [exact Hz|intros _; lia].
Qed.

Lemma SFdiv_core_binary_int ma mb :
  0 < ma -> 0 < mb -> ma <= mb ->
  let '(q, e, l) := SFdiv_core_binary prec emax ma 0 mb 0 in
  0 <= q /\ e <= 0 /\ Zdigits2 q + e <= 1.
Proof.
  intros Ha Hb Hab. unfold SFdiv_core_binary.
  set (e' := Z.min _ (0 - 0)).
  assert (He' : e' <= 0) by (unfold e'; lia).
  set (m' := match 0 - 0 - e' with 0 => ma | Z.pos _ => Z.shiftl ma (0 - 0 - e') | Z.neg _ => 0 end).
  assert (Hm' : m' = ma * 2 ^ (- e')).
  { unfold m'. destruct (0 - 0 - e') as [|p|p] eqn:Hs; try lia.
    - replace (- e') with 0 by lia. lia.
    - rewrite Z.shiftl_mul_pow2 by lia. f_equal. f_equal. lia. }
  destruct (Z.div_eucl m' mb) as [q r] eqn:Hqr.
  assert (Hq : q = m' / mb) by (unfold Z.div; rewrite Hqr; reflexivity).
  assert (Hp : 0 < 2 ^ (- e')) by (apply Z.pow_pos_nonneg; lia).
  assert (Hq0 : 0 <= q) by (rewrite Hq; apply Z.div_pos; nia).
  assert (Hq1 : q <= 2 ^ (- e')).
  { rewrite Hq. apply Z.div_le_upper_bound; [lia|]. rewrite Hm'. nia. }
  assert (Hd : Zdigits2 q <= - e' + 1).
  { apply Zdigits2_lt_pow2; [lia|]. rewrite Z.pow_add_r by lia. lia. }
  repeat split; lia.
Qed.

Lemma int_truediv_ok a b :
  b <> 0 -> Z.abs a <= Z.abs b ->
  exists f, int_truediv a b = Ok f /\ fin_bounds f 2 0 /\
            (0 <= a -> 0 < b -> nonneg_float f).
Proof.
  intros Hb Hab. unfold int_truediv.
  destruct (Z.eqb_spec b 0) as [|_]; [contradiction|].
  unfold div_nearest.
  destruct (Z.eq_dec a 0) as [->|Ha].
  { eexists. split; [reflexivity|]. split; [exact I|]. intros _ _. exact I. }
  pose proof (SFdiv_core_binary_int (Z.abs a) (Z.abs b) ltac:(lia) ltac:(lia) Hab) as Hcore.
  destruct (SFdiv_core_binary prec emax (Z.abs a) 0 (Z.abs b) 0) as [[mz ez] lz].
  destruct Hcore as (Hq & He & Hmag).
  pose proof (binary_round_aux_shape (xorb (a <? 0) (b <? 0)) mz ez lz Hq) as Hsh.
  unfold round_exponent, round_magnitude, fexp, emin, prec, emax in *.
  specialize (Hsh ltac:(lia)).
  assert (Hgoal : exists f,
    finite_or_overflow
      (binary_round_aux 53 1024 (xorb (a <? 0) (b <? 0)) mz ez lz) = Ok f /\
    fin_bounds f 2 0 /\ (0 <= a -> 0 < b -> nonneg_float f)).
  { destruct (binary_round_aux _ _ _ _ _ _) as [s'|s'| |s' m' e']; try contradiction.
    - eexists. split; [reflexivity|]. split; [exact I|]. intros _ _. exact I.
    - eexists. split; [reflexivity|]. destruct Hsh as (-> & He' & Hm').
      split; [cbn [fin_bounds]; lia|].
      intros Ha0 Hb0.
      destruct (Z.ltb_spec a 0); [lia|]. destruct (Z.ltb_spec b 0); [lia|]. exact I. }
  destruct a; [contradiction|exact Hgoal|exact Hgoal].
Qed.

Lemma fmul_fin a b A Ea B Eb :
  fin_bounds a A Ea -> fin_bounds b B Eb ->
  Z.max (Ea + Eb) (fexp prec emax (Z.max (A + B) (emin prec emax) + 1)) <= emax - prec ->
  fin_bounds (fmul a b) (Z.max (A + B) (emin prec emax) + 1)
             (Z.max (Ea + Eb) (fexp prec emax (Z.max (A + B) (emin prec emax) + 1))).
Proof.
  intros Ha Hb HE.
  destruct a as [sa|sa| |sa ma ea]; try contradiction;
    destruct b as [sb|sb| |sb mb eb]; try contradiction; try exact I.
  cbn [fin_bounds] in Ha, Hb. unfold fmul. cbn [SFmul].
  pose proof (binary_round_aux_shape (xorb sa sb) (Z.pos (ma * mb)) (ea + eb) loc_Exact) as Hsh.
  pose proof (Zdigits2_mul (Z.pos ma) (Z.pos mb) ltac:(lia) ltac:(lia)) as Hmul.
  change (Z.pos ma * Z.pos mb) with (Z.pos (ma * mb)) in Hmul.
  cbn [Zdigits2] in Hmul.
  unfold round_exponent, round_magnitude, fexp, emin, prec, emax in *. cbn [Zdigits2] in Hsh.
  specialize (Hsh ltac:(lia) ltac:(lia)).
  destruct (binary_round_aux _ _ _ _ _ _) as [s'|s'| |s' m' e']; try contradiction.
  - exact I.
  - cbn [fin_bounds]. lia.
Qed.

Lemma fin_bounds_weaken f B E B' E' :
  fin_bounds f B E -> B <= B' -> E <= E' -> fin_bounds f B' E'.
Proof. destruct f; cbn [fin_bounds]; try tauto. lia. Qed.

Lemma float_to_int_ok f B E :
  fin_bounds f B E -> 0 <= B ->
  exists z, float_to_int f = Ok z /\ Z.abs z < 2 ^ B.
Proof.
  intros Hf HB. destruct f as [s|s| |s m e]; try contradiction.
  - exists 0. split; [reflexivity|]. pose proof (Z.pow_pos_nonneg 2 B); lia.
  - cbn [fin_bounds] in Hf. destruct Hf as [Hmag _].
    cbn [float_to_int]. eexists. split; [reflexivity|].
    pose proof (Zdigits2_gt (Z.pos m) ltac:(lia)) as Hm. cbn [Zdigits2] in Hm.
    set (d := Z.pos (digits2_pos m)) in *.
    assert (Ha : 0 <= (if 0 <=? e then Z.pos m * 2 ^ e else Z.pos m / 2 ^ (- e)) < 2 ^ B).
    { destruct (Z.leb_spec 0 e) as [He|He].
      - assert (0 < 2 ^ e) by (apply Z.pow_pos_nonneg; lia).
        assert (2 ^ (d + e) <= 2 ^ B) by (apply Z.pow_le_mono_r; lia).
        rewrite Z.pow_add_r in * by lia. nia.
      - assert (Hp : 0 < 2 ^ (- e)) by (apply Z.pow_pos_nonneg; lia).
        split; [apply Z.div_pos; lia|].
        destruct (Z_lt_le_dec (d + e) 0) as [Hneg|Hnn].
        + assert (2 ^ d <= 2 ^ (- e)) by (apply Z.pow_le_mono_r; lia).
          rewrite Z.div_small by lia. apply Z.pow_pos_nonneg; lia.
        + assert (2 ^ (d + e) <= 2 ^ B) by (apply Z.pow_le_mono_r; lia).
          assert (Z.pos m / 2 ^ (- e) < 2 ^ (d + e)); [|lia].
          apply Z.div_lt_upper_bound; [lia|].
          rewrite <- Z.pow_add_r by lia. replace (- e + (d + e)) with d by lia. exact Hm. }
    destruct s; lia.
Qed.

End Rounding.

(* ================================================================= *)
(** ** The quotient of two integers against the threshold 0.20 *)

Section Threshold.

Lemma new_location_spec (N r : Z) :
  0 <= r < N ->
  new_location N r = if r =? 0 then loc_Exact else loc_Inexact (2 * r ?= N).
Proof.
  intros Hr. unfold new_location, new_location_even, new_location_odd. z_names.
  destruct (Z.even N) eqn:Hev; cbv beta;
    destruct (Z.eqb_spec r 0) as [->|Hr0]; try reflexivity.
  assert (Hodd : Z.odd N = true) by (rewrite <- Z.negb_even, Hev; reflexivity).
  apply Z.odd_spec in Hodd. destruct Hodd as [k Hk].
  f_equal.
  destruct (Z.compare_spec (2 * r + 1) N); destruct (Z.compare_spec (2 * r) N);
    try reflexivity; lia.
Qed.

Lemma located_div (a b q r : Z) :
  0 <= a -> 0 < b -> Z.div_eucl a b = (q, r) -> located a b q (new_location b r).
Proof.
  intros Ha Hb Hqr.
  pose proof (Z_div_mod a b ltac:(lia)) as Hspec. rewrite Hqr in Hspec.
  destruct Hspec as [Heq Hrem].
  unfold located. rewrite new_location_spec by lia.
  replace (a - q * b) with r by lia.
  repeat split; try lia.
Qed.

Lemma shr_1_located (num den m : Z) (l : location) :
  0 <= m -> located num den m l ->
  located num (2 * den) (shr_m (shr_1 (shr_record_of_loc m l)))
          (loc_of_shr_record (shr_1 (shr_record_of_loc m l))).
Proof.
  intros Hm (Hden & Hbounds & Hl). unfold located.
  set (rem := num - m * den) in *.
  assert (Hcases :
    (rem = 0 /\ l = loc_Exact) \/ (rem <> 0 /\ 2 * rem < den /\ l = loc_Inexact Lt) \/
    (rem <> 0 /\ 2 * rem = den /\ l = loc_Inexact Eq) \/
    (rem <> 0 /\ 2 * rem > den /\ l = loc_Inexact Gt)).
  { rewrite Hl. destruct (Z.eqb_spec rem 0); [left; split; [assumption|reflexivity]|right].
    destruct (Z.compare_spec (2 * rem) den); [right; left|left|right; right];
      repeat split; (lia || reflexivity). }
  assert (Hpar : exists m' b, m = 2 * m' + b /\ (b = 0 \/ b = 1) /\
            shr_1 (shr_record_of_loc m l) =
            {| shr_m := m'; shr_r := (b =? 1);
               shr_s := negb (match l with loc_Exact => true | _ => false end) |}).
  { destruct m as [|[p|p|]|p]; try lia.
    - exists 0, 0. split; [lia|]. split; [left; reflexivity|]. destruct l as [|[]]; reflexivity.
    - exists (Z.pos p), 1. split; [lia|]. split; [right; reflexivity|].
      destruct l as [|[]]; reflexivity.
    - exists (Z.pos p), 0. split; [lia|]. split; [left; reflexivity|].
      destruct l as [|[]]; reflexivity.
    - exists 0, 1. split; [lia|]. split; [right; reflexivity|]. destruct l as [|[]]; reflexivity. }
  destruct Hpar as (m' & b & Hmb & Hb & ->). cbn [shr_m].
  assert (Hrem' : num - m' * (2 * den) = rem + b * den) by (unfold rem; lia).
  rewrite Hrem'.
  split; [lia|]. split; [unfold rem in *; destruct Hb; subst b; lia|].
  clear Hl.
  destruct Hcases as [[H0 ->]|[(Hn0 & Hlt & ->)|[(Hn0 & Heq & ->)|(Hn0 & Hgt & ->)]]];
    destruct Hb as [-> | ->];
    change (0 =? 1) with false; change (1 =? 1) with true;
    cbn [loc_of_shr_record negb];
    (match goal with |- context [Z.eqb ?t 0] => destruct (Z.eqb_spec t 0) end);
    try lia; try reflexivity;
    (match goal with |- context [Z.compare ?a ?b] => destruct (Z.compare_spec a b) end);
    try reflexivity; lia.
Qed.

Lemma round_nearest_even_ge (num den m K : Z) (l : location) :
  located num den m l -> Z.even K = true ->
  (K <= round_nearest_even m l <-> (2 * K - 1) * den <= 2 * num).
Proof.
  intros (Hden & Hbounds & Hl) HK.
  set (rem := num - m * den) in *.
  assert (Hnum : num = m * den + rem) by (unfold rem; lia).
  assert (Hrem : 0 <= rem < den) by (unfold rem; lia).
  apply Z.even_spec in HK. destruct HK as [k Hk].
  assert (Hle : K <= m -> (2 * K - 1) * den <= 2 * num) by (intros; nia).
  assert (Hgt : m + 1 < K -> ~ (2 * K - 1) * den <= 2 * num) by (intros; nia).
  destruct (Z_le_gt_dec K m) as [HKm|HKm].
  { pose proof (round_nearest_even_bounds m l). split; [intros _; auto|intros _; lia]. }
  destruct (Z.eq_dec K (m + 1)) as [HK1|HK1].
  2:{ pose proof (round_nearest_even_bounds m l).
      split; [lia|intros Hc; exfalso; apply Hgt; [lia|exact Hc]]. }
  assert (Hodd : Z.even m = false).
  { rewrite <- Z.negb_odd. replace m with (2 * k - 1) by lia.
    rewrite Z.odd_sub, Z.odd_mul. reflexivity. }
  subst l. destruct (Z.eqb_spec rem 0) as [H0|H0]; cbn [round_nearest_even].
  - split; [lia|nia].
  - destruct (Z.compare_spec (2 * rem) den); cbn [round_nearest_even]; try rewrite Hodd;
      split; try lia; try nia.
Qed.

Lemma Zdigits2_eq (m k : Z) : 0 < k -> 2 ^ (k - 1) <= m < 2 ^ k -> Zdigits2 m = k.
Proof.
  intros Hk [Hlo Hhi].
  assert (0 < 2 ^ (k - 1)) by (apply Z.pow_pos_nonneg; lia).
  rewrite Zdigits2_log2 by lia.
  assert (Z.log2 m = k - 1); [|lia].
  apply Z.log2_unique; [lia|]. replace (Z.succ (k - 1)) with k by lia. lia.
Qed.

Lemma loc_of_shr_record_of_loc (m : Z) (l : location) :
  loc_of_shr_record (shr_record_of_loc m l) = l /\ shr_m (shr_record_of_loc m l) = m.
Proof. destruct l as [|[]]; split; reflexivity. Qed.

(** The second half of a rounding step, on a mantissa of 53 bits. *)
Lemma round_then_normalize (s : bool) (m1 e1 : Z) (l1 : location) :
  2 ^ 52 <= m1 < 2 ^ 53 -> -1074 <= e1 <= 960 ->
  (let '(mrs, e) := shr_fexp prec emax (round_nearest_even m1 l1) e1 loc_Exact in
   match shr_m mrs with
   | 0 => S754_zero s
   | Z.pos m => if e <=? emax - prec then S754_finite s m e else S754_infinity s
   | Z.neg _ => S754_nan
   end) =
  if round_nearest_even m1 l1 <? 2 ^ 53
  then S754_finite s (Z.to_pos (round_nearest_even m1 l1)) e1
  else S754_finite s (Z.to_pos (2 ^ 52)) (e1 + 1).
Proof.
  intros Hm1 He1.
  pose proof (round_nearest_even_bounds m1 l1) as Hm2.
  set (m2 := round_nearest_even m1 l1) in *.
  unfold shr_fexp, fexp, emin, prec, emax. z_names.
  destruct (Z.ltb_spec m2 (2 ^ 53)) as [Hlt|Hge].
  - rewrite (Zdigits2_eq m2 53) by (change (2 ^ (53 - 1)) with (2 ^ 52); lia).
    replace (Z.max (53 + e1 - 53) (3 - 1024 - 53) - e1) with 0 by lia.
    unfold shr. cbn [shr_record_of_loc shr_m].
    destruct m2 as [|p|p] eqn:Hp; try lia.
    destruct (Z.leb_spec e1 (1024 - 53)); [|lia]. reflexivity.
  - assert (Hm2eq : m2 = 2 ^ 53) by lia. rewrite Hm2eq.
    change (Zdigits2 (2 ^ 53)) with 54.
    replace (Z.max (54 + e1 - 53) (3 - 1024 - 53) - e1) with 1 by lia.
    change (shr (shr_record_of_loc (2 ^ 53) loc_Exact) e1 1)
      with ({| shr_m := 2 ^ 52; shr_r := false; shr_s := false |}, e1 + 1).
    cbn [shr_m]. change (2 ^ 52) with (Z.pos (Z.to_pos (2 ^ 52))) at 1.
    cbv iota. destruct (Z.leb_spec (e1 + 1) (1024 - 53)); [|lia]. reflexivity.
Qed.

(** A rounding step on a quotient of 53 or 54 bits: the first shift keeps
    53 bits and the place of the exact quotient; the result is the nearest
    53-bit mantissa, renormalized when it reaches 2^53. *)
Lemma binary_round_aux_normal (s : bool) (q e : Z) (l : location) (num den : Z) :
  2 ^ 52 <= q < 2 ^ 54 -> -1074 <= e <= 900 -> located num den q l ->
  exists m1 l1 k1,
    (k1 = 0 \/ k1 = 1) /\ 2 ^ 52 <= m1 < 2 ^ 53 /\
    located num (den * 2 ^ k1) m1 l1 /\
    binary_round_aux prec emax s q e l =
    if round_nearest_even m1 l1 <? 2 ^ 53
    then S754_finite s (Z.to_pos (round_nearest_even m1 l1)) (e + k1)
    else S754_finite s (Z.to_pos (2 ^ 52)) (e + k1 + 1).
Proof.
  intros Hq He Hloc. unfold binary_round_aux.
  destruct (Z_lt_le_dec q (2 ^ 53)) as [Hlt|Hge].
  - exists q, l, 0. split; [left; reflexivity|]. split; [lia|].
    split; [change (2 ^ 0) with 1; rewrite Z.mul_1_r; exact Hloc|].
    unfold shr_fexp at 1. unfold fexp, emin, prec, emax. z_names.
    rewrite (Zdigits2_eq q 53) by (change (2 ^ (53 - 1)) with (2 ^ 52); lia).
    replace (Z.max (53 + e - 53) (3 - 1024 - 53) - e) with 0 by lia.
    unfold shr at 1.
    destruct (loc_of_shr_record_of_loc q l) as [-> ->].
    rewrite Z.add_0_r.
    apply (round_then_normalize s q e l); lia.
  - pose proof (shr_1_located num den q l ltac:(lia) Hloc) as Hloc1.
    pose proof (shr_1_m (shr_record_of_loc q l)) as Hm1.
    destruct (loc_of_shr_record_of_loc q l) as [_ Hrec]. rewrite Hrec in Hm1.
    specialize (Hm1 ltac:(lia)).
    set (r1 := shr_1 (shr_record_of_loc q l)) in *.
    assert (Hm1b : 2 ^ 52 <= shr_m r1 < 2 ^ 53).
    { rewrite Hm1. change (2 ^ 54) with (2 * 2 ^ 53) in Hq.
      change (2 ^ 53) with (2 * 2 ^ 52) in Hge.
      split; [apply Z.div_le_lower_bound; lia|apply Z.div_lt_upper_bound; lia]. }
    exists (shr_m r1), (loc_of_shr_record r1), 1.
    split; [right; reflexivity|]. split; [exact Hm1b|].
    split; [change (2 ^ 1) with 2; rewrite Z.mul_comm; exact Hloc1|].
    unfold shr_fexp at 1. unfold fexp, emin, prec, emax. z_names.
    rewrite (Zdigits2_eq q 54) by (change (2 ^ (54 - 1)) with (2 ^ 53); lia).
    replace (Z.max (54 + e - 53) (3 - 1024 - 53) - e) with 1 by lia.
    change (shr (shr_record_of_loc q l) e 1) with (r1, e + 1).
    apply (round_then_normalize s (shr_m r1) (e + 1) (loc_of_shr_record r1)); lia.
Qed.

Lemma fleb_finite_pos (mT mF : positive) (eT eF : Z) :
  fleb (S754_finite false mT eT) (S754_finite false mF eF) = true <->
  eT < eF \/ (eT = eF /\ Z.pos mT <= Z.pos mF).
Proof.
  unfold fleb, SFleb, SFcompare. z_names.
  destruct (Z.compare_spec eT eF) as [He|He|He].
  - destruct (PosDef.Pos.compare_cont Eq mT mF) eqn:Hc.
    + assert (Hc' : (mT ?= mF)%positive = Eq) by exact Hc.
      apply Pos.compare_eq_iff in Hc'. subst mF.
      split; [intros _; right; split; [exact He|lia]|reflexivity].
    + assert (Hc' : (mT ?= mF)%positive = Lt) by exact Hc.
      apply Pos.compare_lt_iff, Pos2Z.pos_lt_pos in Hc'.
      split; [intros _; right; split; [exact He|lia]|reflexivity].
    + assert (Hc' : (mT ?= mF)%positive = Gt) by exact Hc.
      apply Pos.compare_gt_iff, Pos2Z.pos_lt_pos in Hc'. split; [discriminate|lia].
  - split; [intros _; left; exact He|reflexivity].
  - split; [discriminate|lia].
Qed.

Lemma Zdigits2_lower (m : Z) : 0 < m -> 2 ^ (Zdigits2 m - 1) <= m.
Proof.
  intros Hm. rewrite Zdigits2_log2 by lia.
  replace (Z.log2 m + 1 - 1) with (Z.log2 m) by lia.
  apply Z.log2_spec. lia.
Qed.

Lemma threshold_value : float_lit 20 2 = S754_finite false 7205759403792794 (-55).
Proof. vm_compute. reflexivity. Qed.

(** Below 2^53 the float quotient n / N compares with the literal 0.20 as
    the rational n / N compares with 1/5. *)
Lemma ratio_reaches_threshold (n N : Z) :
  0 < n <= N -> N < 2 ^ 53 ->
  (fleb (float_lit 20 2) (div_nearest n N) = true <-> N <= 5 * n).
Proof.
  intros Hn HN. rewrite threshold_value.
  pose proof (Zdigits2_lower n ltac:(lia)) as Hn_lo.
  pose proof (Zdigits2_gt n ltac:(lia)) as Hn_hi.
  pose proof (Zdigits2_lower N ltac:(lia)) as HN_lo.
  pose proof (Zdigits2_gt N ltac:(lia)) as HN_hi.
  pose proof (Zdigits2_mono n N ltac:(lia)) as Hd12.
  pose proof (Zdigits2_lt_pow2 N 53 ltac:(lia) ltac:(lia)) as Hd2.
  assert (Hd1 : 1 <= Zdigits2 n).
  { destruct n as [|p|p]; try lia. cbn [Zdigits2]. lia. }
  set (d1 := Zdigits2 n) in *. set (d2 := Zdigits2 N) in *.
  set (s := 53 - (d1 - d2)).
  assert (Hcore : SFdiv_core_binary prec emax (Z.abs n) 0 (Z.abs N) 0 =
                  (n * 2 ^ s / N, - s, new_location N (n * 2 ^ s mod N))).
  { unfold SFdiv_core_binary, fexp, emin, prec, emax. z_names.
    rewrite !Z.abs_eq by lia. fold d1 d2.
    replace (Z.min (Z.max (d1 + 0 - (d2 + 0) - 53) (3 - 1024 - 53)) (0 - 0)) with (- s)
      by (unfold s; lia).
    replace (0 - 0 - - s) with s by lia.
    destruct s as [|ps|ps] eqn:Hs; try (unfold s in Hs; lia).
    rewrite Z.shiftl_mul_pow2 by lia.
    unfold Z.div, Z.modulo. destruct (Z.div_eucl _ N). reflexivity. }
  assert (Hdiv : div_nearest n N =
                 binary_round_aux prec emax false (n * 2 ^ s / N) (- s)
                                  (new_location N (n * 2 ^ s mod N))).
  { unfold div_nearest. rewrite Hcore.
    destruct n as [|p|p]; try lia.
    destruct (Z.ltb_spec (Z.pos p) 0); [lia|]. destruct (Z.ltb_spec N 0); [lia|]. reflexivity. }
  rewrite Hdiv. clear Hdiv Hcore.
  set (m' := n * 2 ^ s).
  assert (Hs : 53 <= s <= 105) by (unfold s; lia).
  assert (Hm'lo : 2 ^ 52 * N <= m').
  { unfold m'. assert (2 ^ 52 * 2 ^ d2 <= 2 ^ (d1 - 1) * 2 ^ s).
    { rewrite <- !Z.pow_add_r by lia. apply Z.pow_le_mono_r; unfold s; lia. }
    assert (0 < 2 ^ s) by (apply Z.pow_pos_nonneg; lia). nia. }
  assert (Hm'hi : m' < N * 2 ^ 54).
  { unfold m'. assert (2 ^ d1 * 2 ^ s <= 2 ^ (d2 - 1) * 2 ^ 54).
    { rewrite <- !Z.pow_add_r by lia. apply Z.pow_le_mono_r; unfold s; lia. }
    assert (0 < 2 ^ s) by (apply Z.pow_pos_nonneg; lia). nia. }
  assert (Hq : 2 ^ 52 <= m' / N < 2 ^ 54).
  { split; [apply Z.div_le_lower_bound; lia|apply Z.div_lt_upper_bound; lia]. }
  assert (Hloc : located m' N (m' / N) (new_location N (m' mod N))).
  { apply located_div; [unfold m'; assert (0 < 2 ^ s) by (apply Z.pow_pos_nonneg; lia); nia|lia|].
    unfold Z.div, Z.modulo. destruct (Z.div_eucl m' N). reflexivity. }
  destruct (binary_round_aux_normal false (m' / N) (- s) _ m' N Hq ltac:(lia) Hloc)
    as (m1 & l1 & k1 & Hk1 & Hm1 & Hloc1 & ->).
  pose proof (round_nearest_even_bounds m1 l1) as Hm2.
  pose proof (round_nearest_even_ge m' (N * 2 ^ k1) m1 7205759403792794 l1 Hloc1 eq_refl) as Hge.
  destruct Hloc1 as (_ & Hb1 & _).
  set (m2 := round_nearest_even m1 l1) in *.
  set (P := 2 ^ (s - k1)).
  assert (HP : m' = n * 2 ^ k1 * P).
  { unfold m', P. rewrite <- Z.mul_assoc, <- Z.pow_add_r by lia. f_equal. f_equal. lia. }
  assert (Hk1pos : 0 < 2 ^ k1) by (apply Z.pow_pos_nonneg; lia).
  assert (Hb : m1 * N <= n * P < (m1 + 1) * N) by (rewrite HP in Hb1; nia).
  assert (Hge' : 7205759403792794 <= m2 <-> 14411518807585587 * N <= 2 * (n * P))
    by (rewrite Hge, HP; split; intros; nia).
  assert (HPcases : (s - k1 <= 54 /\ P <= 2 ^ 54 /\ 0 < P) \/ (s - k1 = 55 /\ P = 2 ^ 55) \/
                    (56 <= s - k1 /\ 2 ^ 56 <= P)).
  { unfold P.
    destruct (Z_le_gt_dec (s - k1) 54); [left|right; destruct (Z.eq_dec (s - k1) 55) as [->|]].
    - split; [lia|]. split; [apply Z.pow_le_mono_r; lia|apply Z.pow_pos_nonneg; lia].
    - left. split; reflexivity.
    - right. split; [lia|apply Z.pow_le_mono_r; lia]. }
  clear Hge Hb1 HP Hloc Hq Hm'lo Hm'hi. clearbody m2 P m'.
  change (2 ^ 52) with 4503599627370496 in *. change (2 ^ 53) with 9007199254740992 in *.
  change (2 ^ 54) with 18014398509481984 in *. change (2 ^ 55) with 36028797018963968 in *.
  change (2 ^ 56) with 72057594037927936 in *.
  destruct (Z.ltb_spec m2 9007199254740992) as [Hlt|Hnlt]; rewrite fleb_finite_pos.
  - rewrite Z2Pos.id by lia.
    destruct HPcases as [(Hs1 & HP1 & HP0)|[(Hs1 & HP1)|(Hs1 & HP1)]].
    + split; [intros _; nia|intros _; left; lia].
    + split.
      * intros [He|[_ Hm]]; [lia|]. apply Hge' in Hm. lia.
      * intros H5. right. split; [lia|]. apply Hge'. lia.
    + split; [intros [He|[He _]]; lia|intros H5; exfalso; nia].
  - assert (m1 = 9007199254740991) by lia. subst m1.
    destruct HPcases as [(Hs1 & HP1 & HP0)|[(Hs1 & HP1)|(Hs1 & HP1)]].
    + split; [intros _; nia|intros _; left; lia].
    + split; [intros _; lia|intros _; left; lia].
    + split; [|intros H5; exfalso; nia].
      intros [He|[He Hm]]; [lia|]. exfalso.
      change (Z.pos (Z.to_pos 4503599627370496)) with 4503599627370496 in Hm. lia.
Qed.

Lemma int_truediv_value (a b : Z) (f : float) :
  int_truediv a b = Ok f -> f = div_nearest a b.
Proof.
  unfold int_truediv, finite_or_overflow. destruct (b =? 0); [discriminate|].
  destruct (div_nearest a b); congruence.
Qed.

End Threshold.

(* ================================================================= *)
(** ** Strings of the error messages *)

Section Strings.

Lemma append_inv_head (pre s t : string) : pre +:+ s = pre +:+ t -> s = t.
Proof. induction pre as [|c pre IH]; cbn; [tauto|]. intros H. injection H. exact IH. Qed.

Lemma string_of_uint_head (d : Decimal.uint) (s : string) :
  NilEmpty.string_of_uint d <> String "K" s.
Proof. destruct d; cbn; discriminate. Qed.

Lemma string_of_Z_head (z : Z) (s : string) : string_of_Z z <> String "K" s.
Proof.
  unfold string_of_Z. destruct (Z.to_int z) as [d|d]; cbn [NilEmpty.string_of_int].
  - apply string_of_uint_head.
  - discriminate.
Qed.

End Strings.

(* ================================================================= *)
(** ** Model selection *)

Section ModelSelectorFacts.

Import ModelSelector.

(** C1.  For every valid input (N > 0, 0 <= K <= N, 0 < n <= N) the ratio
    n / N is computed without error and [decide] returns a decision made
    with the threshold 0.20: the family is Hypergeometric exactly when the
    float n / N is at least the float 0.20, which for N < 2^53 is exactly
    when the rational n / N is at least 1/5; a Hypergeometric decision
    carries no recommendation, and any other decision is Binomial and
    carries one. *)
Theorem decide_threshold_rule (N K n : Z) :
  0 < N -> 0 <= K <= N -> 0 < n <= N ->
  exists ratio d,
    int_truediv n N = Ok ratio /\
    decide N K n = Ok d /\
    threshold_used d = float_lit 20 2 /\
    (distribution_type d = HYPERGEOMETRIC <-> fleb (float_lit 20 2) ratio = true) /\
    (N < 2 ^ 53 -> (distribution_type d = HYPERGEOMETRIC <-> N <= 5 * n)) /\
    (distribution_type d = HYPERGEOMETRIC -> recommendation d = None) /\
    (distribution_type d <> HYPERGEOMETRIC ->
     distribution_type d = BINOMIAL /\ exists text, recommendation d = Some text).
Proof.
  intros HN HK Hn.
  destruct (int_truediv_ok n N) as (ratio & Hr & _); [lia|lia|].
  exists ratio. unfold decide.
  destruct (Z.leb_spec N 0); [lia|]. destruct (Z.ltb_spec K 0); [lia|].
  destruct (Z.ltb_spec N K); [lia|]. destruct (Z.leb_spec n 0); [lia|].
  destruct (Z.ltb_spec N n); [lia|].
  rewrite Hr. cbn [bind]. fold THRESHOLD.
  assert (Hexact : N < 2 ^ 53 -> (fleb THRESHOLD ratio = true <-> N <= 5 * n)).
  { intros Hsmall. rewrite (int_truediv_value _ _ _ Hr).
    apply ratio_reaches_threshold; lia. }
  destruct (fleb THRESHOLD ratio) eqn:Hc; eexists;
    (split; [reflexivity|]); (split; [reflexivity|]);
    cbn [distribution_type recommendation threshold_used].
  - split; [reflexivity|]. split; [tauto|]. split; [intros Hs; specialize (Hexact Hs); tauto|].
    split; [reflexivity|]. congruence.
  - split; [reflexivity|]. split; [split; discriminate|].
    split; [intros Hs; specialize (Hexact Hs); split; [discriminate|]; intros H5;
            apply Hexact in H5; discriminate|].
    split; [discriminate|].
    intros _. split; [reflexivity|]. eexists. reflexivity.
Qed.

Lemma decide_threshold_rule_witness :
  exists ratio d,
    int_truediv 50 1000 = Ok ratio /\
    decide 1000 200 50 = Ok d /\
    threshold_used d = float_lit 20 2 /\
    (distribution_type d = HYPERGEOMETRIC <-> fleb (float_lit 20 2) ratio = true) /\
    (1000 < 2 ^ 53 -> (distribution_type d = HYPERGEOMETRIC <-> 1000 <= 5 * 50)) /\
    (distribution_type d = HYPERGEOMETRIC -> recommendation d = None) /\
    (distribution_type d <> HYPERGEOMETRIC ->
     distribution_type d = BINOMIAL /\ exists text, recommendation d = Some text).
Proof. apply (decide_threshold_rule 1000 200 50); lia. Defined.

(** Scenarios 3 and 4 of the specification. *)
Example decide_scenario_binomial :
  exists d, decide 1000 200 50 = Ok d /\ distribution_type d = BINOMIAL /\
            sample_ratio d = float_lit 5 2 /\ recommendation d <> None.
Proof. eexists. split; [vm_compute; reflexivity|]. repeat split; discriminate. Qed.

Example decide_scenario_hypergeometric :
  exists d, decide 1000 200 250 = Ok d /\ distribution_type d = HYPERGEOMETRIC /\
            sample_ratio d = float_lit 25 2 /\ recommendation d = None.
Proof. eexists. split; [vm_compute; reflexivity|]. repeat split. Qed.

End ModelSelectorFacts.

(* ================================================================= *)
(** ** Validation *)

Section ValidationFacts.

Lemma binomial_valid_n n p x N : Binomial._validate_inputs n p x N = Ok tt -> 0 < n.
Proof.
  unfold Binomial._validate_inputs. destruct (Z.leb_spec n 0); [discriminate|]. intros _. assumption.
Qed.

Lemma hypergeometric_valid N K n x :
  Hypergeometric._validate_inputs N K n x = Ok tt ->
  0 < N /\ 0 <= K <= N /\ 0 < n <= N /\
  match x with Some x => 0 <= x <= n /\ x <= K | None => True end.
Proof.
  unfold Hypergeometric._validate_inputs.
  destruct (Z.leb_spec N 0); [discriminate|]. destruct (Z.ltb_spec K 0); [discriminate|].
  destruct (Z.ltb_spec N K); [discriminate|]. destruct (Z.leb_spec n 0); [discriminate|].
  destruct (Z.ltb_spec N n); [discriminate|].
  destruct x as [x|]; [|intros _; repeat split; lia].
  destruct (Z.ltb_spec x 0); [discriminate|]. destruct (Z.ltb_spec n x); [discriminate|].
  destruct (Z.ltb_spec K x); [discriminate|]. intros _. repeat split; lia.
Qed.

Lemma hypergeometric_valid_intro N K n :
  0 < N -> 0 <= K <= N -> 0 < n <= N ->
  Hypergeometric._validate_inputs N K n None = Ok tt.
Proof. intros. unfold Hypergeometric._validate_inputs. decide_tests. reflexivity. Qed.

(** C7.  With the other fields valid, Binomial validation accepts x = 0
    and x = n and rejects x = -1 and x = n + 1 with the error that names
    the range 0..n.  Hypergeometric validation rejects x = K + 1 even when
    K + 1 <= n, with a message naming K; an x above n is rejected with the
    message naming n; the two messages are different. *)
Theorem validation_boundaries (n : Z) (p : float) (N : option Z) (Nh K nh : Z) :
  Binomial._validate_inputs n p None N = Ok tt ->
  Hypergeometric._validate_inputs Nh K nh None = Ok tt ->
  (Binomial._validate_inputs n p (Some 0) N = Ok tt /\
   Binomial._validate_inputs n p (Some n) N = Ok tt /\
   Binomial._validate_inputs n p (Some (-1)) N = Raise (ValueError (Binomial.msg_x_range n)) /\
   Binomial._validate_inputs n p (Some (n + 1)) N = Raise (ValueError (Binomial.msg_x_range n))) /\
  (K + 1 <= nh ->
   Hypergeometric._validate_inputs Nh K nh (Some (K + 1)) =
   Raise (ValueError (Hypergeometric.msg_x_above_K K))) /\
  (forall x, 0 <= x <= nh -> K < x ->
   Hypergeometric._validate_inputs Nh K nh (Some x) =
   Raise (ValueError (Hypergeometric.msg_x_above_K K))) /\
  (forall x, nh < x ->
   Hypergeometric._validate_inputs Nh K nh (Some x) =
   Raise (ValueError (Hypergeometric.msg_x_above_n nh))) /\
  Hypergeometric.msg_x_above_K K <> Hypergeometric.msg_x_above_n nh.
Proof.
  intros Hb Hh.
  pose proof (binomial_valid_n _ _ _ _ Hb) as Hn.
  destruct (hypergeometric_valid _ _ _ _ Hh) as (HN & HK & Hnh & _).
  split; [|split; [|split; [|split]]].
  - revert Hb. unfold Binomial._validate_inputs.
    destruct (Z.leb_spec n 0); [lia|].
    destruct (negb _); [discriminate|].
    intros Hb. repeat split; decide_tests; cbn [orb]; try exact Hb; reflexivity.
  - intros HKn. unfold Hypergeometric._validate_inputs. decide_tests. reflexivity.
  - intros x Hx HKx. unfold Hypergeometric._validate_inputs. decide_tests. reflexivity.
  - intros x Hx. unfold Hypergeometric._validate_inputs. decide_tests. reflexivity.
  - unfold Hypergeometric.msg_x_above_K, Hypergeometric.msg_x_above_n.
    intros Heq. apply append_inv_head in Heq. symmetry in Heq.
    exact (string_of_Z_head _ _ Heq).
Qed.

Lemma validation_boundaries_witness :
  (Binomial._validate_inputs 10 (float_lit 5 1) (Some 0) None = Ok tt /\
   Binomial._validate_inputs 10 (float_lit 5 1) (Some 10) None = Ok tt /\
   Binomial._validate_inputs 10 (float_lit 5 1) (Some (-1)) None =
     Raise (ValueError (Binomial.msg_x_range 10)) /\
   Binomial._validate_inputs 10 (float_lit 5 1) (Some (10 + 1)) None =
     Raise (ValueError (Binomial.msg_x_range 10))) /\
  (3 + 1 <= 10 ->
   Hypergeometric._validate_inputs 50 3 10 (Some (3 + 1)) =
   Raise (ValueError (Hypergeometric.msg_x_above_K 3))) /\
  (forall x, 0 <= x <= 10 -> 3 < x ->
   Hypergeometric._validate_inputs 50 3 10 (Some x) =
   Raise (ValueError (Hypergeometric.msg_x_above_K 3))) /\
  (forall x, 10 < x ->
   Hypergeometric._validate_inputs 50 3 10 (Some x) =
   Raise (ValueError (Hypergeometric.msg_x_above_n 10))) /\
  Hypergeometric.msg_x_above_K 3 <> Hypergeometric.msg_x_above_n 10.
Proof.
  apply (validation_boundaries 10 (float_lit 5 1) None 50 3 10); reflexivity.
Defined.

End ValidationFacts.

(* ================================================================= *)
(** ** Categorical column analysis *)

Section DataProcessorFacts.

Import DataProcessor.

Lemma dropna_cons_Some (v : string) (col : list (option string)) :
  dropna (Some v :: col) = v :: dropna col.
Proof. reflexivity. Qed.

Lemma dropna_cons_None (col : list (option string)) : dropna (None :: col) = dropna col.
Proof. reflexivity. Qed.

Lemma dropna_length (col : list (option string)) :
  Z.of_nat (length (dropna col)) = non_null_count col.
Proof.
  unfold non_null_count. f_equal.
  induction col as [|[v|] col IH]; [reflexivity| |].
  - rewrite dropna_cons_Some, filter_cons_True by discriminate.
    cbn [length]. f_equal. exact IH.
  - rewrite dropna_cons_None, filter_cons_False by (intros H; apply H; reflexivity).
    exact IH.
Qed.

Lemma dropna_nil (col : list (option string)) :
  dropna col = [] <-> Forall (fun c => c = None) col.
Proof.
  induction col as [|[v|] col IH].
  - split; [constructor|reflexivity].
  - rewrite dropna_cons_Some. split; [discriminate|]. inversion 1. discriminate.
  - rewrite dropna_cons_None, IH.
    split; [constructor; [reflexivity|assumption]|]. inversion 1. assumption.
Qed.

Lemma dropna_count (col : list (option string)) (s : string) :
  Z.of_nat (length (filter (fun w => w = s) (dropna col))) = success_count col s.
Proof.
  unfold success_count. f_equal.
  induction col as [|[v|] col IH]; [reflexivity| |].
  - rewrite dropna_cons_Some. destruct (decide (v = s)) as [->|Hne].
    + rewrite (filter_cons_True (fun w => w = s)) by reflexivity.
      rewrite (filter_cons_True (fun c => c = Some s)) by reflexivity.
      cbn [length]. f_equal. exact IH.
    + rewrite (filter_cons_False (fun w => w = s)) by congruence.
      rewrite (filter_cons_False (fun c => c = Some s)) by congruence.
      exact IH.
  - rewrite dropna_cons_None.
    rewrite (filter_cons_False (fun c => c = Some s)) by discriminate. exact IH.
Qed.

Lemma filter_eq_absent (s : string) (vs : list string) :
  s ∉ vs -> filter (fun w => w = s) vs = [].
Proof.
  induction vs as [|v vs IH]; [reflexivity|]. intros Hn.
  rewrite not_elem_of_cons in Hn. destruct Hn as [Hne Hn].
  rewrite filter_cons_False by congruence. apply IH. exact Hn.
Qed.

Lemma filter_eq_present (s : string) (vs : list string) :
  s ∈ vs -> (0 < length (filter (fun w => w = s) vs))%nat.
Proof.
  induction vs as [|v vs IH]; [inversion 1|]. intros Hin.
  destruct (decide (v = s)) as [->|Hne].
  - rewrite filter_cons_True by reflexivity. cbn. lia.
  - rewrite filter_cons_False by congruence. apply IH.
    apply elem_of_cons in Hin. destruct Hin; [congruence|assumption].
Qed.

Lemma fold_insert_lookup (f : string -> Z) (l : list (string * Z)) (d : gmap string Z) (s : string) :
  (forall kv, kv ∈ l -> kv.2 = f kv.1) ->
  fold_left (fun d kv => <[kv.1 := kv.2]> d) l d !! s =
  if decide (s ∈ l.*1) then Some (f s) else d !! s.
Proof.
  revert d. induction l as [|[k v] l IH]; intros d Hf; cbn [fold_left].
  - rewrite decide_False by (cbn; apply not_elem_of_nil). reflexivity.
  - rewrite IH by (intros kv Hkv; apply Hf; right; exact Hkv).
    cbn [fmap list_fmap fst].
    destruct (decide (s ∈ l.*1)) as [Hin|Hnin].
    + rewrite decide_True by (right; exact Hin). reflexivity.
    + destruct (decide (s = k)) as [->|Hne].
      * rewrite decide_True by left. cbn [fst snd]. rewrite lookup_insert_eq.
        f_equal. exact (Hf (k, v) ltac:(left)).
      * rewrite decide_False by (rewrite elem_of_cons; tauto).
        cbn [fst snd]. rewrite lookup_insert_ne by congruence. reflexivity.
Qed.

Lemma categories_get (vs : list string) (s : string) :
  default 0 (to_categories (value_counts vs) !! s) =
  Z.of_nat (length (filter (fun w => w = s) vs)).
Proof.
  unfold to_categories, value_counts.
  rewrite (fold_insert_lookup (fun v => Z.of_nat (length (filter (fun w => w = v) vs)))).
  - rewrite <- list_fmap_compose.
    assert (Hfst : (fst ∘ (fun v : string => (v, Z.of_nat (length (filter (fun w => w = v) vs)))))
                   <$> remove_dups vs = remove_dups vs).
    { rewrite <- (list_fmap_id (remove_dups vs)) at 2. apply list_fmap_ext. intros ? ? _. reflexivity. }
    rewrite Hfst.
    destruct (decide (s ∈ remove_dups vs)) as [Hin|Hnin]; [reflexivity|].
    rewrite lookup_empty. cbn [default].
    rewrite filter_eq_absent; [reflexivity|]. rewrite <- elem_of_remove_dups. exact Hnin.
  - intros [k v] Hkv. apply list_elem_of_fmap in Hkv. destruct Hkv as (w & Heq & _).
    inversion Heq; subst. reflexivity.
Qed.

(** C8.  [analyze_categorical_column] fails with the column-not-found
    message when the column is absent, with the empty-column message when
    every cell of the column is null, and with the category-not-found
    message when the success category occurs zero times; the three
    messages are different.  Otherwise it returns N = the number of
    non-null cells, K = the number of cells equal to the success category
    and p = K / N rounded to 6 decimals. *)
Theorem analyze_column_contract
    (df : gmap string (list (option string))) (column success : string) :
  (df !! column = None ->
   analyze_categorical_column df column success =
   Raise (DataProcessingError (msg_no_column column))) /\
  (forall col, df !! column = Some col ->
     (Forall (fun c => c = None) col ->
      analyze_categorical_column df column success =
      Raise (DataProcessingError msg_empty_column)) /\
     (~ Forall (fun c => c = None) col -> success_count col success = 0 ->
      analyze_categorical_column df column success =
      Raise (DataProcessingError (msg_no_category success))) /\
     (success_count col success <> 0 ->
      exists ratio,
        int_truediv (success_count col success) (non_null_count col) = Ok ratio /\
        analyze_categorical_column df column success =
        Ok {| N := non_null_count col;
              K := success_count col success;
              p := py_round ratio 6;
              categories := to_categories (value_counts (dropna col));
              success_category := success;
              column_name := column |})) /\
  msg_no_column column <> msg_empty_column /\
  msg_no_column column <> msg_no_category success /\
  msg_empty_column <> msg_no_category success.
Proof.
  split; [|split].
  - intros Hnone. unfold analyze_categorical_column. rewrite Hnone. reflexivity.
  - intros col Hcol. unfold analyze_categorical_column. rewrite Hcol.
    rewrite categories_get, dropna_count, dropna_length.
    assert (Hle : 0 <= success_count col success <= non_null_count col).
    { rewrite <- dropna_count, <- dropna_length. split; [lia|].
      apply inj_le. apply length_filter. }
    assert (Hnull : non_null_count col = 0 <-> Forall (fun c => c = None) col).
    { rewrite <- dropna_nil, <- dropna_length. destruct (dropna col); cbn; split; (lia || discriminate || reflexivity). }
    split; [|split].
    + intros Hall. apply Hnull in Hall. rewrite Hall. reflexivity.
    + intros Hsome HK.
      destruct (Z.eqb_spec (non_null_count col) 0) as [H0|_]; [apply Hnull in H0; contradiction|].
      rewrite HK. reflexivity.
    + intros HK.
      destruct (Z.eqb_spec (non_null_count col) 0) as [H0|HN]; [lia|].
      destruct (Z.eqb_spec (success_count col success) 0) as [|_]; [contradiction|].
      destruct (int_truediv_ok (success_count col success) (non_null_count col))
        as (ratio & Hr & _); [lia|lia|].
      exists ratio. split; [exact Hr|]. rewrite Hr. reflexivity.
  - unfold msg_no_column, msg_empty_column, msg_no_category.
    repeat split; cbn; discriminate.
Qed.

(** Scenario 5 of the specification: a category with no occurrence. *)
Example analyze_missing_category :
  analyze_categorical_column {[ "estado" := [Some "ok"; None; Some "falla"; Some "ok"] ]}
                             "estado" "otro" =
  Raise (DataProcessingError (msg_no_category "otro")).
Proof. vm_compute. reflexivity. Qed.

Example analyze_counts :
  exists a,
    analyze_categorical_column {[ "estado" := [Some "ok"; None; Some "falla"; Some "ok"] ]}
                               "estado" "ok" = Ok a /\
    N a = 3 /\ K a = 2 /\ p a = float_lit 666667 6.
Proof. eexists. split; [vm_compute; reflexivity|]. repeat split. Qed.

End DataProcessorFacts.

(* ================================================================= *)
(** ** The hypergeometric engine *)

Section HypergeometricFacts.

Import Hypergeometric.

Lemma float_safe_pow (N z : Z) : float_safe N -> Z.abs z <= N -> Z.abs z < 2 ^ 255.
Proof. unfold float_safe. lia. Qed.

Lemma math_sqrt_nonneg (f : float) : nonneg_float f -> exists r, math_sqrt f = Ok r.
Proof.
  destruct f as [s|[|]| |[|] m e]; cbn [nonneg_float]; intros H; try contradiction;
    eexists; reflexivity.
Qed.

Lemma calculate_mean_ok (N K n : Z) :
  0 < N -> 0 <= K <= N -> 0 < n <= N -> float_safe N ->
  exists mean, calculate_mean N K n = Ok mean /\ fin_bounds mean 259 206.
Proof.
  intros HN HK Hn Hs. unfold calculate_mean.
  destruct (int_truediv_ok K N) as (ratio & Hr & Hrb & _); [lia|lia|].
  destruct (float_of_int_ok n 255) as (fn & Hfn & Hfb & _);
    [lia|apply (float_safe_pow N); [assumption|lia]|].
  rewrite Hr, Hfn. cbn [bind]. eexists. split; [reflexivity|].
  exact (fmul_fin fn ratio 256 203 2 0 Hfb Hrb ltac:(vm_compute; discriminate)).
Qed.

Lemma py_range_succ (k : Z) : 0 <= k -> py_range (k + 1) = py_range k ++ [k].
Proof.
  intros Hk. unfold py_range.
  replace (Z.to_nat (k + 1)) with (S (Z.to_nat k)) by lia.
  rewrite seq_S, map_app. cbn [map Nat.add]. rewrite Z2Nat.id by lia. reflexivity.
Qed.

Lemma py_range_In (x k : Z) : In x (py_range k) -> 0 <= x < k.
Proof.
  unfold py_range. rewrite in_map_iff. intros (i & <- & Hi). apply in_seq in Hi. lia.
Qed.

Lemma py_range_split (a b : Z) :
  0 <= a < b -> exists rest, py_range b = py_range a ++ a :: rest.
Proof.
  intros Hab. unfold py_range.
  replace (Z.to_nat b) with (Z.to_nat a + S (Z.to_nat (b - a - 1)))%nat by lia.
  rewrite seq_app, map_app. cbn [seq map Nat.add]. rewrite Z2Nat.id by lia.
  eexists. reflexivity.
Qed.

Section Median.

Variable pmf : Z -> Z -> Z -> Z -> float.
Variables N K n : Z.

Lemma median_scan_app (xs ys : list Z) (acc : float) :
  median_scan pmf N K n (xs ++ ys) acc =
  match median_scan pmf N K n xs acc with
  | Some x => Some x
  | None =>
    median_scan pmf N K n ys
      (fold_left (fun a y => fadd a (calculate_probability pmf N K n y)) xs acc)
  end.
Proof.
  revert acc. induction xs as [|x xs IH]; intros acc; [reflexivity|].
  cbn [app median_scan fold_left].
  destruct (fleb _ _); [reflexivity|]. apply IH.
Qed.

Lemma median_scan_In (xs : list Z) (acc : float) (x : Z) :
  median_scan pmf N K n xs acc = Some x -> In x xs.
Proof.
  revert acc. induction xs as [|y xs IH]; intros acc; cbn [median_scan]; [discriminate|].
  destruct (fleb _ _).
  - intros [= ->]. left. reflexivity.
  - intros H. right. exact (IH _ H).
Qed.

Lemma running_sum_succ (k : Z) :
  0 <= k ->
  running_sum (calculate_probability pmf N K n) (k + 1) =
  fadd (running_sum (calculate_probability pmf N K n) k) (calculate_probability pmf N K n k).
Proof.
  intros Hk. unfold running_sum. rewrite py_range_succ by assumption.
  rewrite fold_left_app. reflexivity.
Qed.

Lemma median_scan_below (k : nat) :
  (forall y, 0 <= y < Z.of_nat k -> reaches_half (calculate_probability pmf N K n) y = false) ->
  median_scan pmf N K n (py_range (Z.of_nat k)) fzero = None.
Proof.
  induction k as [|k IH]; intros Hbelow; [reflexivity|].
  replace (Z.of_nat (S k)) with (Z.of_nat k + 1) by lia.
  rewrite py_range_succ, median_scan_app by lia.
  rewrite IH by (intros y Hy; apply Hbelow; lia).
  cbn [median_scan]. fold (running_sum (calculate_probability pmf N K n) (Z.of_nat k)).
  rewrite <- running_sum_succ by lia.
  fold (reaches_half (calculate_probability pmf N K n) (Z.of_nat k)).
  rewrite Hbelow by lia. reflexivity.
Qed.

Lemma median_scan_first (x m : Z) :
  0 <= x <= m ->
  reaches_half (calculate_probability pmf N K n) x = true ->
  (forall y, 0 <= y < x -> reaches_half (calculate_probability pmf N K n) y = false) ->
  median_scan pmf N K n (py_range (m + 1)) fzero = Some x.
Proof.
  intros Hx Hreach Hbelow.
  destruct (py_range_split x (m + 1)) as (rest & ->); [lia|].
  rewrite median_scan_app.
  pose proof (median_scan_below (Z.to_nat x)) as Hnone.
  rewrite Z2Nat.id in Hnone by lia. rewrite Hnone by assumption.
  cbn [median_scan]. fold (running_sum (calculate_probability pmf N K n) x).
  rewrite <- running_sum_succ by lia.
  fold (reaches_half (calculate_probability pmf N K n) x). rewrite Hreach. reflexivity.
Qed.

Hypothesis HN : 0 < N.
Hypothesis HK : 0 <= K <= N.
Hypothesis Hn : 0 < n <= N.
Hypothesis Hsafe : float_safe N.

Lemma calculate_median_ok :
  exists mean floor_mean,
    calculate_mean N K n = Ok mean /\ float_to_int mean = Ok floor_mean /\
    Z.abs floor_mean < 2 ^ 259 /\
    calculate_median pmf N K n =
    Ok (match median_scan pmf N K n (py_range (Z.min n K + 1)) fzero with
        | Some x => x
        | None => floor_mean
        end).
Proof.
  destruct (calculate_mean_ok N K n HN HK Hn Hsafe) as (mean & Hm & Hfin).
  destruct (float_to_int_ok mean 259 206 Hfin ltac:(lia)) as (fl & Hfl & Hbound).
  exists mean, fl. repeat split; try assumption.
  unfold calculate_median. rewrite Hm. cbn [bind]. rewrite Hfl. cbn [bind].
  destruct (median_scan _ _ _ _ _ _); reflexivity.
Qed.

Lemma calculate_median_bound :
  exists median, calculate_median pmf N K n = Ok median /\ Z.abs median < 2 ^ 259.
Proof.
  destruct calculate_median_ok as (mean & fl & _ & _ & Hb & Hmed).
  eexists. split; [exact Hmed|].
  destruct (median_scan _ _ _ _ _ _) as [x|] eqn:Hscan; [|exact Hb].
  apply median_scan_In, py_range_In in Hscan.
  assert (x < 2 ^ 255) by (unfold float_safe in Hsafe; lia).
  assert (2 ^ 255 < 2 ^ 259) by (apply Z.pow_lt_mono_r; lia). lia.
Qed.

End Median.

(** C5.  For every valid (N, K, n) whose integers convert to floats, the
    median is the smallest x in 0..min(n, K) at which the cumulative sum of
    the pmf values, added in ascending order of x, is at least 0.5. *)
Theorem median_is_first_to_reach_half
    (pmf : Z -> Z -> Z -> Z -> float) (N K n x : Z) :
  0 < N -> 0 <= K <= N -> 0 < n <= N -> float_safe N ->
  0 <= x <= Z.min n K ->
  reaches_half (calculate_probability pmf N K n) x = true ->
  (forall y, 0 <= y < x -> reaches_half (calculate_probability pmf N K n) y = false) ->
  calculate_median pmf N K n = Ok x.
Proof.
  intros HN HK Hn Hs Hx Hreach Hbelow.
  destruct (calculate_median_ok pmf N K n HN HK Hn Hs) as (mean & fl & _ & _ & _ & ->).
  rewrite (median_scan_first pmf N K n x (Z.min n K) Hx Hreach Hbelow). reflexivity.
Qed.

Lemma median_is_first_to_reach_half_witness :
  calculate_median SpecPmf.hypergeom_pmf 50 20 10 = Ok 4.
Proof.
  apply (median_is_first_to_reach_half SpecPmf.hypergeom_pmf 50 20 10 4);
    try lia; try reflexivity.
  intros y Hy.
  assert (Hcases : y = 0 \/ y = 1 \/ y = 2 \/ y = 3) by lia.
  destruct Hcases as [->|[->|[->| ->]]]; vm_compute; reflexivity.
Defined.

(** X1.  When no cumulative sum reaches 0.5 the walk runs to its end and
    the integer part of the mean is returned. *)
Lemma median_fallback (pmf : Z -> Z -> Z -> Z -> float) (N K n : Z) :
  0 < N -> 0 <= K <= N -> 0 < n <= N -> float_safe N ->
  (forall y, 0 <= y <= Z.min n K -> reaches_half (calculate_probability pmf N K n) y = false) ->
  exists mean floor_mean,
    calculate_mean N K n = Ok mean /\ float_to_int mean = Ok floor_mean /\
    calculate_median pmf N K n = Ok floor_mean.
Proof.
  intros HN HK Hn Hs Hnone.
  destruct (calculate_median_ok pmf N K n HN HK Hn Hs) as (mean & fl & Hm & Hfl & _ & Hmed).
  exists mean, fl. split; [exact Hm|]. split; [exact Hfl|]. rewrite Hmed.
  pose proof (median_scan_below pmf N K n (Z.to_nat (Z.min n K + 1))) as Hscan.
  rewrite Z2Nat.id in Hscan by lia. rewrite Hscan; [reflexivity|].
  intros y Hy. apply Hnone. lia.
Qed.

(** C9.  For every valid (N, K, n) whose integers convert to floats, the
    skewness interpretation is decided by comparing the mean with the
    enumerated median, whatever the skewness statistic is: the left-tail
    text when mean < median - 0.1, the right-tail text when
    mean > median + 0.1, the symmetric text otherwise.  The three texts
    differ, and the text is the one [calculate] reports. *)
Theorem skewness_interpretation_by_median
    (pmf : Z -> Z -> Z -> Z -> float) (N K n : Z) :
  0 < N -> 0 <= K <= N -> 0 < n <= N -> float_safe N ->
  exists mean median fmedian text,
    calculate_mean N K n = Ok mean /\
    calculate_median pmf N K n = Ok median /\
    float_of_int median = Ok fmedian /\
    interpret_skewness_by_median pmf N K n = Ok (text, py_round mean 6, median) /\
    (fltb mean (fsub fmedian (float_lit 1 1)) = true -> text = text_negative_skew) /\
    (fltb mean (fsub fmedian (float_lit 1 1)) = false ->
     fltb (fadd fmedian (float_lit 1 1)) mean = true -> text = text_positive_skew) /\
    (fltb mean (fsub fmedian (float_lit 1 1)) = false ->
     fltb (fadd fmedian (float_lit 1 1)) mean = false -> text = text_symmetric) /\
    (forall x r, calculate pmf N K n x = Ok r -> skewness_text (interpretations r) = text) /\
    text_negative_skew <> text_positive_skew /\
    text_negative_skew <> text_symmetric /\
    text_positive_skew <> text_symmetric.
Proof.
  intros HN HK Hn Hs.
  destruct (calculate_mean_ok N K n HN HK Hn Hs) as (mean & Hm & _).
  destruct (calculate_median_bound pmf N K n HN HK Hn Hs) as (median & Hmed & Hb).
  destruct (float_of_int_ok median 259 ltac:(lia) Hb) as (fmedian & Hfm & _).
  assert (Hint : interpret_skewness_by_median pmf N K n =
                 Ok (if fltb mean (fsub fmedian (float_lit 1 1)) then text_negative_skew
                     else if fltb (fadd fmedian (float_lit 1 1)) mean then text_positive_skew
                     else text_symmetric, py_round mean 6, median)).
  { unfold interpret_skewness_by_median. rewrite Hm. cbn [bind]. rewrite Hmed. cbn [bind].
    rewrite Hfm. reflexivity. }
  exists mean, median, fmedian. eexists.
  split; [exact Hm|]. split; [exact Hmed|]. split; [exact Hfm|]. split; [exact Hint|].
  split; [intros ->; reflexivity|].
  split; [intros -> ->; reflexivity|].
  split; [intros -> ->; reflexivity|].
  split; [|repeat split; discriminate].
  intros x r Hr. unfold calculate in Hr. rewrite Hm, Hint in Hr. bind_inv Hr.
  injection Hr as <-. reflexivity.
Qed.

Lemma skewness_interpretation_by_median_witness :
  exists mean median fmedian text,
    calculate_mean 50 20 10 = Ok mean /\
    calculate_median SpecPmf.hypergeom_pmf 50 20 10 = Ok median /\
    float_of_int median = Ok fmedian /\
    interpret_skewness_by_median SpecPmf.hypergeom_pmf 50 20 10 =
      Ok (text, py_round mean 6, median) /\
    (fltb mean (fsub fmedian (float_lit 1 1)) = true -> text = text_negative_skew) /\
    (fltb mean (fsub fmedian (float_lit 1 1)) = false ->
     fltb (fadd fmedian (float_lit 1 1)) mean = true -> text = text_positive_skew) /\
    (fltb mean (fsub fmedian (float_lit 1 1)) = false ->
     fltb (fadd fmedian (float_lit 1 1)) mean = false -> text = text_symmetric) /\
    (forall x r, calculate SpecPmf.hypergeom_pmf 50 20 10 x = Ok r ->
                 skewness_text (interpretations r) = text) /\
    text_negative_skew <> text_positive_skew /\
    text_negative_skew <> text_symmetric /\
    text_positive_skew <> text_symmetric.
Proof.
  apply (skewness_interpretation_by_median SpecPmf.hypergeom_pmf 50 20 10);
    try lia; reflexivity.
Defined.

(** Scenario 2 of the specification.  The skewness statistic is positive
    there, yet mean = median = 4 and the interpretation is the symmetric one. *)
Example hypergeometric_scenario :
  exists r,
    calculate SpecPmf.hypergeom_pmf 50 20 10 (Some 4) = Ok r /\
    mean (statistics r) = float_lit 4 0 /\
    median (statistics r) = 4 /\
    fltb fzero (skewness (statistics r)) = true /\
    skewness_text (interpretations r) = text_symmetric /\
    probability_x r = Some (float_lit 280059 6).
Proof. eexists. split; [vm_compute; reflexivity|]. repeat split. Qed.

Lemma float_of_int_safe (N z : Z) :
  float_safe N -> Z.abs z <= N ->
  exists f, float_of_int z = Ok f /\ fin_bounds f 256 203 /\ (0 <= z -> nonneg_float f).
Proof.
  intros Hs Hz. apply (float_of_int_ok z 255); [lia|]. exact (float_safe_pow N z Hs Hz).
Qed.

Lemma product_of_four_bound (N a b c d : Z) :
  float_safe N -> 0 <= a <= N -> 0 <= b <= N -> 0 <= c <= N -> 0 <= d <= N ->
  0 <= a * b * c * d /\ Z.abs (a * b * c * d) < 2 ^ 1021.
Proof.
  unfold float_safe. intros Hs Ha Hb Hc Hd.
  set (X := 2 ^ 255) in *.
  assert (HX : 0 < X) by (unfold X; apply Z.pow_pos_nonneg; lia).
  assert (H2 : 0 <= a * b <= X * X) by nia.
  assert (H3 : 0 <= a * b * c <= X * X * X) by nia.
  assert (H4 : 0 <= a * b * c * d <= X * X * X * X) by nia.
  assert (HX4 : X * X * X * X = 2 ^ 1020).
  { unfold X. rewrite <- !Z.pow_add_r by lia. reflexivity. }
  assert (2 ^ 1020 < 2 ^ 1021) by (apply Z.pow_lt_mono_r; lia).
  split; lia.
Qed.

Lemma fmul_zero_l (s : bool) (c : float) (B E : Z) :
  fin_bounds c B E -> feqb (fmul (S754_zero s) c) fzero = true.
Proof. destruct c as [sc|sc| |sc m e]; cbn [fin_bounds]; try contradiction; intros _; reflexivity. Qed.

Lemma int_truediv_raises (a b : Z) (e : exn) :
  b <> 0 -> int_truediv a b = Raise e -> e = OverflowError.
Proof.
  intros Hb. unfold int_truediv. destruct (Z.eqb_spec b 0); [contradiction|].
  unfold finite_or_overflow. destruct (div_nearest a b); congruence.
Qed.

Lemma float_of_int_raises (z : Z) (e : exn) : float_of_int z = Raise e -> e = OverflowError.
Proof.
  unfold float_of_int, finite_or_overflow. destruct (binary_normalize _ _ _ _ _); congruence.
Qed.

Lemma math_sqrt_raises (f : float) (e : exn) :
  math_sqrt f = Raise e -> e = ValueError "math domain error".
Proof. unfold math_sqrt. destruct f as [s|[|]| |[|] m ex]; congruence. Qed.

(** C10.  For every valid (N, K, n) the hypergeometric skewness never raises
    a division error.  When the integers convert to floats it returns a
    value, and the value is 0 not only for N = 1 but whenever the
    denominator sqrt(n·K·(N−K)·(N−n))·(N−2) is 0: for K = 0, K = N, n = N
    and N = 2. *)
Theorem skewness_never_divides_by_zero (N K n : Z) :
  0 < N -> 0 <= K <= N -> 0 < n <= N ->
  calculate_skewness N K n <> Raise ZeroDivisionError /\
  (float_safe N ->
   (exists v, calculate_skewness N K n = Ok v) /\
   (N = 1 \/ K = 0 \/ K = N \/ n = N \/ N = 2 -> calculate_skewness N K n = Ok fzero)).
Proof.
  intros HN HK Hn. split.
  - unfold calculate_skewness. destruct (Z.eqb_spec N 1) as [|HN1]; [discriminate|].
    repeat match goal with
           | |- bind ?e _ <> _ =>
             let E := fresh "E" in
             destruct e eqn:E; cbn [bind];
             [|first [apply int_truediv_raises in E; [|lia]
                     |apply float_of_int_raises in E
                     |apply math_sqrt_raises in E]; subst; discriminate]
           end.
    destruct (feqb _ fzero) eqn:Hz; [discriminate|].
    unfold float_truediv. rewrite Hz. discriminate.
  - intros Hs.
    assert (Hcore : N <> 1 ->
      exists prod root2 c num,
        float_of_int (n * K * (N - K) * (N - n)) = Ok prod /\
        math_sqrt prod = Ok root2 /\
        fin_bounds c 256 203 /\
        calculate_skewness N K n =
        if feqb (fmul root2 c) fzero then Ok fzero
        else float_truediv num (fmul root2 c)).
    { intros HN1. unfold calculate_skewness.
      destruct (Z.eqb_spec N 1) as [|_]; [contradiction|].
      destruct (int_truediv_ok K N) as (p & -> & _); [lia|lia|]. cbn [bind].
      destruct (float_of_int_safe N (N - 1) Hs) as (fN1 & -> & _ & Hnn); [lia|]. cbn [bind].
      destruct (math_sqrt_nonneg fN1 (Hnn ltac:(lia))) as (root1 & ->). cbn [bind].
      destruct (float_of_int_safe N (N - 2 * K) Hs) as (a & -> & _); [lia|]. cbn [bind].
      destruct (float_of_int_safe N (N - 2 * n) Hs) as (b & -> & _); [lia|]. cbn [bind].
      destruct (product_of_four_bound N n K (N - K) (N - n) Hs) as [Hp0 Hpb]; try lia.
      destruct (float_of_int_ok _ 1021 ltac:(lia) Hpb) as (prod & Hprod & _ & Hpn).
      destruct (math_sqrt_nonneg prod (Hpn Hp0)) as (root2 & Hroot).
      destruct (float_of_int_safe N (N - 2) Hs) as (c & Hc & Hcb & _); [lia|].
      exists prod, root2, c. eexists.
      split; [exact Hprod|]. split; [exact Hroot|]. split; [exact Hcb|].
      rewrite Hprod. cbn [bind]. rewrite Hroot. cbn [bind]. rewrite Hc. cbn [bind].
      reflexivity. }
    split.
    + destruct (Z.eq_dec N 1) as [->|HN1]; [eexists; reflexivity|].
      destruct (Hcore HN1) as (prod & root2 & c & num & _ & _ & _ & ->).
      destruct (feqb _ fzero) eqn:Hz; [eexists; reflexivity|].
      unfold float_truediv. rewrite Hz. eexists; reflexivity.
    + intros Hcases.
      destruct (Z.eq_dec N 1) as [->|HN1]; [reflexivity|].
      destruct (Z.eq_dec N 2) as [->|HN2].
      { assert (HKc : K = 0 \/ K = 1 \/ K = 2) by lia.
        assert (Hnc : n = 1 \/ n = 2) by lia.
        destruct HKc as [->|[->| ->]]; destruct Hnc as [->| ->]; vm_compute; reflexivity. }
      destruct (Hcore HN1) as (prod & root2 & c & num & Hprod & Hroot & Hcb & ->).
      assert (Hzero : n * K * (N - K) * (N - n) = 0).
      { destruct Hcases as [?|[->|[->|[->|?]]]]; try contradiction; lia. }
      rewrite Hzero in Hprod. injection Hprod as <-. injection Hroot as <-.
      rewrite (fmul_zero_l false c 256 203 Hcb). reflexivity.
Qed.

Lemma skewness_never_divides_by_zero_witness :
  calculate_skewness 10 0 3 <> Raise ZeroDivisionError /\
  (float_safe 10 ->
   (exists v, calculate_skewness 10 0 3 = Ok v) /\
   (10 = 1 \/ 0 = 0 \/ 0 = 10 \/ 3 = 10 \/ 10 = 2 -> calculate_skewness 10 0 3 = Ok fzero)).
Proof. apply (skewness_never_divides_by_zero 10 0 3); lia. Defined.

(** C2 on the code: with N > 3 and the whole population sampled (n = N),
    the first term of the kurtosis divides by n·(N−n) = 0 before the guard
    on the denominator is reached. *)
Theorem kurtosis_raises_for_full_sample (N K : Z) :
  3 < N -> 0 <= K <= N -> calculate_kurtosis N K N = Raise ZeroDivisionError.
Proof.
  intros HN HK. unfold calculate_kurtosis.
  destruct (Z.leb_spec N 3); [lia|].
  destruct (int_truediv_ok K N) as (p & -> & _); [lia|lia|]. cbn [bind].
  replace (N * (N - N)) with 0 by lia.
  unfold int_truediv at 1. cbn [Z.eqb bind]. reflexivity.
Qed.

Lemma kurtosis_raises_for_full_sample_witness :
  calculate_kurtosis 4 2 4 = Raise ZeroDivisionError.
Proof. apply (kurtosis_raises_for_full_sample 4 2); lia. Defined.

(** The guards that the kurtosis does have: N <= 3 returns 0. *)
Lemma kurtosis_small_population (N K n : Z) : N <= 3 -> calculate_kurtosis N K n = Ok fzero.
Proof. intros HN. unfold calculate_kurtosis. destruct (Z.leb_spec N 3); [reflexivity|lia]. Qed.

(** C3 on the code: every input with N = 1 that passes validation makes
    [calculate] raise ZeroDivisionError, in the finite-population factor
    (N−n)/(N−1) of the variance. *)
Theorem calculate_raises_for_unit_population
    (pmf : Z -> Z -> Z -> Z -> float) (K n : Z) (x : option Z) :
  _validate_inputs 1 K n x = Ok tt ->
  calculate_variance 1 K n = Raise ZeroDivisionError /\
  calculate pmf 1 K n x = Raise ZeroDivisionError.
Proof.
  intros Hv. destruct (hypergeometric_valid _ _ _ _ Hv) as (_ & HK & Hn & _).
  assert (n = 1) as -> by lia.
  unfold calculate. rewrite Hv. cbn [bind].
  assert (HKc : K = 0 \/ K = 1) by lia.
  destruct HKc as [->| ->]; split; vm_compute; reflexivity.
Qed.

Lemma calculate_raises_for_unit_population_witness :
  calculate_variance 1 1 1 = Raise ZeroDivisionError /\
  calculate SpecPmf.hypergeom_pmf 1 1 1 None = Raise ZeroDivisionError.
Proof.
  apply (calculate_raises_for_unit_population SpecPmf.hypergeom_pmf 1 1 None). reflexivity.
Defined.

End HypergeometricFacts.

(* ================================================================= *)
(** ** The binomial engine *)

Section BinomialFacts.

Import Binomial.

Lemma binary_round_aux_sign (s : bool) (mx ex : Z) (lx : location) :
  match binary_round_aux prec emax s mx ex lx with
  | S754_zero s' | S754_infinity s' | S754_finite s' _ _ => s' = s
  | S754_nan => True
  end.
Proof.
  unfold binary_round_aux.
  destruct (shr_fexp prec emax mx ex lx) as [r1 e1].
  destruct (shr_fexp prec emax _ e1 loc_Exact) as [r3 e3].
  destruct (shr_m r3); [reflexivity| |exact I].
  destruct (e3 <=? emax - prec); reflexivity.
Qed.

Lemma binary_normalize_nonneg (z e : Z) :
  0 <= z -> nonneg_float (binary_normalize prec emax z e false).
Proof.
  intros Hz. destruct z as [|m|m]; [exact I| |lia].
  cbn [binary_normalize]. unfold binary_round.
  destruct (shl_align m e _) as [mz ez].
  pose proof (binary_round_aux_sign false (Z.pos mz) ez loc_Exact) as Hs.
  destruct (binary_round_aux _ _ _ _ _ _) as [s|s| |s m' e']; try subst s; exact I.
Qed.

Lemma fmul_nonneg (a b : float) :
  nonneg_float a -> nonneg_float b -> nonneg_float (fmul a b).
Proof.
  destruct a as [sa|[|]| |[|] ma ea]; destruct b as [sb|[|]| |[|] mb eb];
    cbn [nonneg_float]; intros Ha Hb; try contradiction; try exact I.
  unfold fmul. cbn [SFmul xorb].
  pose proof (binary_round_aux_sign false (Z.pos (ma * mb)) (ea + eb) loc_Exact) as Hs.
  destruct (binary_round_aux _ _ _ _ _ _) as [s|s| |s m' e']; try subst s; exact I.
Qed.

Lemma iter_xO_value (m d : positive) : Z.pos (Pos.iter xO m d) = Z.pos m * 2 ^ Z.pos d.
Proof.
  induction d as [|d IH] using Pos.peano_ind.
  - cbn [Pos.iter]. lia.
  - rewrite Pos.iter_succ, Pos2Z.inj_succ, Z.pow_succ_r by lia.
    rewrite Pos2Z.inj_xO, IH. lia.
Qed.

Lemma shl_align_value (mx : positive) (ex ez : Z) :
  ez <= ex -> Z.pos (fst (shl_align mx ex ez)) = Z.pos mx * 2 ^ (ex - ez).
Proof.
  intros Hle. unfold shl_align. destruct (ez - ex) as [|d|d] eqn:Hd; cbn [fst]; try lia.
  - replace (ex - ez) with 0 by lia. lia.
  - rewrite iter_xO_value. f_equal. f_equal. lia.
Qed.

Lemma fone_value : fone = S754_finite false 4503599627370496 (-52).
Proof. vm_compute. reflexivity. Qed.

(** [1 - p] is not negative for a probability that passed validation. *)
Lemma one_minus_p_nonneg (p : float) :
  valid_binary prec emax p = true ->
  fleb fzero p && fleb p fone = true ->
  nonneg_float (fsub fone p).
Proof.
  intros Hvalid Hrange. apply andb_true_iff in Hrange. destruct Hrange as [H0 H1].
  rewrite fone_value in *.
  destruct p as [s|s| |s m e].
  { exact I. }
  { destruct s; [vm_compute in H0|vm_compute in H1]; discriminate. }
  { vm_compute in H0. discriminate. }
  destruct s; [vm_compute in H0; discriminate|].
  unfold fsub. cbn [SFsub cond_Zopp].
  apply binary_normalize_nonneg.
  cbn [valid_binary] in Hvalid. unfold bounded, canonical_mantissa in Hvalid.
  apply andb_true_iff in Hvalid. destruct Hvalid as [Hcan _].
  apply Z.eqb_eq in Hcan. unfold fexp, emin, prec, emax in Hcan.
  pose proof (Zdigits2_gt (Z.pos m) ltac:(lia)) as Hm. cbn [Zdigits2] in Hm.
  assert (Hd : Z.pos (digits2_pos m) <= 53) by lia.
  assert (Hm53 : Z.pos m < 2 ^ 53).
  { eapply Z.lt_le_trans; [exact Hm|]. apply Z.pow_le_mono_r; lia. }
  assert (Hpos : forall k, 0 <= k -> 0 < 2 ^ k) by (intros; apply Z.pow_pos_nonneg; lia).
  unfold fleb, SFleb, SFcompare in H1.
  destruct (Z.compare_spec e (-52)) as [He|He|He]; try discriminate.
  - subst e. rewrite Z.min_id.
    rewrite !shl_align_value by lia. rewrite Z.sub_diag. change (2 ^ 0) with 1.
    destruct (PosDef.Pos.compare_cont Eq m 4503599627370496) eqn:Hc; try discriminate.
    + apply (Pos.compare_eq m 4503599627370496) in Hc. lia.
    + assert (Hlt : Z.pos m < 4503599627370496) by (apply Pos2Z.pos_lt_pos; exact Hc).
      clear - Hlt. lia.
  - rewrite Z.min_r by lia.
    rewrite !shl_align_value by lia. rewrite Z.sub_diag. change (2 ^ 0) with 1.
    assert (Hp : 2 ^ 1 <= 2 ^ (-52 - e)) by (apply Z.pow_le_mono_r; lia).
    change (2 ^ 1) with 2 in Hp. change (2 ^ 53) with 9007199254740992 in Hm53.
    set (P := 2 ^ (-52 - e)) in *. clear - Hp Hm53. lia.
Qed.

Lemma binomial_valid_p (n : Z) (p : float) (x N : option Z) :
  _validate_inputs n p x N = Ok tt -> fleb fzero p && fleb p fone = true.
Proof.
  unfold _validate_inputs. destruct (n <=? 0); [discriminate|].
  destruct (fleb fzero p && fleb p fone); [reflexivity|discriminate].
Qed.

Lemma calculate_std_fst (n : Z) (p : float) (N : option Z) (fn sd s : float) (a : option float) :
  float_of_int n = Ok fn ->
  math_sqrt (fmul (fmul fn p) (fsub fone p)) = Ok sd ->
  calculate_std n p N = Ok (s, a) -> s = sd.
Proof.
  intros Hfn Hsd. unfold calculate_std, calculate_variance.
  rewrite Hfn. cbn [bind]. rewrite Hsd. cbn [bind].
  destruct N as [N|]; [|congruence].
  destruct (int_truediv n N); cbn [bind]; [|discriminate].
  destruct (fltb _ _); [|congruence].
  destruct (_calculate_correction_factor n N); cbn [bind]; [congruence|discriminate].
Qed.

(** C6.  For every valid (n, p) the binomial statistics are the closed
    forms: mean = n·p, variance = n·p·(1−p), std = sqrt(variance), which
    is always defined, and, when p is neither 0 nor 1, skewness =
    (1−2p)/std and excess kurtosis = (1−6p(1−p))/variance; for p = 0 or
    p = 1 skewness and kurtosis are 0.  [calculate] reports these values
    rounded to 6 decimals.  On n = 10, p = 0.5, x = 5 it reports mean 5.0,
    std 1.581139 and probability_x 0.246094. *)
Theorem binomial_closed_forms (n : Z) (p : float) :
  _validate_inputs n p None None = Ok tt ->
  valid_binary prec emax p = true ->
  Z.abs n < 2 ^ 1023 ->
  exists fn sd,
    float_of_int n = Ok fn /\
    calculate_mean n p = Ok (fmul fn p) /\
    calculate_variance n p = Ok (fmul (fmul fn p) (fsub fone p)) /\
    math_sqrt (fmul (fmul fn p) (fsub fone p)) = Ok sd /\
    calculate_std n p None = Ok (sd, None) /\
    (feqb p fzero || feqb p fone = true ->
     calculate_skewness n p = Ok fzero /\ calculate_kurtosis n p = Ok fzero) /\
    (feqb p fzero || feqb p fone = false ->
     calculate_skewness n p = float_truediv (fsub fone (fmul ftwo p)) sd /\
     calculate_kurtosis n p =
       float_truediv (fsub fone (fmul (fmul fsix p) (fsub fone p)))
                     (fmul (fmul fn p) (fsub fone p))) /\
    (forall pmf x N r, calculate pmf n p x N = Ok r ->
       exists skew kurt,
         calculate_skewness n p = Ok skew /\ calculate_kurtosis n p = Ok kurt /\
         mean (statistics r) = py_round (fmul fn p) 6 /\
         variance (statistics r) = py_round (fmul (fmul fn p) (fsub fone p)) 6 /\
         std (statistics r) = py_round sd 6 /\
         skewness (statistics r) = py_round skew 6 /\
         kurtosis (statistics r) = py_round kurt 6) /\
    (exists r,
       calculate SpecPmf.binom_pmf 10 (float_lit 5 1) (Some 5) None = Ok r /\
       mean (statistics r) = float_lit 5 0 /\
       std (statistics r) = float_lit 1581139 6 /\
       probability_x r = Some (float_lit 246094 6)).
Proof.
  intros Hv Hcan Hn.
  pose proof (binomial_valid_n _ _ _ _ Hv) as Hn0.
  pose proof (binomial_valid_p _ _ _ _ Hv) as Hp.
  destruct (float_of_int_ok n 1023 ltac:(lia) Hn) as (fn & Hfn & _ & Hfnn).
  assert (Hvar : nonneg_float (fmul (fmul fn p) (fsub fone p))).
  { apply fmul_nonneg; [apply fmul_nonneg|].
    - apply Hfnn. lia.
    - apply andb_true_iff in Hp. destruct Hp as [H0 _].
      destruct p as [s|[|]| |[|] m e]; try exact I; vm_compute in H0; discriminate.
    - apply one_minus_p_nonneg; assumption. }
  destruct (math_sqrt_nonneg _ Hvar) as (sd & Hsd).
  exists fn, sd.
  assert (Hmean : calculate_mean n p = Ok (fmul fn p))
    by (unfold calculate_mean; rewrite Hfn; reflexivity).
  assert (Hvariance : calculate_variance n p = Ok (fmul (fmul fn p) (fsub fone p)))
    by (unfold calculate_variance; rewrite Hfn; reflexivity).
  split; [exact Hfn|]. split; [exact Hmean|]. split; [exact Hvariance|].
  split; [exact Hsd|].
  split; [unfold calculate_std; rewrite Hvariance; cbn [bind]; rewrite Hsd; reflexivity|].
  split; [|split; [|split]].
  - intros Hdeg. unfold calculate_skewness, calculate_kurtosis. rewrite Hdeg. split; reflexivity.
  - intros Hdeg. unfold calculate_skewness, calculate_kurtosis. rewrite Hdeg, Hfn. cbn [bind].
    rewrite Hsd. split; reflexivity.
  - intros pmf x N r Hr. unfold calculate in Hr. rewrite Hmean, Hvariance in Hr.
    repeat (bind_inv Hr;
            match type of Hr with
            | context [match ?v with pair _ _ => _ end] => is_var v; destruct v
            end).
    bind_inv Hr.
    match goal with
    | H : calculate_std n p N = Ok (?s, _) |- _ =>
      pose proof (calculate_std_fst n p N fn sd s _ Hfn Hsd H) as ->
    end.
    injection Hr as <-. do 2 eexists. repeat split; reflexivity.
  - eexists. split; [vm_compute; reflexivity|]. repeat split.
Qed.

Lemma binomial_closed_forms_witness :
  exists fn sd,
    float_of_int 10 = Ok fn /\
    calculate_mean 10 (float_lit 5 1) = Ok (fmul fn (float_lit 5 1)) /\
    calculate_variance 10 (float_lit 5 1) =
      Ok (fmul (fmul fn (float_lit 5 1)) (fsub fone (float_lit 5 1))) /\
    math_sqrt (fmul (fmul fn (float_lit 5 1)) (fsub fone (float_lit 5 1))) = Ok sd /\
    calculate_std 10 (float_lit 5 1) None = Ok (sd, None) /\
    (feqb (float_lit 5 1) fzero || feqb (float_lit 5 1) fone = true ->
     calculate_skewness 10 (float_lit 5 1) = Ok fzero /\
     calculate_kurtosis 10 (float_lit 5 1) = Ok fzero) /\
    (feqb (float_lit 5 1) fzero || feqb (float_lit 5 1) fone = false ->
     calculate_skewness 10 (float_lit 5 1) =
       float_truediv (fsub fone (fmul ftwo (float_lit 5 1))) sd /\
     calculate_kurtosis 10 (float_lit 5 1) =
       float_truediv (fsub fone (fmul (fmul fsix (float_lit 5 1)) (fsub fone (float_lit 5 1))))
                     (fmul (fmul fn (float_lit 5 1)) (fsub fone (float_lit 5 1)))) /\
    (forall pmf x N r, calculate pmf 10 (float_lit 5 1) x N = Ok r ->
       exists skew kurt,
         calculate_skewness 10 (float_lit 5 1) = Ok skew /\
         calculate_kurtosis 10 (float_lit 5 1) = Ok kurt /\
         mean (statistics r) = py_round (fmul fn (float_lit 5 1)) 6 /\
         variance (statistics r) =
           py_round (fmul (fmul fn (float_lit 5 1)) (fsub fone (float_lit 5 1))) 6 /\
         std (statistics r) = py_round sd 6 /\
         skewness (statistics r) = py_round skew 6 /\
         kurtosis (statistics r) = py_round kurt 6) /\
    (exists r,
       calculate SpecPmf.binom_pmf 10 (float_lit 5 1) (Some 5) None = Ok r /\
       mean (statistics r) = float_lit 5 0 /\
       std (statistics r) = float_lit 1581139 6 /\
       probability_x r = Some (float_lit 246094 6)).
Proof. apply (binomial_closed_forms 10 (float_lit 5 1)); reflexivity. Defined.

(** The degenerate probabilities: for p = 0 and p = 1 every statistic is
    computed and skewness and kurtosis are 0. *)
Example binomial_degenerate_probabilities :
  forall pmf, exists r0 r1,
    calculate pmf 10 fzero None None = Ok r0 /\
    calculate pmf 10 fone None None = Ok r1 /\
    skewness (statistics r0) = fzero /\ kurtosis (statistics r0) = fzero /\
    skewness (statistics r1) = fzero /\ kurtosis (statistics r1) = fzero.
Proof. intros pmf. do 2 eexists. split; [|split]; [vm_compute; reflexivity ..|]. repeat split. Qed.

(** C4 on the code: with n = N = 10 and p = 0.5 the ratio n/N exceeds 0.05
    and the population is "Finita"; the corrected deviation
    std·sqrt((N−n)/(N−1)) is computed and is 0.0, the correction factor 0.0
    is reported, but the truth test on the corrected deviation drops it
    from the statistics.  With n = N = 1 the correction factor divides by
    N − 1 = 0. *)
Theorem adjusted_std_dropped_when_zero (pmf : Z -> Z -> float -> float) :
  (exists r sd,
     calculate pmf 10 (float_lit 5 1) None (Some 10) = Ok r /\
     calculate_std 10 (float_lit 5 1) (Some 10) = Ok (sd, Some fzero) /\
     population_type r = "Finita" /\
     std (statistics r) = py_round sd 6 /\
     correction_factor (statistics r) = Some fzero /\
     adjusted_std (statistics r) = None) /\
  calculate pmf 1 (float_lit 5 1) None (Some 1) = Raise ZeroDivisionError.
Proof.
  split; [|vm_compute; reflexivity].
  do 2 eexists. split; [vm_compute; reflexivity|].
  split; [vm_compute; reflexivity|]. repeat split.
Qed.

Lemma determine_population_type_spec (n : Z) (N : option Z) (b : bool) (o : option float) :
  _determine_population_type n N = Ok (b, o) ->
  match N with
  | None => b = false
  | Some N' => exists ratio, int_truediv n N' = Ok ratio /\ b = fltb (float_lit 5 2) ratio
  end.
Proof.
  unfold _determine_population_type. destruct N as [N'|]; [|congruence].
  destruct (int_truediv n N') as [ratio|]; cbn [bind]; [|discriminate].
  intros H. exists ratio. split; [reflexivity|].
  destruct (fltb (float_lit 5 2) ratio); congruence.
Qed.

Lemma calculate_std_spec (n : Z) (p : float) (N : option Z) (s : float) (a : option float) :
  calculate_std n p N = Ok (s, a) ->
  match N with
  | None => a = None
  | Some N' =>
    exists ratio,
      int_truediv n N' = Ok ratio /\
      if fltb (float_lit 5 2) ratio then
        exists c, _calculate_correction_factor n N' = Ok c /\ a = Some (fmul s c)
      else a = None
  end.
Proof.
  unfold calculate_std.
  destruct (calculate_variance n p) as [v|]; cbn [bind]; [|discriminate].
  destruct (math_sqrt v) as [sd|]; cbn [bind]; [|discriminate].
  destruct N as [N'|]; [|congruence].
  destruct (int_truediv n N') as [ratio|]; cbn [bind]; [|discriminate].
  intros H. exists ratio. split; [reflexivity|].
  destruct (fltb (float_lit 5 2) ratio); [|congruence].
  destruct (_calculate_correction_factor n N') as [c|]; cbn [bind] in H; [|discriminate].
  exists c. split; [reflexivity|]. congruence.
Qed.

(** X2.  What [calculate] does report about the population, on every
    input on which it returns: without N, or with n/N <= 0.05, the population is
    "Infinita" and there is no adjusted deviation; with n/N > 0.05 it is
    "Finita", and the adjusted deviation std·sqrt((N−n)/(N−1)), rounded to
    6 decimals, is reported when it is not 0. *)
Theorem population_correction_rule
    (pmf : Z -> Z -> float -> float) (n : Z) (p : float) (x N : option Z) (r : Result) :
  calculate pmf n p x N = Ok r ->
  exists sd,
    (exists a, calculate_std n p N = Ok (sd, a)) /\
    std (statistics r) = py_round sd 6 /\
    match N with
    | None => population_type r = "Infinita" /\ adjusted_std (statistics r) = None
    | Some N' =>
      exists ratio,
        int_truediv n N' = Ok ratio /\
        if fltb (float_lit 5 2) ratio then
          population_type r = "Finita" /\
          exists c,
            _calculate_correction_factor n N' = Ok c /\
            adjusted_std (statistics r) =
              if truthy (fmul sd c) then Some (py_round (fmul sd c) 6) else None
        else population_type r = "Infinita" /\ adjusted_std (statistics r) = None
    end.
Proof.
  intros Hr. unfold calculate in Hr.
  destruct (_validate_inputs n p x N); cbn [bind] in Hr; [|discriminate].
  destruct (_determine_population_type n N) as [[b o]|] eqn:Htype; cbn [bind] in Hr; [|discriminate].
  destruct (calculate_mean n p); cbn [bind] in Hr; [|discriminate].
  destruct (calculate_std n p N) as [[sd adj]|] eqn:Hstd; cbn [bind] in Hr; [|discriminate].
  bind_inv Hr. injection Hr as <-. cbn [statistics std population_type adjusted_std].
  exists sd. split; [eexists; reflexivity|]. split; [reflexivity|].
  apply determine_population_type_spec in Htype. apply calculate_std_spec in Hstd.
  destruct N as [N'|].
  - destruct Htype as (ratio & Hratio & ->). destruct Hstd as (ratio' & Hratio' & Hadj).
    rewrite Hratio in Hratio'. injection Hratio' as <-.
    exists ratio. split; [exact Hratio|].
    destruct (fltb (float_lit 5 2) ratio).
    + destruct Hadj as (c & Hc & ->). split; [reflexivity|]. exists c. split; [exact Hc|reflexivity].
    + subst adj. split; reflexivity.
  - subst b adj. split; reflexivity.
Qed.

Lemma population_correction_rule_witness :
  exists r,
    calculate SpecPmf.binom_pmf 10 (float_lit 5 1) None (Some 20) = Ok r /\
    exists sd,
      (exists a, calculate_std 10 (float_lit 5 1) (Some 20) = Ok (sd, a)) /\
      std (statistics r) = py_round sd 6 /\
      exists ratio,
        int_truediv 10 20 = Ok ratio /\
        if fltb (float_lit 5 2) ratio then
          population_type r = "Finita" /\
          exists c,
            _calculate_correction_factor 10 20 = Ok c /\
            adjusted_std (statistics r) =
              if truthy (fmul sd c) then Some (py_round (fmul sd c) 6) else None
        else population_type r = "Infinita" /\ adjusted_std (statistics r) = None.
Proof.
  eexists. split; [vm_compute; reflexivity|].
  apply (population_correction_rule SpecPmf.binom_pmf 10 (float_lit 5 1) None (Some 20)).
  vm_compute. reflexivity.
Defined.

End BinomialFacts.

(* ================================================================= *)
(** ** Ranges and running sums *)

Section Ranges.

Import ModelSelector.

(** [range(stop)] holds the integers below [stop], in order. *)
Lemma py_range_length (stop : Z) : length (py_range stop) = Z.to_nat stop.
Proof. unfold py_range. rewrite length_map, length_seq. reflexivity. Qed.

Lemma py_range_lookup (stop i : Z) :
  0 <= i < stop -> py_range stop !! Z.to_nat i = Some i.
Proof.
  intros Hi. unfold py_range. rewrite list_lookup_fmap.
  rewrite lookup_seq_lt by lia. cbn. f_equal. lia.
Qed.

Lemma cumulative_probs_length (ps : list float) (acc : float) :
  length (cumulative_probs ps acc) = length ps.
Proof. revert acc. induction ps as [|q ps IH]; intros acc; cbn; [reflexivity|]. rewrite IH. reflexivity. Qed.

Lemma cumulative_probs_lookup (ps : list float) (acc : float) (i : nat) :
  (i < length ps)%nat ->
  cumulative_probs ps acc !! i = Some (py_round (fold_left fadd (take (S i) ps) acc) 4).
Proof.
  revert acc i. induction ps as [|q ps IH]; intros acc i Hi; cbn [length] in Hi; [lia|].
  destruct i as [|i]; cbn [cumulative_probs].
  - destruct ps; reflexivity.
  - rewrite lookup_cons_ne_0 by lia. cbn [pred]. rewrite IH by lia. reflexivity.
Qed.

End Ranges.

(* ================================================================= *)
(** ** Quotients in the normal range *)

Section Quotients.

(** The quotient of two positive integers [a <= b]: a normal float, with
    the mantissa the nearest 53-bit integer to the scaled quotient. *)
Lemma div_nearest_normal (a b : Z) :
  0 < a <= b -> b < 2 ^ 1000 ->
  exists m1 l1 k1 s,
    (k1 = 0 \/ k1 = 1) /\ 53 <= s <= 1052 /\ 2 ^ 52 <= m1 < 2 ^ 53 /\
    located (a * 2 ^ s) (b * 2 ^ k1) m1 l1 /\
    div_nearest a b =
    if round_nearest_even m1 l1 <? 2 ^ 53
    then S754_finite false (Z.to_pos (round_nearest_even m1 l1)) (- s + k1)
    else S754_finite false (Z.to_pos (2 ^ 52)) (- s + k1 + 1).
Proof.
  intros Ha Hb.
  pose proof (Zdigits2_lower a ltac:(lia)) as Ha_lo.
  pose proof (Zdigits2_gt a ltac:(lia)) as Ha_hi.
  pose proof (Zdigits2_lower b ltac:(lia)) as Hb_lo.
  pose proof (Zdigits2_gt b ltac:(lia)) as Hb_hi.
  pose proof (Zdigits2_mono a b ltac:(lia)) as Hd12.
  pose proof (Zdigits2_lt_pow2 b 1000 ltac:(lia) ltac:(lia)) as Hd2.
  assert (Hd1 : 1 <= Zdigits2 a).
  { destruct a as [|p|p]; try lia. cbn [Zdigits2]. lia. }
  set (d1 := Zdigits2 a) in *. set (d2 := Zdigits2 b) in *.
  set (s := 53 - (d1 - d2)).
  assert (Hs : 53 <= s <= 1052) by (unfold s; lia).
  assert (Hcore : SFdiv_core_binary prec emax (Z.abs a) 0 (Z.abs b) 0 =
                  (a * 2 ^ s / b, - s, new_location b (a * 2 ^ s mod b))).
  { unfold SFdiv_core_binary, fexp, emin, prec, emax. z_names.
    rewrite !Z.abs_eq by lia. fold d1 d2.
    replace (Z.min (Z.max (d1 + 0 - (d2 + 0) - 53) (3 - 1024 - 53)) (0 - 0)) with (- s)
      by (unfold s; lia).
    replace (0 - 0 - - s) with s by lia.
    destruct s as [|ps|ps] eqn:Hs'; try lia.
    rewrite Z.shiftl_mul_pow2 by lia.
    unfold Z.div, Z.modulo. destruct (Z.div_eucl _ b). reflexivity. }
  assert (Hdiv : div_nearest a b =
                 binary_round_aux prec emax false (a * 2 ^ s / b) (- s)
                                  (new_location b (a * 2 ^ s mod b))).
  { unfold div_nearest. rewrite Hcore.
    destruct a as [|p|p]; try lia.
    destruct (Z.ltb_spec (Z.pos p) 0); [lia|]. destruct (Z.ltb_spec b 0); [lia|]. reflexivity. }
  rewrite Hdiv. clear Hdiv Hcore.
  set (m' := a * 2 ^ s).
  assert (Hspos : 0 < 2 ^ s) by (apply Z.pow_pos_nonneg; lia).
  assert (Hm'lo : 2 ^ 52 * b <= m').
  { unfold m'. assert (2 ^ 52 * 2 ^ d2 <= 2 ^ (d1 - 1) * 2 ^ s).
    { rewrite <- !Z.pow_add_r by lia. apply Z.pow_le_mono_r; unfold s; lia. }
    nia. }
  assert (Hm'hi : m' < b * 2 ^ 54).
  { unfold m'. assert (2 ^ d1 * 2 ^ s <= 2 ^ (d2 - 1) * 2 ^ 54).
    { rewrite <- !Z.pow_add_r by lia. apply Z.pow_le_mono_r; unfold s; lia. }
    nia. }
  assert (Hq : 2 ^ 52 <= m' / b < 2 ^ 54).
  { split; [apply Z.div_le_lower_bound; lia|apply Z.div_lt_upper_bound; lia]. }
  assert (Hloc : located m' b (m' / b) (new_location b (m' mod b))).
  { apply located_div; [unfold m'; nia|lia|].
    unfold Z.div, Z.modulo. destruct (Z.div_eucl m' b). reflexivity. }
  destruct (binary_round_aux_normal false (m' / b) (- s) _ m' b Hq ltac:(lia) Hloc)
    as (m1 & l1 & k1 & Hk1 & Hm1 & Hloc1 & Heq).
  exists m1, l1, k1, s.
  split; [exact Hk1|]. split; [lia|]. split; [exact Hm1|]. split; [exact Hloc1|]. exact Heq.
Qed.

Lemma valid_binary_normal (sg : bool) (m e : Z) :
  2 ^ 52 <= m < 2 ^ 53 -> -1074 <= e <= 971 ->
  valid_binary prec emax (S754_finite sg (Z.to_pos m) e) = true.
Proof.
  intros Hm He. cbn [valid_binary]. unfold bounded, canonical_mantissa, fexp, emin, prec, emax.
  z_names.
  assert (Hpos : 0 < m) by (assert (0 < 2 ^ 52) by (apply Z.pow_pos_nonneg; lia); lia).
  assert (Hd : Z.pos (digits2_pos (Z.to_pos m)) = 53).
  { pose proof (Zdigits2_eq m 53 ltac:(lia)) as H.
    change (2 ^ (53 - 1)) with (2 ^ 52) in H. specialize (H Hm).
    destruct m as [|p|p]; try lia. exact H. }
  rewrite Hd. apply andb_true_iff. split; [apply Z.eqb_eq; lia|apply Z.leb_le; lia].
Qed.

(** The quotient of two positive integers [a <= b] is a float of [(0, 1]]. *)
Lemma div_nearest_unit (a b : Z) :
  0 < a <= b -> b < 2 ^ 1000 ->
  exists m e,
    div_nearest a b = S754_finite false m e /\
    valid_binary prec emax (S754_finite false m e) = true /\
    fleb (S754_finite false m e) fone = true.
Proof.
  intros Ha Hb.
  destruct (div_nearest_normal a b Ha Hb) as (m1 & l1 & k1 & s & Hk1 & Hs & Hm1 & Hloc & Heq).
  pose proof (round_nearest_even_bounds m1 l1) as Hm2.
  destruct Hloc as (Hden & Hbounds & Hl).
  set (P := 2 ^ (s - k1)).
  assert (HP : a * 2 ^ s = a * 2 ^ k1 * P).
  { unfold P. rewrite <- Z.mul_assoc, <- Z.pow_add_r by lia. f_equal. f_equal. lia. }
  assert (Hk1pos : 0 < 2 ^ k1) by (apply Z.pow_pos_nonneg; lia).
  assert (HPpos : 0 < P) by (unfold P; apply Z.pow_pos_nonneg; lia).
  assert (Hb1 : m1 * b <= a * P) by (rewrite HP in Hbounds; nia).
  assert (HmP : m1 <= P) by nia.
  assert (Hsk : 52 <= s - k1).
  { destruct (Z_lt_le_dec (s - k1) 52) as [Hlt|]; [|assumption]. exfalso.
    assert (P <= 2 ^ 51) by (unfold P; apply Z.pow_le_mono_r; lia).
    assert (2 ^ 51 < 2 ^ 52) by (apply Z.pow_lt_mono_r; lia). lia. }
  assert (Hexact : s - k1 = 52 -> round_nearest_even m1 l1 = 2 ^ 52).
  { intros H52. assert (HPv : P = 2 ^ 52) by (unfold P; rewrite H52; reflexivity).
    assert (m1 = 2 ^ 52) by lia. subst m1.
    assert (a = b) by nia. subst b.
    assert (Hrem : a * 2 ^ s - 2 ^ 52 * (a * 2 ^ k1) = 0) by (rewrite HP, HPv; lia).
    rewrite Hrem in Hl. cbn [Z.eqb] in Hl. subst l1. reflexivity. }
  rewrite fone_value. rewrite Heq.
  destruct (Z.ltb_spec (round_nearest_even m1 l1) (2 ^ 53)) as [Hlt|Hge].
  - do 2 eexists. split; [reflexivity|].
    split; [apply valid_binary_normal; lia|].
    apply fleb_finite_pos. rewrite Z2Pos.id by lia.
    destruct (Z.eq_dec (s - k1) 52) as [H52|H52].
    + right. split; [lia|]. rewrite (Hexact H52). reflexivity.
    + left. lia.
  - do 2 eexists. split; [reflexivity|].
    split; [apply valid_binary_normal; [split; [lia|apply Z.pow_lt_mono_r; lia]|lia]|].
    apply fleb_finite_pos.
    destruct (Z.eq_dec (s - k1) 52) as [H52|H52].
    + exfalso. rewrite (Hexact H52) in Hge.
      assert (2 ^ 52 < 2 ^ 53) by (apply Z.pow_lt_mono_r; lia). lia.
    + destruct (Z.eq_dec (s - k1) 53) as [H53|H53].
      * right. split; [lia|]. reflexivity.
      * left. lia.
Qed.

Lemma SFdiv_core_binary_bound (ma mb k : Z) :
  0 < ma -> 0 < mb -> 0 <= k -> ma < mb * 2 ^ k ->
  let '(q, e, l) := SFdiv_core_binary prec emax ma 0 mb 0 in
  0 <= q /\ e <= 0 /\ Zdigits2 q + e <= k.
Proof.
  intros Ha Hb Hk Hab. unfold SFdiv_core_binary.
  set (e' := Z.min _ (0 - 0)).
  assert (He' : e' <= 0) by (unfold e'; lia).
  set (m' := match 0 - 0 - e' with 0 => ma | Z.pos _ => Z.shiftl ma (0 - 0 - e') | Z.neg _ => 0 end).
  assert (Hm' : m' = ma * 2 ^ (- e')).
  { unfold m'. destruct (0 - 0 - e') as [|p|p] eqn:Hs; try lia.
    - replace (- e') with 0 by lia. lia.
    - rewrite Z.shiftl_mul_pow2 by lia. f_equal. f_equal. lia. }
  destruct (Z.div_eucl m' mb) as [q r] eqn:Hqr.
  assert (Hq : q = m' / mb) by (unfold Z.div; rewrite Hqr; reflexivity).
  assert (Hp : 0 < 2 ^ (- e')) by (apply Z.pow_pos_nonneg; lia).
  assert (Hpk : 0 < 2 ^ k) by (apply Z.pow_pos_nonneg; lia).
  assert (Hq0 : 0 <= q) by (rewrite Hq; apply Z.div_pos; nia).
  assert (Hq1 : q < 2 ^ (k - e')).
  { rewrite Hq. apply Z.div_lt_upper_bound; [lia|]. rewrite Hm'.
    replace (k - e') with (k + - e') by lia. rewrite Z.pow_add_r by lia. nia. }
  assert (Hd : Zdigits2 q <= k - e') by (apply Zdigits2_lt_pow2; lia).
  repeat split; lia.
Qed.

(** [a / b] returns whenever the quotient stays below [2^1000]. *)
Lemma int_truediv_bounded (a b k : Z) :
  b <> 0 -> 0 <= k <= 1000 -> Z.abs a < Z.abs b * 2 ^ k ->
  exists f, int_truediv a b = Ok f /\ (0 <= a -> 0 < b -> nonneg_float f).
Proof.
  intros Hb Hk Hab. unfold int_truediv.
  destruct (Z.eqb_spec b 0) as [|_]; [contradiction|].
  unfold div_nearest.
  destruct (Z.eq_dec a 0) as [->|Ha].
  { eexists. split; [reflexivity|]. intros _ _. exact I. }
  pose proof (SFdiv_core_binary_bound (Z.abs a) (Z.abs b) k ltac:(lia) ltac:(lia) ltac:(lia) Hab)
    as Hcore.
  destruct (SFdiv_core_binary prec emax (Z.abs a) 0 (Z.abs b) 0) as [[mz ez] lz].
  destruct Hcore as (Hq & He & Hmag).
  pose proof (binary_round_aux_shape (xorb (a <? 0) (b <? 0)) mz ez lz Hq) as Hsh.
  unfold round_exponent, round_magnitude, fexp, emin, prec, emax in *.
  specialize (Hsh ltac:(lia)).
  assert (Hgoal : exists f,
    finite_or_overflow
      (binary_round_aux 53 1024 (xorb (a <? 0) (b <? 0)) mz ez lz) = Ok f /\
    (0 <= a -> 0 < b -> nonneg_float f)).
  { destruct (binary_round_aux _ _ _ _ _ _) as [s'|s'| |s' m' e']; try contradiction.
    - eexists. split; [reflexivity|]. intros _ _. exact I.
    - eexists. split; [reflexivity|]. destruct Hsh as (-> & He' & Hm').
      intros Ha0 Hb0.
      destruct (Z.ltb_spec a 0); [lia|]. destruct (Z.ltb_spec b 0); [lia|]. exact I. }
  destruct a; [contradiction|exact Hgoal|exact Hgoal].
Qed.

Lemma round_half_even_bounds (num den T : Z) :
  0 < den -> 0 <= num <= T * den -> 0 <= round_half_even num den <= T.
Proof.
  intros Hden Hnum. unfold round_half_even.
  pose proof (Z.div_mod num den ltac:(lia)) as Hdm.
  pose proof (Z.mod_pos_bound num den Hden) as Hmod.
  assert (Hq0 : 0 <= num / den) by (apply Z.div_pos; lia).
  assert (HqT : num / den <= T) by (apply Z.div_le_upper_bound; [lia|]; lia).
  assert (Hstrict : num mod den <> 0 -> num / den < T) by (intros; nia).
  destruct (Z.compare_spec (2 * (num mod den)) den) as [He|Hl|Hg].
  - destruct (Z.even (num / den)); lia.
  - lia.
  - lia.
Qed.

(** Rounding a probability to [nd] decimals leaves a probability. *)
Lemma py_round_unit (x : float) (nd : Z) :
  0 <= nd <= 300 ->
  valid_binary prec emax x = true -> fleb fzero x && fleb x fone = true ->
  valid_binary prec emax (py_round x nd) = true /\
  fleb fzero (py_round x nd) && fleb (py_round x nd) fone = true.
Proof.
  intros Hnd Hvalid Hrange.
  destruct x as [s|s| |s m e]; try (split; assumption).
  apply andb_true_iff in Hrange. destruct Hrange as [H0 H1].
  destruct s; [vm_compute in H0; discriminate|].
  cbn [valid_binary] in Hvalid. unfold bounded, canonical_mantissa in Hvalid.
  apply andb_true_iff in Hvalid. destruct Hvalid as [Hcan _].
  apply Z.eqb_eq in Hcan. unfold fexp, emin, prec, emax in Hcan.
  pose proof (Zdigits2_gt (Z.pos m) ltac:(lia)) as Hm. cbn [Zdigits2] in Hm.
  assert (Hm53 : Z.pos m < 2 ^ 53).
  { eapply Z.lt_le_trans; [exact Hm|]. apply Z.pow_le_mono_r; lia. }
  rewrite fone_value in H1. apply fleb_finite_pos in H1.
  assert (Hme : e <= -52 /\ Z.pos m <= 2 ^ (- e)).
  { destruct H1 as [Hlt|[-> Hle]].
    - split; [lia|]. assert (2 ^ 53 <= 2 ^ (- e)) by (apply Z.pow_le_mono_r; lia). lia.
    - split; [lia|]. exact Hle. }
  destruct Hme as [He Hmle].
  assert (Hten : 0 < 10 ^ nd) by (apply Z.pow_pos_nonneg; lia).
  assert (Hden : 0 < 2 ^ (- e)) by (apply Z.pow_pos_nonneg; lia).
  assert (Hq : 0 <= scaled_round m e nd <= 10 ^ nd).
  { unfold scaled_round. destruct (Z.leb_spec 0 e); [lia|].
    apply round_half_even_bounds; [exact Hden|]. nia. }
  cbn [py_round].
  destruct (Z.eqb_spec (scaled_round m e nd) 0) as [Hz|Hnz]; [split; reflexivity|].
  assert (Hbig : 10 ^ nd < 2 ^ 1000).
  { assert (10 ^ nd <= 10 ^ 300) by (apply Z.pow_le_mono_r; lia).
    assert (10 ^ 300 < 2 ^ 1000) by (vm_compute; reflexivity). lia. }
  destruct (div_nearest_unit (scaled_round m e nd) (10 ^ nd) ltac:(lia) Hbig)
    as (m' & e' & -> & Hv' & Hle').
  split; [exact Hv'|]. rewrite Hle'. reflexivity.
Qed.

(** The proportion K / N of a valid population and its complement. *)
Lemma proportion_ok (N K : Z) :
  0 < N -> 0 <= K <= N -> N < 2 ^ 1000 ->
  exists p, int_truediv K N = Ok p /\ nonneg_float p /\ nonneg_float (fsub fone p) /\
            valid_binary prec emax p = true /\ fleb fzero p && fleb p fone = true.
Proof.
  intros HN HK Hb.
  destruct (int_truediv_ok K N) as (p & Hp & _ & Hnn); [lia|lia|].
  exists p. split; [exact Hp|]. split; [apply Hnn; lia|].
  pose proof (int_truediv_value _ _ _ Hp) as Hval.
  assert (Hrange : valid_binary prec emax p = true /\ fleb fzero p && fleb p fone = true).
  { destruct (Z.eq_dec K 0) as [->|HK0].
    - subst p. unfold div_nearest. destruct (Z.ltb_spec N 0); [lia|]. split; reflexivity.
    - destruct (div_nearest_unit K N ltac:(lia) Hb) as (m & e & Heq & Hvalid & Hle).
      rewrite Hval, Heq. split; [exact Hvalid|]. rewrite Hle. reflexivity. }
  destruct Hrange as [Hvalid Hrange].
  split; [apply one_minus_p_nonneg; assumption|]. split; assumption.
Qed.

End Quotients.

(* ================================================================= *)
(** ** Values that do not underflow *)

Section LowerBounds.

Lemma shr_m_value (m : Z) (l : location) (e n : Z) :
  0 <= m -> shr_m (fst (shr (shr_record_of_loc m l) e n)) = m / 2 ^ Z.max n 0.
Proof.
  intros Hm.
  assert (Hrec : shr_m (shr_record_of_loc m l) = m) by (destruct l as [|[]]; reflexivity).
  destruct n as [|p|p]; cbn [shr fst].
  - rewrite Hrec. cbn. rewrite Z.div_1_r. reflexivity.
  - rewrite iter_shr_1_m by (rewrite Hrec; exact Hm). rewrite Hrec. reflexivity.
  - rewrite Hrec. cbn. rewrite Z.div_1_r. reflexivity.
Qed.

Lemma shr_nonzero (m : Z) (l : location) (e n : Z) :
  0 < m -> n < Zdigits2 m ->
  let '(r, e') := shr (shr_record_of_loc m l) e n in
  0 < shr_m r /\ e' = Z.max e (e + n) /\ Zdigits2 (shr_m r) + e' = Zdigits2 m + e.
Proof.
  intros Hm Hn.
  pose proof (shr_spec m l e n ltac:(lia)) as Hspec.
  pose proof (shr_m_value m l e n ltac:(lia)) as Hval.
  destruct (shr (shr_record_of_loc m l) e n) as [r e']. cbn [fst] in Hval.
  destruct Hspec as (H0 & He & Hd).
  assert (Hpos : 0 < shr_m r).
  { rewrite Hval. apply Z.div_str_pos.
    pose proof (Zdigits2_lower m Hm) as Hlo.
    assert (0 < 2 ^ Z.max n 0) by (apply Z.pow_pos_nonneg; lia).
    split; [assumption|].
    etransitivity; [|exact Hlo]. apply Z.pow_le_mono_r; [lia|].
    pose proof (Zdigits2_nonneg m).
    destruct m as [|p|p]; try lia. cbn [Zdigits2] in *. lia. }
  split; [exact Hpos|]. split; [exact He|]. destruct Hd as [Hz|Hd]; [lia|exact Hd].
Qed.

(** One rounding step never takes a value of magnitude above the smallest
    subnormal to zero, and never lowers its magnitude. *)
Lemma binary_round_aux_lower (s : bool) (mx ex : Z) (lx : location) :
  0 < mx -> -1074 < Zdigits2 mx + ex ->
  mag_at_least (binary_round_aux prec emax s mx ex lx) (Zdigits2 mx + ex).
Proof.
  intros Hmx Hmag. unfold binary_round_aux, shr_fexp.
  pose proof (Zdigits2_lower mx Hmx) as Hlo.
  assert (Hd : 1 <= Zdigits2 mx) by (destruct mx as [|p|p]; try lia; cbn [Zdigits2]; lia).
  pose proof (shr_nonzero mx lx ex (fexp prec emax (Zdigits2 mx + ex) - ex) Hmx) as H1.
  unfold fexp, emin, prec, emax in *.
  specialize (H1 ltac:(lia)).
  destruct (shr (shr_record_of_loc mx lx) ex _) as [r1 e1].
  destruct H1 as (Hr1 & He1 & Hd1).
  set (m2 := round_nearest_even (shr_m r1) (loc_of_shr_record r1)).
  pose proof (round_nearest_even_bounds (shr_m r1) (loc_of_shr_record r1)) as Hm2.
  fold m2 in Hm2.
  assert (Hm2pos : 0 < m2) by lia.
  assert (Hd2 : 1 <= Zdigits2 m2) by (destruct m2 as [|p|p]; try lia; cbn [Zdigits2]; lia).
  assert (Hd12 : Zdigits2 (shr_m r1) <= Zdigits2 m2) by (apply Zdigits2_mono; lia).
  pose proof (shr_nonzero m2 loc_Exact e1 (Z.max (Zdigits2 m2 + e1 - 53) (3 - 1024 - 53) - e1)
                Hm2pos) as H3.
  specialize (H3 ltac:(lia)).
  destruct (shr (shr_record_of_loc m2 loc_Exact) e1 _) as [r3 e3].
  destruct H3 as (Hr3 & He3 & Hd3).
  destruct (shr_m r3) as [|m|m] eqn:Hm3; try lia.
  cbn [Zdigits2] in Hd3.
  destruct (e3 <=? 1024 - 53); cbn [mag_at_least]; [|exact I].
  split; lia.
Qed.

Lemma mag_at_least_weaken (f : float) (M M' : Z) :
  mag_at_least f M -> M' <= M -> mag_at_least f M'.
Proof. destruct f; cbn [mag_at_least]; try tauto. lia. Qed.

Lemma mag_at_least_not_zero (f : float) (M : Z) : mag_at_least f M -> feqb f fzero = false.
Proof. destruct f as [s|[|]| |[|] m e]; cbn [mag_at_least]; try tauto; intros _; reflexivity. Qed.

Lemma Zdigits2_mul_lower (a b : Z) :
  0 < a -> 0 < b -> Zdigits2 a + Zdigits2 b - 1 <= Zdigits2 (a * b).
Proof.
  intros Ha Hb. rewrite !Zdigits2_log2 by nia.
  pose proof (Z.log2_mul_below a b Ha Hb). lia.
Qed.

Lemma fmul_lower (a b : float) (A B : Z) :
  mag_at_least a A -> mag_at_least b B -> -1074 < A + B - 1 ->
  mag_at_least (fmul a b) (A + B - 1).
Proof.
  destruct a as [sa|sa| |sa ma ea]; destruct b as [sb|sb| |sb mb eb];
    cbn [mag_at_least]; try tauto; intros Ha Hb Hmag; try exact I.
  unfold fmul. cbn [SFmul].
  pose proof (Zdigits2_mul_lower (Z.pos ma) (Z.pos mb) ltac:(lia) ltac:(lia)) as Hmul.
  change (Z.pos ma * Z.pos mb) with (Z.pos (ma * mb)) in Hmul. cbn [Zdigits2] in Hmul.
  eapply mag_at_least_weaken.
  - apply binary_round_aux_lower; [lia|]. cbn [Zdigits2]. lia.
  - cbn [Zdigits2]. lia.
Qed.

Lemma binary_normalize_lower (z e : Z) :
  0 < z -> -1074 < Zdigits2 z + e ->
  mag_at_least (binary_normalize prec emax z e false) (Zdigits2 z + e).
Proof.
  intros Hz Hmag. destruct z as [|m|m]; try lia.
  cbn [binary_normalize]. unfold binary_round.
  pose proof (shl_align_spec m e (fexp prec emax (Z.pos (digits2_pos m) + e))) as Hal.
  destruct (shl_align m e _) as [mz ez]. destruct Hal as [Hmz Hez].
  pose proof (binary_round_aux_lower false (Z.pos mz) ez loc_Exact ltac:(lia)) as Hlow.
  cbn [Zdigits2] in Hlow, Hmag |- *. specialize (Hlow ltac:(lia)).
  eapply mag_at_least_weaken; [exact Hlow|lia].
Qed.

Lemma float_of_int_lower (n : Z) (fn : float) :
  1 <= n -> float_of_int n = Ok fn -> mag_at_least fn (Zdigits2 n).
Proof.
  intros Hn Hfn. unfold float_of_int in Hfn.
  destruct n as [|m|m]; try lia. cbn [binary_normalize] in Hfn. unfold binary_round in Hfn.
  pose proof (shl_align_spec m 0 (fexp prec emax (Z.pos (digits2_pos m) + 0))) as Hal.
  destruct (shl_align m 0 _) as [mz ez]. destruct Hal as [Hmag Hez].
  pose proof (binary_round_aux_lower false (Z.pos mz) ez loc_Exact ltac:(lia)) as Hlow.
  cbn [Zdigits2] in Hlow |- *. specialize (Hlow ltac:(lia)).
  unfold finite_or_overflow in Hfn.
  destruct (binary_round_aux _ _ _ _ _ _) as [s'|s'| |s' m' e']; try discriminate;
    injection Hfn as <-; try contradiction.
  eapply mag_at_least_weaken; [exact Hlow|lia].
Qed.

Lemma feqb_finite_pos (m1 m2 : positive) (e1 e2 : Z) :
  feqb (S754_finite false m1 e1) (S754_finite false m2 e2) = true <-> e1 = e2 /\ m1 = m2.
Proof.
  unfold feqb, SFeqb, SFcompare. z_names.
  destruct (Z.compare_spec e1 e2) as [He|He|He].
  - destruct (PosDef.Pos.compare_cont Eq m1 m2) eqn:Hc.
    + assert (Hc' : (m1 ?= m2)%positive = Eq) by exact Hc.
      apply Pos.compare_eq_iff in Hc'. split; [intros _; split; assumption|reflexivity].
    + assert (Hc' : (m1 ?= m2)%positive = Lt) by exact Hc.
      apply Pos.compare_lt_iff in Hc'.
      split; [discriminate|intros [_ Heq]; subst m2; exfalso; exact (Pos.lt_irrefl _ Hc')].
    + assert (Hc' : (m1 ?= m2)%positive = Gt) by exact Hc.
      apply Pos.compare_gt_iff in Hc'.
      split; [discriminate|intros [_ Heq]; subst m2; exfalso; exact (Pos.lt_irrefl _ Hc')].
  - split; [discriminate|lia].
  - split; [discriminate|lia].
Qed.

(** What validation and the test [p == 1] leave of a positive probability. *)
Lemma probability_shape (mp : positive) (ep : Z) :
  valid_binary prec emax (S754_finite false mp ep) = true ->
  fleb (S754_finite false mp ep) fone = true ->
  feqb (S754_finite false mp ep) fone = false ->
  -1074 <= ep <= -52 /\ Z.pos mp < 2 ^ 53 /\ Z.pos mp < 2 ^ (- ep).
Proof.
  intros Hvalid Hle Hne. rewrite fone_value in *.
  cbn [valid_binary] in Hvalid. unfold bounded, canonical_mantissa in Hvalid.
  apply andb_true_iff in Hvalid. destruct Hvalid as [Hcan _].
  apply Z.eqb_eq in Hcan. unfold fexp, emin, prec, emax in Hcan.
  pose proof (Zdigits2_gt (Z.pos mp) ltac:(lia)) as Hm. cbn [Zdigits2] in Hm.
  assert (Hd : Z.pos (digits2_pos mp) <= 53) by lia.
  assert (Hm53 : Z.pos mp < 2 ^ 53).
  { eapply Z.lt_le_trans; [exact Hm|]. apply Z.pow_le_mono_r; lia. }
  apply fleb_finite_pos in Hle.
  assert (Hneq : ~ (ep = -52 /\ mp = 4503599627370496%positive)).
  { intros Heq. apply feqb_finite_pos in Heq. congruence. }
  split; [lia|]. split; [exact Hm53|].
  destruct Hle as [Hlt|[-> Hmle]].
  - eapply Z.lt_le_trans; [exact Hm53|]. apply Z.pow_le_mono_r; lia.
  - change (2 ^ (- (-52))) with 4503599627370496.
    assert (Z.pos mp <> 4503599627370496) by (intros H; apply Hneq; split; [reflexivity|lia]).
    clear - Hmle H. lia.
Qed.

Lemma one_minus_p_lower (mp : positive) (ep : Z) :
  -1074 <= ep <= -52 -> Z.pos mp < 2 ^ 53 -> Z.pos mp < 2 ^ (- ep) ->
  mag_at_least (fsub fone (S754_finite false mp ep))
               (if 2 * Z.pos mp <=? 2 ^ (- ep) then 0 else 1 + ep).
Proof.
  intros Hep Hm53 Hlt. rewrite fone_value. unfold fsub. cbn [SFsub cond_Zopp].
  rewrite Z.min_r by lia.
  rewrite !shl_align_value by lia. rewrite Z.sub_diag. change (2 ^ 0) with 1.
  rewrite Z.mul_1_r.
  replace (4503599627370496 * 2 ^ (-52 - ep)) with (2 ^ (- ep)).
  2:{ change 4503599627370496 with (2 ^ 52). rewrite <- Z.pow_add_r by lia. f_equal. lia. }
  set (P := 2 ^ (- ep)) in *.
  assert (HP : 0 < P) by (unfold P; apply Z.pow_pos_nonneg; lia).
  set (D := P - Z.pos mp).
  assert (HD : 0 < D) by (unfold D; lia).
  assert (Hd1 : 1 <= Zdigits2 D) by (destruct D as [|d|d]; try lia; cbn [Zdigits2]; lia).
  destruct (Z.leb_spec (2 * Z.pos mp) P) as [Hhalf|Hhalf].
  - assert (Hdig : - ep <= Zdigits2 D).
    { assert (Hhalf' : 2 ^ (- ep - 1) <= D).
      { unfold D. assert (P = 2 * 2 ^ (- ep - 1)).
        { unfold P. change 2 with (2 ^ 1) at 2. rewrite <- Z.pow_add_r by lia. f_equal. lia. }
        lia. }
      assert (Hq : Zdigits2 (2 ^ (- ep - 1)) = - ep).
      { apply Zdigits2_eq; [lia|]. replace (- ep - 1) with (- ep - 1) by lia.
        split; [lia|]. apply Z.pow_lt_mono_r; lia. }
      rewrite <- Hq. apply Zdigits2_mono.
      split; [apply Z.pow_nonneg; lia|exact Hhalf']. }
    eapply mag_at_least_weaken; [apply binary_normalize_lower; [exact HD|lia]|lia].
  - assert (Hep' : -53 <= ep).
    { destruct (Z_lt_le_dec ep (-53)) as [Hsmall|]; [|assumption]. exfalso.
      assert (2 ^ 54 <= P) by (unfold P; apply Z.pow_le_mono_r; lia).
      change (2 ^ 54) with (2 * 2 ^ 53) in *. lia. }
    eapply mag_at_least_weaken; [apply binary_normalize_lower; [exact HD|lia]|lia].
Qed.

Lemma digits2_pos_one (m : positive) : Z.pos (digits2_pos m) <= 1 -> m = 1%positive.
Proof. destruct m as [m|m|]; cbn [digits2_pos]; try reflexivity; lia. Qed.

(** The variance n·p·(1-p) of a probability strictly between 0 and 1 is
    not zero: the product does not underflow. *)
Lemma binomial_variance_lower (n : Z) (p fn : float) :
  1 <= n -> float_of_int n = Ok fn ->
  valid_binary prec emax p = true ->
  fleb fzero p && fleb p fone = true ->
  feqb p fzero || feqb p fone = false ->
  (n = 1 /\ p = S754_finite false 1 (-1074)) \/
  mag_at_least (fmul (fmul fn p) (fsub fone p)) (-1073).
Proof.
  intros Hn Hfn Hvalid Hrange Hdeg.
  apply andb_true_iff in Hrange. destruct Hrange as [H0 H1].
  apply orb_false_iff in Hdeg. destruct Hdeg as [Hz Hone].
  destruct p as [s|s| |s mp ep]; try discriminate.
  { destruct s; discriminate. }
  destruct s; [discriminate|].
  destruct (probability_shape mp ep Hvalid H1 Hone) as (Hep & Hm53 & Hlt).
  pose proof (one_minus_p_lower mp ep Hep Hm53 Hlt) as Hq.
  pose proof (float_of_int_lower n fn Hn Hfn) as Hfnl.
  assert (Hdn : 1 <= Zdigits2 n) by (destruct n as [|k|k]; try lia; cbn [Zdigits2]; lia).
  assert (Hp : mag_at_least (S754_finite false mp ep) (Z.pos (digits2_pos mp) + ep))
    by (cbn [mag_at_least]; lia).
  set (dn := Zdigits2 n) in *. set (dp := Z.pos (digits2_pos mp)) in *.
  assert (Hdp : 1 <= dp) by (unfold dp; lia).
  destruct (Z.leb_spec (2 * Z.pos mp) (2 ^ (- ep))) as [Hhalf|Hhalf].
  - destruct (Z_le_gt_dec (-1071) (dn + dp + ep)) as [Hbig|Hcorner].
    + right.
      pose proof (fmul_lower fn _ dn (dp + ep) Hfnl Hp ltac:(lia)) as HA.
      pose proof (fmul_lower _ _ (dn + (dp + ep) - 1) 0 HA Hq ltac:(lia)) as HV.
      eapply mag_at_least_weaken; [exact HV|lia].
    + left. assert (Hn1 : dn = 1) by lia. assert (Hp1 : dp = 1) by lia.
      assert (ep = -1074) as -> by lia.
      assert (mp = 1%positive) as -> by (apply digits2_pos_one; fold dp; lia).
      split; [|reflexivity].
      pose proof (Zdigits2_gt n ltac:(lia)) as Hgt. fold dn in Hgt. rewrite Hn1 in Hgt.
      change (2 ^ 1) with 2 in Hgt. lia.
  - right.
    assert (Hep' : -53 <= ep).
    { destruct (Z_lt_le_dec ep (-53)) as [Hsmall|]; [|assumption]. exfalso.
      assert (2 ^ 54 <= 2 ^ (- ep)) by (apply Z.pow_le_mono_r; lia).
      change (2 ^ 54) with (2 * 2 ^ 53) in *. lia. }
    pose proof (fmul_lower fn _ dn (dp + ep) Hfnl Hp ltac:(lia)) as HA.
    pose proof (fmul_lower _ _ (dn + (dp + ep) - 1) (1 + ep) HA Hq ltac:(lia)) as HV.
    eapply mag_at_least_weaken; [exact HV|lia].
Qed.

(** The square root of a positive float is not zero. *)
Lemma SFsqrt_core_binary_lower (m : positive) (e : Z) :
  -1074 <= e ->
  let '(q, e', l) := SFsqrt_core_binary prec emax (Z.pos m) e in
  0 < q /\ -1074 <= e'.
Proof.
  intros He. unfold SFsqrt_core_binary. z_names.
  change IntDef.Z.div2 with Z.div2. change IntDef.Z.sqrtrem with Z.sqrtrem.
  set (e' := Z.min _ (Z.div2 e)).
  assert (Hdiv2 : 2 * Z.div2 e <= e /\ -1074 <= Z.div2 e).
  { rewrite Z.div2_div. pose proof (Z.div_mod e 2 ltac:(lia)).
    pose proof (Z.mod_pos_bound e 2 ltac:(lia)).
    split; [lia|]. apply Z.div_le_lower_bound; lia. }
  assert (He' : -1074 <= e' /\ 2 * e' <= e).
  { unfold e', fexp, emin, prec, emax. lia. }
  set (m' := match e - 2 * e' with
             | 0 => Z.pos m
             | Z.pos _ => Z.shiftl (Z.pos m) (e - 2 * e')
             | Z.neg _ => 0
             end).
  assert (Hm' : 0 < m').
  { unfold m'. destruct (e - 2 * e') as [|k|k] eqn:Hs; try lia.
    rewrite Z.shiftl_mul_pow2 by lia.
    assert (0 < 2 ^ Z.pos k) by (apply Z.pow_pos_nonneg; lia). nia. }
  pose proof (Z.sqrtrem_spec m' ltac:(lia)) as Hspec.
  destruct (Z.sqrtrem m') as [q r]. split; [nia|lia].
Qed.

Lemma math_sqrt_lower (x : float) (M : Z) :
  nonneg_float x -> mag_at_least x M ->
  exists r, math_sqrt x = Ok r /\ feqb r fzero = false.
Proof.
  intros Hnn Hx. destruct x as [s|s| |s m e]; cbn [mag_at_least] in Hx; try contradiction.
  - destruct s; [contradiction|]. eexists. split; reflexivity.
  - destruct s; [contradiction|]. cbn [math_sqrt SFsqrt].
    pose proof (SFsqrt_core_binary_lower m e ltac:(lia)) as Hcore.
    destruct (SFsqrt_core_binary prec emax (Z.pos m) e) as [[q e'] l].
    destruct Hcore as [Hq He'].
    eexists. split; [reflexivity|].
    apply (mag_at_least_not_zero _ (Zdigits2 q + e')).
    apply binary_round_aux_lower; [exact Hq|].
    assert (1 <= Zdigits2 q) by (destruct q as [|k|k]; try lia; cbn [Zdigits2]; lia). lia.
Qed.

End LowerBounds.

(* ================================================================= *)
(** ** The interpretation texts *)

Section InterpretationFacts.

Lemma SFcompare_antisym (a b : float) :
  SFcompare b a = option_map CompOpp (SFcompare a b).
Proof.
  destruct a as [sa|sa| |sa ma ea]; destruct b as [sb|sb| |sb mb eb];
    try reflexivity;
    try (destruct sa; destruct sb; reflexivity);
    try (destruct sa; reflexivity); try (destruct sb; reflexivity).
  cbn [SFcompare option_map]. z_names.
  rewrite (Z.compare_antisym ea eb).
  assert (Hpos : PosDef.Pos.compare_cont Eq mb ma = CompOpp (PosDef.Pos.compare_cont Eq ma mb)).
  { exact (Pos.compare_antisym ma mb). }
  rewrite Hpos.
  destruct sa; destruct sb; try reflexivity;
    destruct (ea ?= eb); cbn [CompOpp]; try reflexivity;
    destruct (PosDef.Pos.compare_cont Eq ma mb); reflexivity.
Qed.

Lemma not_less_then_at_most (a b : float) :
  a <> S754_nan -> b <> S754_nan -> fltb a b = false -> fleb b a = true.
Proof.
  intros Ha Hb. unfold fltb, fleb, SFltb, SFleb. rewrite (SFcompare_antisym a b).
  destruct (SFcompare a b) as [[| |]|] eqn:Hc; cbn [option_map CompOpp];
    try reflexivity; try discriminate.
  intros _. exfalso.
  destruct a as [sa|sa| |sa ma ea]; destruct b as [sb|sb| |sb mb eb];
    try contradiction; discriminate.
Qed.

(** X3.  The closing label "Simétrica" of [interpret_skewness] is returned
    for NaN and for nothing else: every number, infinities included, gets
    one of the five descriptive sentences. *)
Theorem interpret_skewness_fallback (skewness : float) :
  Binomial.interpret_skewness skewness = "Simétrica"%string <-> skewness = S754_nan.
Proof.
  split; [|intros ->; reflexivity].
  intros H. assert (Hdec : skewness = S754_nan \/ skewness <> S754_nan) by (destruct skewness; [right|right|left|right]; (reflexivity || discriminate)). destruct Hdec as [Hn|Hn]; [exact Hn|]. exfalso.
  unfold Binomial.interpret_skewness in H.
  destruct (fltb skewness (fneg (float_lit 5 1))) eqn:H1; [discriminate|].
  destruct (fltb (float_lit 5 1) skewness) eqn:H2; [discriminate|].
  rewrite (not_less_then_at_most skewness (fneg (float_lit 5 1)) Hn
             ltac:(intros Hx; vm_compute in Hx; discriminate Hx) H1) in H.
  rewrite (not_less_then_at_most (float_lit 5 1) skewness
             ltac:(intros Hx; vm_compute in Hx; discriminate Hx) Hn H2) in H.
  cbn [andb] in H.
  destruct (fltb (fabs skewness) (float_lit 1 1)); [discriminate|].
  destruct (fltb skewness fzero); discriminate.
Qed.

End InterpretationFacts.

(* ================================================================= *)
(** ** The binomial engine on every validated input *)

Section BinomialTotality.

Import Binomial.

Lemma binomial_valid_N (n : Z) (p : float) (x : option Z) (N : Z) :
  _validate_inputs n p x (Some N) = Ok tt -> 0 < n <= N.
Proof.
  unfold _validate_inputs. destruct (Z.leb_spec n 0); [discriminate|].
  destruct (negb _); [discriminate|]. destruct (match x with Some _ => _ | None => _ end); [discriminate|].
  destruct (Z.leb_spec N 0); [discriminate|]. destruct (Z.ltb_spec N n); [discriminate|]. lia.
Qed.

Lemma probability_nonneg (p : float) : fleb fzero p = true -> nonneg_float p.
Proof. destruct p as [s|[|]| |[|] m e]; intros H; try exact I; vm_compute in H; discriminate. Qed.

(** The three moments that depend on (n, p) alone. *)
Lemma binomial_moments_return (n : Z) (p : float) :
  1 <= n -> Z.abs n < 2 ^ 1023 ->
  valid_binary prec emax p = true -> fleb fzero p && fleb p fone = true ->
  exists fn sd skewness kurtosis,
    float_of_int n = Ok fn /\
    math_sqrt (fmul (fmul fn p) (fsub fone p)) = Ok sd /\
    calculate_skewness n p = Ok skewness /\ calculate_kurtosis n p = Ok kurtosis.
Proof.
  intros Hn Hnb Hvalid Hrange.
  destruct (float_of_int_ok n 1023 ltac:(lia) Hnb) as (fn & Hfn & _ & Hfnn).
  assert (Hvar : nonneg_float (fmul (fmul fn p) (fsub fone p))).
  { apply fmul_nonneg; [apply fmul_nonneg|].
    - apply Hfnn. lia.
    - apply probability_nonneg. apply andb_true_iff in Hrange. tauto.
    - apply one_minus_p_nonneg; assumption. }
  destruct (math_sqrt_nonneg _ Hvar) as (sd & Hsd).
  exists fn, sd. unfold calculate_skewness, calculate_kurtosis.
  destruct (feqb p fzero || feqb p fone) eqn:Hdeg.
  { do 2 eexists. repeat split; try eassumption; reflexivity. }
  rewrite Hfn. cbn [bind]. rewrite Hsd. cbn [bind].
  destruct (binomial_variance_lower n p fn Hn Hfn Hvalid Hrange Hdeg) as [[-> ->]|Hlow].
  - vm_compute in Hfn. injection Hfn as <-. vm_compute in Hsd. injection Hsd as <-.
    do 2 eexists. split; [reflexivity|]. split; [reflexivity|]. split; vm_compute; reflexivity.
  - destruct (math_sqrt_lower _ _ Hvar Hlow) as (sd' & Hsd' & Hnz).
    rewrite Hsd in Hsd'. injection Hsd' as <-.
    unfold float_truediv. rewrite Hnz, (mag_at_least_not_zero _ _ Hlow).
    do 2 eexists. split; [reflexivity|]. split; [reflexivity|]. split; reflexivity.
Qed.

Lemma correction_factor_returns (n N : Z) :
  0 < n <= N -> 1 < N -> exists c, _calculate_correction_factor n N = Ok c.
Proof.
  intros Hn HN. unfold _calculate_correction_factor.
  destruct (int_truediv_ok (N - n) (N - 1)) as (r & -> & _ & Hnn); [lia|lia|]. cbn [bind].
  apply math_sqrt_nonneg. apply Hnn; lia.
Qed.

Lemma binomial_calculate_returns
    (pmf : Z -> Z -> float -> float) (n : Z) (p : float) (x N : option Z) :
  _validate_inputs n p x N = Ok tt ->
  valid_binary prec emax p = true -> Z.abs n < 2 ^ 1023 -> N <> Some 1 ->
  exists r, calculate pmf n p x N = Ok r.
Proof.
  intros Hv Hvalid Hnb HN1.
  pose proof (binomial_valid_n _ _ _ _ Hv) as Hn.
  pose proof (binomial_valid_p _ _ _ _ Hv) as Hrange.
  destruct (binomial_moments_return n p ltac:(lia) Hnb Hvalid Hrange)
    as (fn & sd & sk & ku & Hfn & Hsd & Hsk & Hku).
  unfold calculate. rewrite Hv. cbn [bind].
  unfold _determine_population_type, calculate_mean, calculate_std, calculate_variance.
  rewrite Hsk, Hku, Hfn. cbn [bind]. rewrite Hsd. cbn [bind].
  destruct N as [N|]; cbn [bind]; [|eexists; reflexivity].
  pose proof (binomial_valid_N _ _ _ _ Hv) as HnN.
  destruct (int_truediv_ok n N) as (ratio & -> & _); [lia|lia|]. cbn [bind].
  assert (HN : 1 < N) by (destruct (Z.eq_dec N 1); [congruence|lia]).
  destruct (correction_factor_returns n N HnN HN) as (c & Hc).
  destruct (fltb (float_lit 5 2) ratio); cbn [bind andb]; rewrite ?Hc; cbn [bind].
  - destruct (negb (N =? 0)); cbn [bind]; rewrite ?Hc; cbn [bind]; eexists; reflexivity.
  - eexists; reflexivity.
Qed.




(** X5.  What a binomial result says about the population: the ratio n/N
    is reported exactly when N was given; the population type is "Finita"
    or "Infinita"; the correction factor is reported exactly when the type
    is "Finita", and an adjusted deviation only then; the two
    probabilities of x are reported exactly when x was given. *)
Theorem binomial_population_fields
    (pmf : Z -> Z -> float -> float) (n : Z) (p : float) (x N : option Z) (r : Binomial.Result) :
  Binomial.calculate pmf n p x N = Ok r ->
  (Binomial.population_ratio r = None <-> N = None) /\
  (Binomial.population_type r = "Finita"%string \/
   Binomial.population_type r = "Infinita"%string) /\
  (Binomial.correction_factor (Binomial.statistics r) <> None <->
   Binomial.population_type r = "Finita"%string) /\
  (Binomial.adjusted_std (Binomial.statistics r) <> None ->
   Binomial.population_type r = "Finita"%string) /\
  (Binomial.probability_x r = None <-> x = None) /\
  (Binomial.probability_x_pct r = None <-> x = None).
Proof.
  intros Hr. unfold Binomial.calculate in Hr.
  destruct (Binomial._validate_inputs n p x N) as [[]|] eqn:Hv; cbn [bind] in Hr; [|discriminate].
  destruct (Binomial._determine_population_type n N) as [[b o]|] eqn:Htype;
    cbn [bind] in Hr; [|discriminate].
  destruct (Binomial.calculate_mean n p); cbn [bind] in Hr; [|discriminate].
  destruct (Binomial.calculate_std n p N) as [[sd adj]|] eqn:Hstd; cbn [bind] in Hr; [|discriminate].
  destruct (Binomial.calculate_skewness n p); cbn [bind] in Hr; [|discriminate].
  destruct (Binomial.calculate_kurtosis n p); cbn [bind] in Hr; [|discriminate].
  destruct (Binomial.calculate_variance n p); cbn [bind] in Hr; [|discriminate].
  apply calculate_std_spec in Hstd.
  assert (Hx : forall A (f : Z -> A),
            match x with Some x' => Some (f x') | None => None end = None <-> x = None).
  { intros A f. destruct x; split; congruence. }
  unfold Binomial._determine_population_type in Htype.
  destruct N as [N'|].
  - pose proof (binomial_valid_N _ _ _ _ Hv) as HN.
    destruct (Z.eqb_spec N' 0) as [|_]; [lia|].
    destruct Hstd as (ratio & Hratio & Hadj).
    rewrite Hratio in Htype. cbn [bind] in Htype.
    destruct (fltb (float_lit 5 2) ratio) eqn:Hfin; injection Htype as <- <-;
      cbn [andb negb] in Hr.
    + destruct (Binomial._calculate_correction_factor n N'); cbn [bind] in Hr; [|discriminate].
      injection Hr as <-. cbn.
      split; [split; discriminate|]. split; [left; reflexivity|].
      split; [split; [reflexivity|discriminate]|].
      split; [reflexivity|]. split; apply Hx.
    + injection Hr as <-. cbn. subst adj.
      split; [split; discriminate|]. split; [right; reflexivity|].
      split; [split; [intros H; contradiction|discriminate]|].
      split; [intros H; contradiction|]. split; apply Hx.
  - injection Htype as <- <-. subst adj. injection Hr as <-. cbn.
    split; [split; reflexivity|]. split; [right; reflexivity|].
    split; [split; [intros H; contradiction|discriminate]|].
    split; [intros H; contradiction|]. split; apply Hx.
Qed.

Lemma binomial_population_fields_witness :
  exists r,
    calculate SpecPmf.binom_pmf 10 (float_lit 5 1) (Some 5) (Some 20) = Ok r /\
    (population_ratio r = None <-> Some 20 = @None Z) /\
    (population_type r = "Finita"%string \/ population_type r = "Infinita"%string) /\
    (correction_factor (statistics r) <> None <-> population_type r = "Finita"%string) /\
    (adjusted_std (statistics r) <> None -> population_type r = "Finita"%string) /\
    (probability_x r = None <-> Some 5 = @None Z) /\
    (probability_x_pct r = None <-> Some 5 = @None Z).
Proof.
  eexists. split; [vm_compute; reflexivity|].
  apply (binomial_population_fields SpecPmf.binom_pmf 10 (float_lit 5 1) (Some 5) (Some 20)).
  vm_compute. reflexivity.
Defined.


End BinomialTotality.

(* ================================================================= *)
(** ** The hypergeometric engine on every validated input *)

Section HypergeometricTotality.

Import Hypergeometric.

Lemma calculate_variance_returns (N K n : Z) :
  1 < N -> 0 <= K <= N -> 0 < n <= N -> float_safe N ->
  exists v, calculate_variance N K n = Ok v /\ nonneg_float v.
Proof.
  intros HN HK Hn Hs. unfold calculate_variance.
  assert (Hb : N < 2 ^ 1000).
  { unfold float_safe in Hs. assert (2 ^ 255 < 2 ^ 1000) by (apply Z.pow_lt_mono_r; lia). lia. }
  destruct (proportion_ok N K ltac:(lia) HK Hb) as (p & -> & Hp & Hq & _). cbn [bind].
  destruct (float_of_int_safe N n Hs ltac:(lia)) as (fn & -> & _ & Hfn). cbn [bind].
  destruct (int_truediv_ok (N - n) (N - 1)) as (fpc & -> & _ & Hfpc); [lia|lia|]. cbn [bind].
  eexists. split; [reflexivity|].
  repeat apply fmul_nonneg; try assumption; [apply Hfn|apply Hfpc]; lia.
Qed.

Lemma calculate_std_returns (N K n : Z) :
  1 < N -> 0 <= K <= N -> 0 < n <= N -> float_safe N ->
  exists v sd, calculate_variance N K n = Ok v /\ calculate_std N K n = Ok sd.
Proof.
  intros HN HK Hn Hs.
  destruct (calculate_variance_returns N K n HN HK Hn Hs) as (v & Hv & Hnn).
  destruct (math_sqrt_nonneg v Hnn) as (sd & Hsd).
  exists v, sd. split; [exact Hv|]. unfold calculate_std. rewrite Hv. cbn [bind]. exact Hsd.
Qed.

Lemma calculate_skewness_returns (N K n : Z) :
  0 < N -> 0 <= K <= N -> 0 < n <= N -> float_safe N ->
  exists v, calculate_skewness N K n = Ok v.
Proof.
  intros HN HK Hn Hs. unfold calculate_skewness.
  destruct (Z.eqb_spec N 1) as [|HN1]; [eexists; reflexivity|].
  destruct (int_truediv_ok K N) as (p & -> & _); [lia|lia|]. cbn [bind].
  destruct (float_of_int_safe N (N - 1) Hs) as (fN1 & -> & _ & Hnn); [lia|]. cbn [bind].
  destruct (math_sqrt_nonneg fN1 (Hnn ltac:(lia))) as (root1 & ->). cbn [bind].
  destruct (float_of_int_safe N (N - 2 * K) Hs) as (a & -> & _); [lia|]. cbn [bind].
  destruct (float_of_int_safe N (N - 2 * n) Hs) as (b & -> & _); [lia|]. cbn [bind].
  destruct (product_of_four_bound N n K (N - K) (N - n) Hs) as [Hp0 Hpb]; try lia.
  destruct (float_of_int_ok _ 1021 ltac:(lia) Hpb) as (prod & -> & _ & Hpn). cbn [bind].
  destruct (math_sqrt_nonneg prod (Hpn Hp0)) as (root2 & ->). cbn [bind].
  destruct (float_of_int_safe N (N - 2) Hs) as (c & -> & _); [lia|]. cbn [bind].
  destruct (feqb _ fzero) eqn:Hz; [eexists; reflexivity|].
  unfold float_truediv. rewrite Hz. eexists; reflexivity.
Qed.

Lemma calculate_kurtosis_full_sample (N K : Z) :
  3 < N -> 0 <= K <= N -> calculate_kurtosis N K N = Raise ZeroDivisionError.
Proof.
  intros HN HK. unfold calculate_kurtosis.
  destruct (Z.leb_spec N 3); [lia|].
  destruct (int_truediv_ok K N) as (p & -> & _); [lia|lia|]. cbn [bind].
  replace (N * (N - N)) with 0 by lia.
  unfold int_truediv at 1. cbn [Z.eqb bind]. reflexivity.
Qed.

Lemma product_of_five_bound (X a b c d e : Z) :
  0 < X -> 0 <= a <= X -> 0 <= b <= X -> 0 <= c <= X -> 0 <= d <= X -> 0 <= e <= X ->
  0 <= a * b * c * d * e <= X * X * X * X * X.
Proof.
  intros HX Ha Hb Hc Hd He.
  assert (H2 : 0 <= a * b <= X * X) by nia.
  assert (H3 : 0 <= a * b * c <= X * X * X) by nia.
  assert (H4 : 0 <= a * b * c * d <= X * X * X * X) by nia.
  nia.
Qed.

Lemma calculate_kurtosis_returns (N K n : Z) :
  0 < N -> 0 <= K <= N -> 0 < n <= N -> N < 2 ^ 200 ->
  n < N \/ N <= 3 ->
  exists v, calculate_kurtosis N K n = Ok v.
Proof.
  intros HN HK Hn Hs Hcase. unfold calculate_kurtosis.
  destruct (Z.leb_spec N 3) as [|HN3]; [eexists; reflexivity|].
  assert (HnN : n < N) by lia.
  set (X := 2 ^ 200) in *.
  assert (HX : 0 < X) by (unfold X; apply Z.pow_pos_nonneg; lia).
  assert (HX2 : X * X = 2 ^ 400) by (unfold X; rewrite <- Z.pow_add_r by lia; reflexivity).
  assert (HX5 : X * X * X * X * X = 2 ^ 1000)
    by (unfold X; rewrite <- !Z.pow_add_r by lia; reflexivity).
  assert (Hpow : forall k, 0 <= k -> 0 < 2 ^ k) by (intros; apply Z.pow_pos_nonneg; lia).
  destruct (int_truediv_ok K N) as (p & -> & _); [lia|lia|]. cbn [bind].
  assert (HKK : 0 <= K * (N - K) <= X * X) by nia.
  assert (Hden : 0 < n * (N - n)) by nia.
  destruct (int_truediv_bounded (6 * K * (N - K) * (N - n)) (n * (N - n)) 403)
    as (ratio1 & -> & _); [lia|lia| |].
  { rewrite !Z.abs_eq by nia.
    replace (2 ^ 403) with (8 * (X * X))
      by (rewrite HX2; change 8 with (2 ^ 3); rewrite <- Z.pow_add_r by lia; reflexivity).
    assert (6 * K * (N - K) * (N - n) = 6 * (K * (N - K)) * (N - n)) as -> by lia.
    assert (6 * (K * (N - K)) * (N - n) <= 6 * (X * X) * (N - n)) by nia.
    assert (6 * (X * X) * (N - n) < 8 * (X * X) * (n * (N - n))) by nia.
    lia. }
  cbn [bind].
  destruct (float_of_int_ok (N * (N + 1)) 401) as (a & -> & _); [lia| |].
  { rewrite Z.abs_eq by nia.
    replace (2 ^ 401) with (2 * (X * X))
      by (rewrite HX2; change 2 with (2 ^ 1) at 1; rewrite <- Z.pow_add_r by lia; reflexivity).
    nia. }
  cbn [bind].
  destruct (float_of_int_ok (N - 1) 200) as (b & -> & _); [lia|fold X; lia|]. cbn [bind].
  destruct (int_truediv_bounded (3 * n * K * (N - K) * (N - n)) (n * (N - n)) 402)
    as (term2 & -> & _); [lia|lia| |].
  { rewrite !Z.abs_eq by nia.
    replace (2 ^ 402) with (4 * (X * X))
      by (rewrite HX2; change 4 with (2 ^ 2); rewrite <- Z.pow_add_r by lia; reflexivity).
    assert (3 * n * K * (N - K) * (N - n) = 3 * (K * (N - K)) * (n * (N - n))) as -> by lia.
    nia. }
  cbn [bind].
  destruct (int_truediv_bounded (n * K * (N - K) * (N - n) * (N - 2) * (N - 3)) (N - 1) 1000)
    as (den & -> & _); [lia|lia| |].
  { pose proof (product_of_five_bound X n K (N - K) (N - n) (N - 3) HX) as H5.
    specialize (H5 ltac:(lia) ltac:(lia) ltac:(lia) ltac:(lia) ltac:(lia)).
    rewrite HX5 in H5.
    assert (Heq : n * K * (N - K) * (N - n) * (N - 2) * (N - 3) =
                  n * K * (N - K) * (N - n) * (N - 3) * (N - 2)) by lia.
    rewrite Heq. set (P5 := n * K * (N - K) * (N - n) * (N - 3)) in *.
    rewrite !Z.abs_eq by nia. clearbody P5. nia. }
  cbn [bind].
  destruct (feqb den fzero) eqn:Hz; [eexists; reflexivity|].
  destruct (float_of_int_ok (N + 1) 201) as (c & -> & _); [lia| |].
  { rewrite Z.abs_eq by lia.
    replace (2 ^ 201) with (2 * X)
      by (unfold X; change 2 with (2 ^ 1) at 1; rewrite <- Z.pow_add_r by lia; reflexivity).
    lia. }
  cbn [bind]. unfold float_truediv. rewrite Hz. eexists; reflexivity.
Qed.

Lemma interpret_skewness_by_median_returns
    (pmf : Z -> Z -> Z -> Z -> float) (N K n : Z) :
  0 < N -> 0 <= K <= N -> 0 < n <= N -> float_safe N ->
  exists v, interpret_skewness_by_median pmf N K n = Ok v.
Proof.
  intros HN HK Hn Hs.
  destruct (calculate_mean_ok N K n HN HK Hn Hs) as (mean & Hm & _).
  destruct (calculate_median_bound pmf N K n HN HK Hn Hs) as (median & Hmed & Hb).
  destruct (float_of_int_ok median 259 ltac:(lia) Hb) as (fmedian & Hfm & _).
  unfold interpret_skewness_by_median. rewrite Hm. cbn [bind]. rewrite Hmed. cbn [bind].
  rewrite Hfm. cbn [bind]. eexists; reflexivity.
Qed.

Lemma float_safe_200 (N : Z) : N < 2 ^ 200 -> float_safe N.
Proof.
  intros H. unfold float_safe.
  assert (2 ^ 200 < 2 ^ 255) by (apply Z.pow_lt_mono_r; lia). lia.
Qed.

Lemma hypergeometric_prefix_returns (N K n : Z) :
  1 < N -> 0 <= K <= N -> 0 < n <= N -> float_safe N ->
  exists p mean variance std skewness,
    int_truediv K N = Ok p /\ calculate_mean N K n = Ok mean /\
    calculate_variance N K n = Ok variance /\ calculate_std N K n = Ok std /\
    calculate_skewness N K n = Ok skewness.
Proof.
  intros HN1 HK Hn Hs.
  destruct (int_truediv_ok K N) as (p & Hp & _); [lia|lia|].
  destruct (calculate_mean_ok N K n ltac:(lia) HK Hn Hs) as (mean & Hm & _).
  destruct (calculate_std_returns N K n HN1 HK Hn Hs) as (v & sd & Hvar & Hsd).
  destruct (calculate_skewness_returns N K n ltac:(lia) HK Hn Hs) as (sk & Hsk).
  exists p, mean, v, sd, sk. repeat split; assumption.
Qed.

Lemma hypergeometric_calculate_raises
    (pmf : Z -> Z -> Z -> Z -> float) (N K n : Z) (x : option Z) :
  _validate_inputs N K n x = Ok tt -> N < 2 ^ 200 ->
  N = 1 \/ (n = N /\ 3 < N) -> calculate pmf N K n x = Raise ZeroDivisionError.
Proof.
  intros Hv Hsmall Hcase.
  destruct (hypergeometric_valid _ _ _ _ Hv) as (HN & HK & Hn & _).
  pose proof (float_safe_200 N Hsmall) as Hs.
  destruct Hcase as [->|[-> HN3]].
  - assert (n = 1) as -> by lia. unfold calculate. rewrite Hv. cbn [bind].
    assert (HKc : K = 0 \/ K = 1) by lia.
    destruct HKc as [->| ->]; vm_compute; reflexivity.
  - destruct (hypergeometric_prefix_returns N K N ltac:(lia) HK Hn Hs)
      as (p & mean & v & sd & sk & Hp & Hm & Hvar & Hsd & Hsk).
    unfold calculate. rewrite Hv. cbn [bind]. rewrite Hp. cbn [bind]. rewrite Hm. cbn [bind].
    rewrite Hvar. cbn [bind]. rewrite Hsd. cbn [bind]. rewrite Hsk. cbn [bind].
    rewrite (calculate_kurtosis_full_sample N K HN3 HK). reflexivity.
Qed.

Lemma hypergeometric_calculate_returns
    (pmf : Z -> Z -> Z -> Z -> float) (N K n : Z) (x : option Z) :
  _validate_inputs N K n x = Ok tt -> N < 2 ^ 200 ->
  1 < N -> n < N \/ N <= 3 -> exists r, calculate pmf N K n x = Ok r.
Proof.
  intros Hv Hsmall HN1 Hcase.
  destruct (hypergeometric_valid _ _ _ _ Hv) as (HN & HK & Hn & _).
  pose proof (float_safe_200 N Hsmall) as Hs.
  destruct (hypergeometric_prefix_returns N K n HN1 HK Hn Hs)
    as (p & mean & v & sd & sk & Hp & Hm & Hvar & Hsd & Hsk).
  destruct (calculate_kurtosis_returns N K n HN HK Hn Hsmall Hcase) as (ku & Hku).
  destruct (interpret_skewness_by_median_returns pmf N K n HN HK Hn Hs) as ([[t mv] md] & Hint).
  destruct (int_truediv_ok n N) as (ratio & Hratio & _); [lia|lia|].
  unfold calculate. rewrite Hv. cbn [bind]. rewrite Hp. cbn [bind]. rewrite Hm. cbn [bind].
  rewrite Hvar. cbn [bind]. rewrite Hsd. cbn [bind]. rewrite Hsk. cbn [bind].
  rewrite Hku. cbn [bind]. rewrite Hint. cbn [bind]. rewrite Hratio. cbn [bind].
  eexists; reflexivity.
Qed.



(** X8.  [get_statistics] agrees with [calculate]: whenever [calculate]
    returns, [get_statistics] returns the same mean, median, deviation,
    skewness and kurtosis; and an input on which it returns makes
    [calculate] return as soon as it passes validation. *)
Theorem hypergeometric_get_statistics_agrees
    (pmf : Z -> Z -> Z -> Z -> float) (N K n : Z) (x : option Z) :
  (forall r, Hypergeometric.calculate pmf N K n x = Ok r ->
     exists s,
       Hypergeometric.get_statistics pmf N K n = Ok s /\
       Hypergeometric.summary_mean s = Hypergeometric.mean (Hypergeometric.statistics r) /\
       Hypergeometric.summary_median s = Hypergeometric.median (Hypergeometric.statistics r) /\
       Hypergeometric.summary_std s = Hypergeometric.std (Hypergeometric.statistics r) /\
       Hypergeometric.summary_skewness s = Hypergeometric.skewness (Hypergeometric.statistics r) /\
       Hypergeometric.summary_kurtosis s = Hypergeometric.kurtosis (Hypergeometric.statistics r)) /\
  (forall s, Hypergeometric.get_statistics pmf N K n = Ok s ->
     Hypergeometric._validate_inputs N K n x = Ok tt ->
     exists r, Hypergeometric.calculate pmf N K n x = Ok r).
Proof.
  split.
  - intros r Hr. unfold Hypergeometric.calculate in Hr. unfold Hypergeometric.get_statistics.
    destruct (Hypergeometric._validate_inputs N K n x); cbn [bind] in Hr; [|discriminate].
    destruct (int_truediv K N) as [p|]; cbn [bind] in Hr; [|discriminate].
    destruct (Hypergeometric.calculate_mean N K n) as [m|]; cbn [bind] in *; [|discriminate].
    destruct (Hypergeometric.calculate_variance N K n) as [v|]; cbn [bind] in *; [|discriminate].
    destruct (Hypergeometric.calculate_std N K n) as [sd|]; cbn [bind] in *; [|discriminate].
    destruct (Hypergeometric.calculate_skewness N K n) as [sk|]; cbn [bind] in *; [|discriminate].
    destruct (Hypergeometric.calculate_kurtosis N K n) as [ku|]; cbn [bind] in *; [|discriminate].
    destruct (Hypergeometric.interpret_skewness_by_median pmf N K n) as [[[t mv] md]|];
      cbn [bind] in *; [|discriminate].
    bind_inv Hr. injection Hr as <-. eexists. split; [reflexivity|]. repeat split.
  - intros s Hs Hv. unfold Hypergeometric.get_statistics in Hs. unfold Hypergeometric.calculate.
    rewrite Hv. cbn [bind].
    destruct (hypergeometric_valid _ _ _ _ Hv) as (HN & HK & Hn & _).
    destruct (int_truediv_ok K N) as (p & Hp & _); [lia|lia|]. rewrite Hp. cbn [bind].
    destruct (int_truediv_ok n N) as (ratio & Hratio & _); [lia|lia|].
    destruct (Hypergeometric.calculate_mean N K n) as [m|]; cbn [bind] in *; [|discriminate].
    destruct (Hypergeometric.calculate_std N K n) as [sd|] eqn:Hstd; cbn [bind] in *; [|discriminate].
    destruct (Hypergeometric.calculate_skewness N K n) as [sk|]; cbn [bind] in *; [|discriminate].
    destruct (Hypergeometric.calculate_kurtosis N K n) as [ku|]; cbn [bind] in *; [|discriminate].
    destruct (Hypergeometric.interpret_skewness_by_median pmf N K n) as [[[t mv] md]|];
      cbn [bind] in *; [|discriminate].
    unfold Hypergeometric.calculate_std in Hstd.
    destruct (Hypergeometric.calculate_variance N K n) as [v|]; cbn [bind] in *; [|discriminate].
    rewrite Hratio. cbn [bind]. eexists; reflexivity.
Qed.

(** At a concrete input: a mass function that is 0 everywhere never
    reaches 0.5, and the median is the integer part of the mean. *)
Lemma median_fallback_witness :
  exists mean floor_mean,
    calculate_mean 50 20 10 = Ok mean /\ float_to_int mean = Ok floor_mean /\
    calculate_median (fun _ _ _ _ => fzero) 50 20 10 = Ok floor_mean.
Proof.
  apply (median_fallback (fun _ _ _ _ => fzero) 50 20 10); try lia; try reflexivity.
  intros y Hy.
  assert (Hcases : y = 0 \/ y = 1 \/ y = 2 \/ y = 3 \/ y = 4 \/ y = 5 \/ y = 6 \/ y = 7 \/
                   y = 8 \/ y = 9 \/ y = 10) by lia.
  repeat (destruct Hcases as [->|Hcases]; [vm_compute; reflexivity|]).
  subst y. vm_compute. reflexivity.
Defined.

End HypergeometricTotality.

(* ================================================================= *)
(** ** The factory *)

Section FactoryFacts.

Import DistributionFactory.

Variable lower : string -> string.
Context {C : Type}.

Lemma dict_get_set_eq (d : @registry C) (k : string) (v : C) :
  dict_get (dict_set d k v) k = Some v.
Proof.
  induction d as [|[k' v'] d IH]; cbn [dict_set dict_get].
  - rewrite String.eqb_refl. reflexivity.
  - destruct (String.eqb_spec k' k) as [->|Hne]; cbn [dict_get].
    + rewrite String.eqb_refl. reflexivity.
    + destruct (String.eqb_spec k' k); [contradiction|]. exact IH.
Qed.

Lemma dict_get_set_ne (d : @registry C) (k k' : string) (v : C) :
  k' <> k -> dict_get (dict_set d k v) k' = dict_get d k'.
Proof.
  intros Hne. induction d as [|[k0 v0] d IH]; cbn [dict_set dict_get].
  - destruct (String.eqb_spec k k'); [congruence|reflexivity].
  - destruct (String.eqb_spec k0 k) as [->|Hk]; cbn [dict_get].
    + destruct (String.eqb_spec k k'); [congruence|reflexivity].
    + destruct (String.eqb_spec k0 k'); [reflexivity|exact IH].
Qed.

Lemma dict_get_keys (d : @registry C) (k : string) :
  (exists v, dict_get d k = Some v) <-> k ∈ keys d.
Proof.
  unfold keys. induction d as [|[k0 v0] d IH]; cbn [dict_get map fst].
  - split; [intros [v Hv]; discriminate|intros H; inversion H].
  - destruct (String.eqb_spec k0 k) as [->|Hk].
    + split; [intros _; left|intros _; eexists; reflexivity].
    + rewrite IH. rewrite elem_of_cons. split; [tauto|intros [?|?]; [congruence|assumption]].
Qed.

Lemma keys_dict_set (d : @registry C) (k : string) (v : C) :
  keys (dict_set d k v) = if decide (k ∈ keys d) then keys d else keys d ++ [k].
Proof.
  unfold keys. induction d as [|[k0 v0] d IH]; cbn [dict_set map fst app].
  - rewrite decide_False by apply not_elem_of_nil. reflexivity.
  - destruct (String.eqb_spec k0 k) as [->|Hk]; cbn [map fst].
    + rewrite decide_True by left. reflexivity.
    + rewrite IH. destruct (decide (k ∈ map fst d)) as [Hin|Hnin].
      * rewrite decide_True by (right; exact Hin). reflexivity.
      * rewrite decide_False by (rewrite elem_of_cons; intros [?|?]; [congruence|contradiction]).
        reflexivity.
Qed.

(** X9.  Registering a class and then creating by the same name, or by
    any name with the same lower-case form, gives that class; what
    [create] returns for every other name is unchanged. *)
Theorem register_then_create (d : @registry C) (name : string) (cls : C) :
  create lower (register lower d name cls) name = Ok cls /\
  (forall other, lower other = lower name ->
     create lower (register lower d name cls) other = Ok cls) /\
  (forall other c, lower other <> lower name ->
     (create lower (register lower d name cls) other = Ok c <->
      create lower d other = Ok c)).
Proof.
  assert (Hsame : forall other, lower other = lower name ->
            create lower (register lower d name cls) other = Ok cls).
  { intros other Heq. unfold create, register. rewrite Heq, dict_get_set_eq. reflexivity. }
  split; [apply Hsame; reflexivity|]. split; [exact Hsame|].
  intros other c Hne. unfold create, register. rewrite dict_get_set_ne by exact Hne.
  destruct (dict_get d (lower other)); split; congruence.
Qed.

(** X10.  [register] keeps the registered names in their order: a name
    that is already registered keeps its place, a new name goes to the
    end; no name is lost and the names stay distinct. *)
Theorem register_available (d : @registry C) (name : string) (cls : C) :
  get_available_distributions (register lower d name cls) =
    (if decide (lower name ∈ get_available_distributions d)
     then get_available_distributions d
     else get_available_distributions d ++ [lower name]) /\
  (NoDup (get_available_distributions d) ->
   NoDup (get_available_distributions (register lower d name cls))) /\
  (forall other, other ∈ get_available_distributions d ->
     other ∈ get_available_distributions (register lower d name cls)).
Proof.
  unfold get_available_distributions, register. rewrite keys_dict_set.
  split; [reflexivity|].
  destruct (decide (lower name ∈ keys d)) as [Hin|Hnin].
  - split; [tauto|tauto].
  - split.
    + intros Hnd. apply NoDup_app. split; [exact Hnd|].
      split; [|apply NoDup_singleton].
      intros y Hy Hy'. apply list_elem_of_singleton in Hy'. subst y. contradiction.
    + intros other Hin. apply elem_of_app. left. exact Hin.
Qed.

(** X11.  [create] succeeds exactly on the names whose lower-case form is
    registered; on any other name it raises ValueError with a message that
    shows the lower-case form of the name and lists the registered names. *)
Theorem create_contract (d : @registry C) (distribution_type : string) :
  (lower distribution_type ∈ get_available_distributions d ->
   exists cls, create lower d distribution_type = Ok cls) /\
  (lower distribution_type ∉ get_available_distributions d ->
   create lower d distribution_type =
   Raise (ValueError (msg_not_available (lower distribution_type)
                        (String.concat ", " (get_available_distributions d))))).
Proof.
  unfold get_available_distributions, create. split.
  - intros Hin. apply dict_get_keys in Hin. destruct Hin as [v ->]. exists v. reflexivity.
  - intros Hnin. destruct (dict_get d (lower distribution_type)) as [v|] eqn:Hget; [|reflexivity].
    exfalso. apply Hnin. apply dict_get_keys. exists v. exact Hget.
Qed.

End FactoryFacts.

Section FactoryInitial.

Import DistributionFactory.

(** The registry of the module: two names, each for its engine. *)
Lemma create_builtin (lower : string -> string) (distribution_type : string) :
  get_available_distributions _distributions = ["binomial"; "hypergeometric"]%string /\
  (lower distribution_type = "binomial"%string ->
   create lower _distributions distribution_type = Ok BinomialDistribution) /\
  (lower distribution_type = "hypergeometric"%string ->
   create lower _distributions distribution_type = Ok HypergeometricDistribution) /\
  (lower distribution_type <> "binomial"%string ->
   lower distribution_type <> "hypergeometric"%string ->
   create lower _distributions distribution_type =
   Raise (ValueError (msg_not_available (lower distribution_type) "binomial, hypergeometric"))).
Proof.
  split; [reflexivity|]. unfold create, _distributions. cbn [dict_get].
  split; [intros ->; reflexivity|]. split; [intros ->; reflexivity|].
  intros H1 H2.
  destruct (String.eqb_spec "binomial" (lower distribution_type)); [congruence|].
  destruct (String.eqb_spec "hypergeometric" (lower distribution_type)); [congruence|].
  reflexivity.
Qed.

End FactoryInitial.

(* ================================================================= *)
(** ** The selector *)

Section SelectorFacts.

Import ModelSelector.

Lemma decide_returns (N K n : Z) :
  0 < N -> 0 <= K <= N -> 0 < n <= N ->
  exists ratio d,
    int_truediv n N = Ok ratio /\ decide N K n = Ok d /\
    distribution_type d = (if fleb THRESHOLD ratio then HYPERGEOMETRIC else BINOMIAL) /\
    sample_ratio d = py_round ratio 4.
Proof.
  intros HN HK Hn.
  destruct (int_truediv_ok n N) as (ratio & Hr & _); [lia|lia|].
  exists ratio. unfold decide. decide_tests. rewrite Hr. cbn [bind].
  destruct (fleb THRESHOLD ratio); eexists; repeat split; reflexivity.
Qed.

Lemma decide_valid_inputs (N K n : Z) (d : ModelDecision) :
  decide N K n = Ok d -> 0 < N /\ 0 <= K <= N /\ 0 < n <= N.
Proof.
  intros Hd. unfold decide in Hd.
  destruct (Z.leb_spec N 0); [discriminate|]. destruct (Z.ltb_spec K 0); [discriminate|].
  destruct (Z.ltb_spec N K); [discriminate|]. destruct (Z.leb_spec n 0); [discriminate|].
  destruct (Z.ltb_spec N n); [discriminate|]. lia.
Qed.

(** X12.  [decide] returns a decision exactly on the inputs with
    0 < N, 0 <= K <= N and 0 < n <= N, which are the inputs the
    hypergeometric engine accepts; on every other input it raises
    ValueError, with the message of the first test that fails in the order
    N, K, n, and never any other exception: N = 0 is rejected before the
    division n / N. *)
Theorem decide_validation_contract (N K n : Z) :
  ((exists d, decide N K n = Ok d) <-> 0 < N /\ 0 <= K <= N /\ 0 < n <= N) /\
  ((exists d, decide N K n = Ok d) <-> Hypergeometric._validate_inputs N K n None = Ok tt) /\
  (forall e, decide N K n = Raise e -> exists msg, e = ValueError msg) /\
  (N <= 0 -> decide N K n = Raise (ValueError "La población (N) debe ser mayor que 0")) /\
  (0 < N -> K < 0 ->
   decide N K n = Raise (ValueError "Los éxitos en población (K) no pueden ser negativos")) /\
  (0 < N -> N < K -> decide N K n = Raise (ValueError "K no puede ser mayor que N")) /\
  (0 < N -> 0 <= K <= N -> n <= 0 ->
   decide N K n = Raise (ValueError "El tamaño de muestra (n) debe ser mayor que 0")) /\
  (0 < N -> 0 <= K <= N -> N < n ->
   decide N K n =
   Raise (ValueError "La muestra (n) no puede ser mayor que la población (N)")).
Proof.
  assert (Hvalid : (exists d, decide N K n = Ok d) <-> 0 < N /\ 0 <= K <= N /\ 0 < n <= N).
  { split.
    - intros [d Hd]. unfold decide in Hd.
      destruct (Z.leb_spec N 0); [discriminate|]. destruct (Z.ltb_spec K 0); [discriminate|].
      destruct (Z.ltb_spec N K); [discriminate|]. destruct (Z.leb_spec n 0); [discriminate|].
      destruct (Z.ltb_spec N n); [discriminate|]. lia.
    - intros (HN & HK & Hn).
      destruct (decide_returns N K n HN HK Hn) as (ratio & d & _ & Hd & _). exists d. exact Hd. }
  split; [exact Hvalid|]. split.
  { rewrite Hvalid. split.
    - intros (HN & HK & Hn). apply hypergeometric_valid_intro; assumption.
    - intros Hv. apply hypergeometric_valid in Hv. tauto. }
  split.
  { intros e He. unfold decide in He.
    destruct (N <=? 0); [injection He as <-; eexists; reflexivity|].
    destruct (K <? 0); [injection He as <-; eexists; reflexivity|].
    destruct (N <? K); [injection He as <-; eexists; reflexivity|].
    destruct (Z.leb_spec n 0); [injection He as <-; eexists; reflexivity|].
    destruct (Z.ltb_spec N n); [injection He as <-; eexists; reflexivity|].
    exfalso. destruct (Z.eq_dec N 0) as [->|HN0]; [lia|].
    destruct (int_truediv_ok n N) as (ratio & Hr & _); [lia|lia|].
    rewrite Hr in He. cbn [bind] in He. destruct (fleb THRESHOLD ratio); discriminate. }
  repeat split; intros; unfold decide; decide_tests; reflexivity.
Qed.

(** X13.  The decision does not depend on K: two valid values of K give
    the same decision, text included. *)
Theorem decide_ignores_K (N K1 K2 n : Z) :
  0 <= K1 <= N -> 0 <= K2 <= N -> decide N K1 n = decide N K2 n.
Proof. intros H1 H2. unfold decide. decide_tests; reflexivity. Qed.

Lemma decide_ignores_K_witness : decide 1000 200 50 = decide 1000 7 50.
Proof. apply (decide_ignores_K 1000 200 7 50); lia. Defined.

(** X14.  [get_distribution_params] fails exactly as [decide] fails; when
    [decide] returns, the proportion K / N is computed without error and
    the engine's arguments are (n, p rounded to 6 decimals, x, N) for a
    Binomial decision and (N, K, n, x) for a Hypergeometric one.  Below
    2^53 the decision is Hypergeometric exactly when N <= 5·n. *)
Theorem get_distribution_params_contract (N K n : Z) (x : option Z) :
  (forall e, decide N K n = Raise e -> get_distribution_params N K n x = Raise e) /\
  (forall d, decide N K n = Ok d ->
     exists p,
       int_truediv K N = Ok p /\
       get_distribution_params N K n x =
       Ok {| decision := d; params_N := N; params_K := K; params_n := n; params_x := x;
             params_p := py_round p 6;
             distribution_params :=
               match distribution_type d with
               | BINOMIAL => BinomialParams n (py_round p 6) x N
               | HYPERGEOMETRIC => HypergeometricParams N K n x
               end |}) /\
  (forall d, decide N K n = Ok d -> N < 2 ^ 53 ->
     (distribution_type d = HYPERGEOMETRIC <-> N <= 5 * n)).
Proof.
  split; [|split].
  - intros e He. unfold get_distribution_params. rewrite He. reflexivity.
  - intros d Hd.
    pose proof (decide_valid_inputs _ _ _ _ Hd) as Hv.
    destruct (int_truediv_ok K N) as (p & Hp & _); [lia|lia|].
    exists p. split; [exact Hp|].
    unfold get_distribution_params. rewrite Hd. cbn [bind]. rewrite Hp. reflexivity.
  - intros d Hd Hsmall.
    pose proof (decide_valid_inputs _ _ _ _ Hd) as Hv.
    destruct Hv as (HN & HK & Hn).
    destruct (decide_returns N K n HN HK Hn) as (ratio & d' & Hr & Hd' & Hty & _).
    rewrite Hd in Hd'. injection Hd' as <-. rewrite Hty.
    rewrite <- (ratio_reaches_threshold n N) by lia.
    rewrite <- (int_truediv_value _ _ _ Hr). fold THRESHOLD.
    destruct (fleb THRESHOLD ratio); split; congruence.
Qed.

End SelectorFacts.

(* ================================================================= *)
(** ** Automatic selection *)

Section AutoSelectionFacts.

Import ModelSelector.
Import DistributionFactory.

Variable lower : string -> string.
Variable binom_pmf : Z -> Z -> float -> float.
Variable hypergeom_pmf : Z -> Z -> Z -> Z -> float.
Variable factory : @registry DistributionClass.

Lemma get_distribution_params_ok (N K n : Z) (x : option Z) (d : ModelDecision) :
  decide N K n = Ok d ->
  exists p,
    int_truediv K N = Ok p /\
    get_distribution_params N K n x =
    Ok {| decision := d; params_N := N; params_K := K; params_n := n; params_x := x;
          params_p := py_round p 6;
          distribution_params :=
            match distribution_type d with
            | BINOMIAL => BinomialParams n (py_round p 6) x N
            | HYPERGEOMETRIC => HypergeometricParams N K n x
            end |}.
Proof.
  intros Hd. destruct (decide_valid_inputs _ _ _ _ Hd) as (HN & HK & Hn).
  destruct (int_truediv_ok K N) as (p & Hp & _); [lia|lia|].
  exists p. split; [exact Hp|].
  unfold get_distribution_params. rewrite Hd. cbn [bind]. rewrite Hp. reflexivity.
Qed.

Lemma decide_by_ratio (N K n : Z) :
  0 < N -> 0 <= K <= N -> 0 < n <= N -> N < 2 ^ 53 ->
  exists d, decide N K n = Ok d /\
            distribution_type d = (if N <=? 5 * n then HYPERGEOMETRIC else BINOMIAL).
Proof.
  intros HN HK Hn Hsmall.
  destruct (decide_returns N K n HN HK Hn) as (ratio & d & Hr & Hd & Hty & _).
  exists d. split; [exact Hd|]. rewrite Hty.
  pose proof (ratio_reaches_threshold n N ltac:(lia) Hsmall) as Hthr.
  rewrite <- (int_truediv_value _ _ _ Hr) in Hthr. fold THRESHOLD in Hthr.
  destruct (Z.leb_spec N (5 * n)) as [Hle|Hgt].
  - apply Hthr in Hle. rewrite Hle. reflexivity.
  - destruct (fleb THRESHOLD ratio) eqn:Hc; [|reflexivity].
    assert (N <= 5 * n) by (apply Hthr; reflexivity). lia.
Qed.

Lemma decide_recommendation (N K n : Z) (d : ModelDecision) :
  decide N K n = Ok d ->
  (distribution_type d = BINOMIAL -> recommendation d <> None) /\
  (distribution_type d = HYPERGEOMETRIC -> recommendation d = None).
Proof.
  intros Hd. unfold decide in Hd.
  destruct (N <=? 0); [discriminate|]. destruct (K <? 0); [discriminate|].
  destruct (N <? K); [discriminate|]. destruct (n <=? 0); [discriminate|].
  destruct (N <? n); [discriminate|].
  destruct (int_truediv n N) as [ratio|]; cbn [bind] in Hd; [|discriminate].
  destruct (fleb THRESHOLD ratio); injection Hd as <-; cbn [distribution_type recommendation];
    split; intros H; try discriminate H; try reflexivity; discriminate.
Qed.

(** X15.  [calculate_with_auto_selection] validates through [decide]: an
    error of [decide] is raised unchanged, whatever the factory holds; a
    result is returned only on valid (N, K, n), it echoes the inputs with
    p = K / N rounded to 6 decimals, and its decision block carries the
    name, reason, ratio, threshold and recommendation of [decide]. *)
Theorem auto_selection_validates (N K n : Z) (x : option Z) :
  (forall e, decide N K n = Raise e ->
     calculate_with_auto_selection lower binom_pmf hypergeom_pmf factory N K n x = Raised e) /\
  (forall a,
     calculate_with_auto_selection lower binom_pmf hypergeom_pmf factory N K n x = Returned a ->
     exists d p,
       decide N K n = Ok d /\ int_truediv K N = Ok p /\
       (0 < N /\ 0 <= K <= N /\ 0 < n <= N) /\
       input_params a =
         {| input_N := N; input_K := K; input_n := n; input_x := x;
            input_p := py_round p 6 |} /\
       info_distribution_type (model_decision a) = value (distribution_type d) /\
       info_reason (model_decision a) = reason d /\
       info_sample_ratio (model_decision a) = sample_ratio d /\
       info_threshold (model_decision a) = threshold_used d /\
       info_recommendation (model_decision a) = recommendation d).
Proof.
  split.
  - intros e He. unfold calculate_with_auto_selection, get_distribution_params.
    rewrite He. reflexivity.
  - intros a Ha. unfold calculate_with_auto_selection, get_distribution_params in Ha.
    destruct (decide N K n) as [d|] eqn:Hd; cbn [bind] in Ha; [|discriminate].
    destruct (int_truediv K N) as [p|] eqn:Hp; cbn [bind] in Ha; [|discriminate].
    cbn [decision distribution_params] in Ha.
    exists d, p. split; [reflexivity|]. split; [reflexivity|].
    split; [exact (decide_valid_inputs _ _ _ _ Hd)|].
    destruct (create lower factory _) as [cls|]; [|discriminate].
    match goal with
    | |- ?G =>
      assert (Hres : forall res chart,
                auto_selection_result N K n x d res chart = Returned a -> G)
    end.
    { intros res [xs ps] Hret. unfold auto_selection_result in Hret.
      rewrite Hp in Hret. injection Hret as <-. repeat split. }
    destruct cls; destruct (distribution_type d); try discriminate.
    + destruct (Binomial.calculate _ _ _ _ _); [|discriminate]. exact (Hres _ _ Ha).
    + destruct (Hypergeometric.calculate _ _ _ _ _); [|discriminate]. exact (Hres _ _ Ha).
Qed.



(** X18.  In every result the three series of the chart have the same
    length, the i-th x value is i, and the i-th cumulative value is the
    sum of the first i + 1 probabilities, added in order from 0 and
    rounded to 4 decimals. *)
Theorem auto_selection_chart_aligned (N K n : Z) (x : option Z) (a : AutoSelection) :
  calculate_with_auto_selection lower binom_pmf hypergeom_pmf factory N K n x = Returned a ->
  length (probabilities (chart_data a)) = length (x_values (chart_data a)) /\
  length (cumulative (chart_data a)) = length (x_values (chart_data a)) /\
  (forall i, 0 <= i < Z.of_nat (length (x_values (chart_data a))) ->
     x_values (chart_data a) !! Z.to_nat i = Some i /\
     cumulative (chart_data a) !! Z.to_nat i =
       Some (py_round (fold_left fadd (take (S (Z.to_nat i)) (probabilities (chart_data a))) fzero) 4)).
Proof.
  intros Ha. unfold calculate_with_auto_selection in Ha.
  destruct (get_distribution_params N K n x) as [params|]; [|discriminate].
  destruct (create lower factory _) as [cls|]; [|discriminate].
  assert (Hres : forall stop (f : Z -> float) dec res,
            auto_selection_result N K n x dec res (py_range stop, map f (py_range stop)) =
              Returned a ->
            length (probabilities (chart_data a)) = length (x_values (chart_data a)) /\
            length (cumulative (chart_data a)) = length (x_values (chart_data a)) /\
            (forall i, 0 <= i < Z.of_nat (length (x_values (chart_data a))) ->
               x_values (chart_data a) !! Z.to_nat i = Some i /\
               cumulative (chart_data a) !! Z.to_nat i =
                 Some (py_round (fold_left fadd (take (S (Z.to_nat i)) (probabilities (chart_data a))) fzero) 4))).
  { intros stop f dec res Hret. unfold auto_selection_result in Hret.
    destruct (int_truediv K N); [|discriminate]. injection Hret as <-.
    cbn [chart_data probabilities x_values cumulative].
    rewrite cumulative_probs_length, length_map.
    split; [reflexivity|]. split; [reflexivity|].
    intros i Hi. rewrite py_range_length in Hi.
    split; [apply py_range_lookup; lia|].
    apply cumulative_probs_lookup. rewrite length_map, py_range_length. lia. }
  destruct cls; destruct (distribution_params params) as [n' p' x' N'|N' K' n' x']; try discriminate.
  - destruct (Binomial.calculate _ _ _ _ _); [|discriminate].
    unfold Binomial.get_probabilities in Ha. exact (Hres _ _ _ _ Ha).
  - destruct (Hypergeometric.calculate _ _ _ _ _); [|discriminate].
    unfold Hypergeometric.get_probabilities in Ha. exact (Hres _ _ _ _ Ha).
Qed.

(** X19.  A sample below a fifth of the population (5·n < N, N < 2^53):
    with the binomial engine under its name, every valid (N, K, n) with
    0 <= x <= n, or no x, gets a binomial result, computed with
    p = K / N rounded to 6 decimals and with the population size N; the
    result carries a recommendation, and x is not compared with K. *)
Theorem auto_selection_small_sample (N K n : Z) (x : option Z) :
  create lower factory "binomial" = Ok BinomialDistribution ->
  0 < N -> 0 <= K <= N -> 0 < n <= N -> N < 2 ^ 53 ->
  match x with Some x => 0 <= x <= n | None => True end ->
  5 * n < N ->
  exists p a r,
    int_truediv K N = Ok p /\
    Binomial.calculate binom_pmf n (py_round p 6) x (Some N) = Ok r /\
    calculate_with_auto_selection lower binom_pmf hypergeom_pmf factory N K n x = Returned a /\
    results a = BinomialResults r /\
    info_distribution_type (model_decision a) = "binomial"%string /\
    info_recommendation (model_decision a) <> None.
Proof.
  intros Hb HN HK Hn Hsmall Hx Hratio.
  destruct (decide_by_ratio N K n HN HK Hn Hsmall) as (d & Hd & Hty).
  destruct (Z.leb_spec N (5 * n)); [lia|].
  destruct (get_distribution_params_ok N K n x d Hd) as (p & Hp & Hparams).
  assert (Hb1000 : N < 2 ^ 1000).
  { assert (2 ^ 53 < 2 ^ 1000) by (apply Z.pow_lt_mono_r; lia). lia. }
  destruct (proportion_ok N K HN HK Hb1000) as (p' & Hp' & _ & _ & Hvalid & Hrange).
  rewrite Hp in Hp'. injection Hp' as <-.
  destruct (py_round_unit p 6 ltac:(lia) Hvalid Hrange) as [Hvalid6 Hrange6].
  assert (Hv : Binomial._validate_inputs n (py_round p 6) x (Some N) = Ok tt).
  { unfold Binomial._validate_inputs. rewrite Hrange6. cbn [negb].
    destruct x as [x|]; decide_tests; reflexivity. }
  assert (Hnb : Z.abs n < 2 ^ 1023).
  { assert (2 ^ 53 < 2 ^ 1023) by (apply Z.pow_lt_mono_r; lia). lia. }
  destruct (binomial_calculate_returns binom_pmf n (py_round p 6) x (Some N) Hv Hvalid6 Hnb)
    as (r & Hr); [intros [= ->]; lia|].
  assert (Hrec : recommendation d <> None).
  { unfold decide in Hd.
    destruct (N <=? 0); [discriminate|]. destruct (K <? 0); [discriminate|].
    destruct (N <? K); [discriminate|]. destruct (n <=? 0); [discriminate|].
    destruct (N <? n); [discriminate|].
    destruct (int_truediv n N); cbn [bind] in Hd; [|discriminate].
    destruct (fleb THRESHOLD a); injection Hd as <-; cbn in Hty |- *; [discriminate Hty|discriminate]. }
  exists p. unfold calculate_with_auto_selection. rewrite Hparams.
  cbn [decision distribution_params]. rewrite Hty. cbn [value]. rewrite Hb, Hr.
  unfold auto_selection_result.
  destruct (Binomial.get_probabilities binom_pmf n (py_round p 6)) as [xs ps].
  rewrite Hp, Hty. do 2 eexists.
  split; [reflexivity|]. split; [reflexivity|]. split; [reflexivity|].
  split; [reflexivity|]. split; [reflexivity|]. exact Hrec.
Qed.

(** X20.  A sample of at least a fifth of the population (N <= 5·n,
    N < 2^53): with the hypergeometric engine under its name, a
    validation error of the engine (x above n or above K, or negative) is
    raised unchanged; otherwise the call returns a hypergeometric result
    without recommendation, except that it raises ZeroDivisionError for
    N = 1 and for a sample that is the whole population of more than 3
    items. *)
Theorem auto_selection_large_sample (N K n : Z) (x : option Z) :
  create lower factory "hypergeometric" = Ok HypergeometricDistribution ->
  0 < N -> 0 <= K <= N -> 0 < n <= N -> N < 2 ^ 53 -> N <= 5 * n ->
  (forall e, Hypergeometric._validate_inputs N K n x = Raise e ->
     calculate_with_auto_selection lower binom_pmf hypergeom_pmf factory N K n x = Raised e) /\
  (Hypergeometric._validate_inputs N K n x = Ok tt ->
   (N = 1 \/ (n = N /\ 3 < N) ->
    calculate_with_auto_selection lower binom_pmf hypergeom_pmf factory N K n x =
    Raised ZeroDivisionError) /\
   (1 < N -> n < N \/ N <= 3 ->
    exists a r,
      Hypergeometric.calculate hypergeom_pmf N K n x = Ok r /\
      calculate_with_auto_selection lower binom_pmf hypergeom_pmf factory N K n x =
      Returned a /\
      results a = HypergeometricResults r /\
      info_distribution_type (model_decision a) = "hypergeometric"%string /\
      info_recommendation (model_decision a) = None)).
Proof.
  intros Hh HN HK Hn Hsmall Hratio.
  destruct (decide_by_ratio N K n HN HK Hn Hsmall) as (d & Hd & Hty).
  destruct (Z.leb_spec N (5 * n)); [|lia].
  destruct (get_distribution_params_ok N K n x d Hd) as (p & Hp & Hparams).
  assert (H200 : N < 2 ^ 200).
  { assert (2 ^ 53 < 2 ^ 200) by (apply Z.pow_lt_mono_r; lia). lia. }
  assert (Hauto : calculate_with_auto_selection lower binom_pmf hypergeom_pmf factory N K n x =
            match Hypergeometric.calculate hypergeom_pmf N K n x with
            | Raise e => Raised e
            | Ok results =>
              auto_selection_result N K n x d (HypergeometricResults results)
                (Hypergeometric.get_probabilities hypergeom_pmf N K n)
            end).
  { unfold calculate_with_auto_selection. rewrite Hparams.
    cbn [decision distribution_params]. rewrite Hty. cbn [value]. rewrite Hh. reflexivity. }
  assert (Hrec : recommendation d = None).
  { unfold decide in Hd.
    destruct (N <=? 0); [discriminate|]. destruct (K <? 0); [discriminate|].
    destruct (N <? K); [discriminate|]. destruct (n <=? 0); [discriminate|].
    destruct (N <? n); [discriminate|].
    destruct (int_truediv n N); cbn [bind] in Hd; [|discriminate].
    destruct (fleb THRESHOLD a); injection Hd as <-; cbn in Hty |- *; [reflexivity|discriminate Hty]. }
  rewrite Hauto. split.
  - intros e He. unfold Hypergeometric.calculate. rewrite He. reflexivity.
  - intros Hv. split.
    + intros Hcase.
      rewrite (hypergeometric_calculate_raises hypergeom_pmf N K n x Hv H200 Hcase). reflexivity.
    + intros HN1 Hcase.
      destruct (hypergeometric_calculate_returns hypergeom_pmf N K n x Hv H200 HN1 Hcase)
        as (r & Hr).
      rewrite Hr. unfold auto_selection_result.
      destruct (Hypergeometric.get_probabilities hypergeom_pmf N K n) as [xs ps].
      rewrite Hp, Hty. do 2 eexists.
      split; [reflexivity|]. split; [reflexivity|]. split; [reflexivity|].
      split; [reflexivity|]. exact Hrec.
Qed.

End AutoSelectionFacts.

(** The scenarios: the registry of the module, [str.lower] on ASCII text
    and the mass functions written from their formulas. *)
Section AutoSelectionScenarios.

Import ModelSelector.
Import DistributionFactory.



Lemma auto_selection_chart_aligned_witness :
  exists a,
    calculate_with_auto_selection PyStr.lower SpecPmf.binom_pmf SpecPmf.hypergeom_pmf
      _distributions 50 20 10 (Some 4) = Returned a /\
    length (probabilities (chart_data a)) = length (x_values (chart_data a)) /\
    length (cumulative (chart_data a)) = length (x_values (chart_data a)) /\
    (forall i, 0 <= i < Z.of_nat (length (x_values (chart_data a))) ->
       x_values (chart_data a) !! Z.to_nat i = Some i /\
       cumulative (chart_data a) !! Z.to_nat i =
         Some (py_round (fold_left fadd (take (S (Z.to_nat i)) (probabilities (chart_data a)))
                                   fzero) 4)).
Proof.
  eexists. split; [vm_compute; reflexivity|].
  apply (auto_selection_chart_aligned PyStr.lower SpecPmf.binom_pmf SpecPmf.hypergeom_pmf
           _distributions 50 20 10 (Some 4)).
  vm_compute. reflexivity.
Defined.

Lemma auto_selection_small_sample_witness :
  exists p a r,
    int_truediv 200 1000 = Ok p /\
    Binomial.calculate SpecPmf.binom_pmf 50 (py_round p 6) (Some 5) (Some 1000) = Ok r /\
    calculate_with_auto_selection PyStr.lower SpecPmf.binom_pmf SpecPmf.hypergeom_pmf
      _distributions 1000 200 50 (Some 5) = Returned a /\
    results a = BinomialResults r /\
    info_distribution_type (model_decision a) = "binomial"%string /\
    info_recommendation (model_decision a) <> None.
Proof.
  apply (auto_selection_small_sample PyStr.lower SpecPmf.binom_pmf SpecPmf.hypergeom_pmf
           _distributions 1000 200 50 (Some 5)); try reflexivity; lia.
Defined.

Lemma auto_selection_large_sample_witness :
  (forall e, Hypergeometric._validate_inputs 50 20 10 (Some 4) = Raise e ->
     calculate_with_auto_selection PyStr.lower SpecPmf.binom_pmf SpecPmf.hypergeom_pmf
       _distributions 50 20 10 (Some 4) = Raised e) /\
  (Hypergeometric._validate_inputs 50 20 10 (Some 4) = Ok tt ->
   (50 = 1 \/ (10 = 50 /\ 3 < 50) ->
    calculate_with_auto_selection PyStr.lower SpecPmf.binom_pmf SpecPmf.hypergeom_pmf
      _distributions 50 20 10 (Some 4) = Raised ZeroDivisionError) /\
   (1 < 50 -> 10 < 50 \/ 50 <= 3 ->
    exists a r,
      Hypergeometric.calculate SpecPmf.hypergeom_pmf 50 20 10 (Some 4) = Ok r /\
      calculate_with_auto_selection PyStr.lower SpecPmf.binom_pmf SpecPmf.hypergeom_pmf
        _distributions 50 20 10 (Some 4) = Returned a /\
      results a = HypergeometricResults r /\
      info_distribution_type (model_decision a) = "hypergeometric"%string /\
      info_recommendation (model_decision a) = None)).
Proof.
  apply (auto_selection_large_sample PyStr.lower SpecPmf.binom_pmf SpecPmf.hypergeom_pmf
           _distributions 50 20 10 (Some 4)); try reflexivity; lia.
Defined.

End AutoSelectionScenarios.

(* ================================================================= *)
(** ** The forms against the engines *)

Section FormsFacts.

Import Forms.

(** X21.  [HypergeometricManualForm.clean] on fields that passed their
    own validators (N >= 1, K >= 0, n >= 1): it adds no error exactly when
    K <= N, n <= N and x, when given, is at most n and at most K.  Every
    input the engine accepts passes the form; an input that passes the
    form is accepted by the engine unless x is negative, which the form
    does not test and the engine rejects. *)
Theorem manual_form_screens_engine (N K n : Z) (x : option Z) :
  1 <= N -> 0 <= K -> 1 <= n ->
  (HypergeometricManualForm_clean (Some N) (Some K) (Some n) x = [] <->
   K <= N /\ n <= N /\ match x with Some x => x <= n /\ x <= K | None => True end) /\
  (Hypergeometric._validate_inputs N K n x = Ok tt ->
   HypergeometricManualForm_clean (Some N) (Some K) (Some n) x = []) /\
  (HypergeometricManualForm_clean (Some N) (Some K) (Some n) x = [] ->
   match x with
   | Some x' =>
     if x' <? 0
     then Hypergeometric._validate_inputs N K n x =
          Raise (ValueError Hypergeometric.msg_x_negative)
     else Hypergeometric._validate_inputs N K n x = Ok tt
   | None => Hypergeometric._validate_inputs N K n x = Ok tt
   end).
Proof.
  intros HN HK Hn.
  assert (Hiff : HypergeometricManualForm_clean (Some N) (Some K) (Some n) x = [] <->
                 K <= N /\ n <= N /\ match x with Some x => x <= n /\ x <= K | None => True end).
  { unfold HypergeometricManualForm_clean. destruct x as [x|]; cbn [app];
      clean_tests; cbn [app]; split; try discriminate; try reflexivity; try tauto; try lia;
      intros; lia. }
  split; [exact Hiff|]. split.
  - intros Hv. apply Hiff. apply hypergeometric_valid in Hv.
    destruct x as [x|]; cbn in Hv |- *; lia.
  - intros Hc. apply Hiff in Hc. destruct Hc as (HKN & HnN & Hx).
    unfold Hypergeometric._validate_inputs. destruct x as [x|]; decide_tests; reflexivity.
Qed.

Lemma manual_form_screens_engine_witness :
  (HypergeometricManualForm_clean (Some 1000) (Some 200) (Some 100) (Some (-1)) = [] <->
   200 <= 1000 /\ 100 <= 1000 /\ -1 <= 100 /\ -1 <= 200) /\
  (Hypergeometric._validate_inputs 1000 200 100 (Some (-1)) = Ok tt ->
   HypergeometricManualForm_clean (Some 1000) (Some 200) (Some 100) (Some (-1)) = []) /\
  (HypergeometricManualForm_clean (Some 1000) (Some 200) (Some 100) (Some (-1)) = [] ->
   if -1 <? 0
   then Hypergeometric._validate_inputs 1000 200 100 (Some (-1)) =
        Raise (ValueError Hypergeometric.msg_x_negative)
   else Hypergeometric._validate_inputs 1000 200 100 (Some (-1)) = Ok tt).
Proof. apply (manual_form_screens_engine 1000 200 100 (Some (-1))); lia. Defined.

(** X22.  [CalculationParamsForm.clean] on fields that passed their own
    validators (n >= 1, N >= 1, K >= 0) adds no error exactly when the
    hypergeometric engine accepts (N, K, n, x); [decide] then returns a
    decision. *)
Theorem calculation_form_screens_engine (N K n : Z) (x : option Z) :
  1 <= n -> 1 <= N -> 0 <= K ->
  (CalculationParamsForm_clean (Some n) x (Some N) (Some K) = [] <->
   Hypergeometric._validate_inputs N K n x = Ok tt) /\
  (CalculationParamsForm_clean (Some n) x (Some N) (Some K) = [] ->
   exists d, ModelSelector.decide N K n = Ok d).
Proof.
  intros Hn HN HK.
  assert (Hiff : CalculationParamsForm_clean (Some n) x (Some N) (Some K) = [] <->
                 K <= N /\ n <= N /\
                 match x with Some x => 0 <= x <= n /\ x <= K | None => True end).
  { unfold CalculationParamsForm_clean. destruct x as [x|]; cbn [app orb];
      clean_tests; cbn [app orb]; split; try discriminate; try reflexivity; try tauto; try lia;
      intros; lia. }
  split.
  - rewrite Hiff. split.
    + intros (HKN & HnN & Hx). unfold Hypergeometric._validate_inputs.
      destruct x as [x|]; decide_tests; reflexivity.
    + intros Hv. apply hypergeometric_valid in Hv. destruct x as [x|]; cbn in Hv |- *; lia.
  - intros Hc. apply Hiff in Hc. destruct Hc as (HKN & HnN & _).
    destruct (int_truediv_ok n N) as (ratio & Hr & _); [lia|lia|].
    unfold ModelSelector.decide. decide_tests. rewrite Hr. cbn [bind].
    destruct (fleb _ _); eexists; reflexivity.
Qed.

Lemma calculation_form_screens_engine_witness :
  (CalculationParamsForm_clean (Some 50) (Some 5) (Some 1000) (Some 200) = [] <->
   Hypergeometric._validate_inputs 1000 200 50 (Some 5) = Ok tt) /\
  (CalculationParamsForm_clean (Some 50) (Some 5) (Some 1000) (Some 200) = [] ->
   exists d, ModelSelector.decide 1000 200 50 = Ok d).
Proof. apply (calculation_form_screens_engine 1000 200 50 (Some 5)); lia. Defined.

(** X23.  [BinomialDistributionForm]: a probability of [0, 1] is still a
    probability of [0, 1] after [clean_p] rounds it to 4 decimals, and on
    fields that passed their own validators (n >= 1, N >= 1 when given)
    [clean] adds no error exactly when the binomial engine accepts the
    cleaned input. *)
Theorem binomial_form_screens_engine (n : Z) (p : float) (x N : option Z) :
  1 <= n -> match N with Some N => 1 <= N | None => True end ->
  valid_binary prec emax p = true -> fleb fzero p && fleb p fone = true ->
  exists p',
    BinomialDistributionForm_clean_p (Some p) = Some p' /\
    valid_binary prec emax p' = true /\
    fleb fzero p' && fleb p' fone = true /\
    (BinomialDistributionForm_clean (Some n) x N = [] <->
     Binomial._validate_inputs n p' x N = Ok tt).
Proof.
  intros Hn HN Hvalid Hp.
  destruct (py_round_unit p 4 ltac:(lia) Hvalid Hp) as [Hvalid' Hp'].
  exists (py_round p 4). split; [reflexivity|]. split; [exact Hvalid'|]. split; [exact Hp'|].
  unfold BinomialDistributionForm_clean, Binomial._validate_inputs. rewrite Hp'. cbn [negb].
  destruct (Z.leb_spec n 0); [lia|].
  destruct x as [x|]; destruct N as [N|]; cbn [app orb];
    clean_tests; cbn [app orb]; split; try discriminate; try reflexivity; try lia.
Qed.

Lemma binomial_form_screens_engine_witness :
  exists p',
    BinomialDistributionForm_clean_p (Some (float_lit 123456 6)) = Some p' /\
    valid_binary prec emax p' = true /\
    fleb fzero p' && fleb p' fone = true /\
    (BinomialDistributionForm_clean (Some 10) (Some 5) (Some 200) = [] <->
     Binomial._validate_inputs 10 p' (Some 5) (Some 200) = Ok tt).
Proof.
  apply (binomial_form_screens_engine 10 (float_lit 123456 6) (Some 5) (Some 200));
    [lia|lia|reflexivity|reflexivity].
Defined.

End FormsFacts.

(* ================================================================= *)
(** ** The column analysis, continued *)

Section AnalysisFacts.

Import DataProcessor.

Lemma categories_lookup (vs : list string) (s : string) :
  to_categories (value_counts vs) !! s =
  if decide (s ∈ vs) then Some (Z.of_nat (length (filter (fun w => w = s) vs))) else None.
Proof.
  unfold to_categories, value_counts.
  rewrite (fold_insert_lookup (fun v => Z.of_nat (length (filter (fun w => w = v) vs)))).
  - rewrite <- list_fmap_compose.
    assert (Hfst : (fst ∘ (fun v : string => (v, Z.of_nat (length (filter (fun w => w = v) vs)))))
                   <$> remove_dups vs = remove_dups vs).
    { rewrite <- (list_fmap_id (remove_dups vs)) at 2. apply list_fmap_ext. intros ? ? _. reflexivity. }
    rewrite Hfst.
    destruct (decide (s ∈ remove_dups vs)) as [Hin|Hnin].
    + rewrite decide_True by (rewrite <- elem_of_remove_dups; exact Hin). reflexivity.
    + rewrite decide_False by (rewrite <- elem_of_remove_dups; exact Hnin). apply lookup_empty.
  - intros [k v] Hkv. apply list_elem_of_fmap in Hkv. destruct Hkv as (w & Heq & _).
    inversion Heq; subst. reflexivity.
Qed.

Lemma elem_of_dropna (col : list (option string)) (s : string) :
  s ∈ dropna col <-> success_count col s <> 0.
Proof.
  rewrite <- dropna_count. split.
  - intros Hin. apply filter_eq_present in Hin. lia.
  - intros Hne. destruct (decide (s ∈ dropna col)) as [|Hnin]; [assumption|].
    rewrite filter_eq_absent in Hne by exact Hnin. cbn in Hne. lia.
Qed.

Lemma analysis_inversion
    (df : gmap string (list (option string))) (column success : string) (a : Analysis) :
  analyze_categorical_column df column success = Ok a ->
  exists col,
    df !! column = Some col /\
    N a = non_null_count col /\ K a = success_count col success /\
    categories a = to_categories (value_counts (dropna col)) /\
    1 <= K a <= N a.
Proof.
  intros Ha. unfold analyze_categorical_column in Ha.
  destruct (df !! column) as [col|]; [|discriminate]. exists col. split; [reflexivity|].
  rewrite categories_get, dropna_count, dropna_length in Ha.
  assert (Hle : 0 <= success_count col success <= non_null_count col).
  { rewrite <- dropna_count, <- dropna_length. split; [lia|]. apply inj_le. apply length_filter. }
  destruct (Z.eqb_spec (non_null_count col) 0); [discriminate|].
  destruct (Z.eqb_spec (success_count col success) 0); [discriminate|].
  destruct (int_truediv _ _); cbn [bind] in Ha; [|discriminate].
  injection Ha as <-. cbn [N K categories]. repeat split; lia.
Qed.

Lemma count_Permutation (vs vs' : list string) (s : string) :
  vs ≡ₚ vs' ->
  length (filter (fun w => w = s) vs) = length (filter (fun w => w = s) vs').
Proof. intros H. rewrite H. reflexivity. Qed.

(** X24.  In every analysis the category table holds exactly the labels
    that occur in the column, each with the number of its occurrences;
    the entry of the success category is K, and every count lies between
    1 and N. *)
Theorem analysis_categories
    (df : gmap string (list (option string))) (column success : string) (a : Analysis) :
  analyze_categorical_column df column success = Ok a ->
  exists col,
    df !! column = Some col /\
    (forall s, categories a !! s =
               if decide (success_count col s = 0) then None else Some (success_count col s)) /\
    categories a !! success = Some (K a) /\
    (forall s c, categories a !! s = Some c -> 1 <= c <= N a).
Proof.
  intros Ha. destruct (analysis_inversion df column success a Ha)
    as (col & Hcol & HN & HK & Hcat & Hrange).
  exists col. split; [exact Hcol|].
  assert (Hlook : forall s, categories a !! s =
            if decide (success_count col s = 0) then None else Some (success_count col s)).
  { intros s. rewrite Hcat, categories_lookup, dropna_count.
    destruct (decide (s ∈ dropna col)) as [Hin|Hnin];
      destruct (decide (success_count col s = 0)) as [H0|H0]; try reflexivity.
    - apply elem_of_dropna in Hin. contradiction.
    - exfalso. apply Hnin. apply elem_of_dropna. exact H0. }
  split; [exact Hlook|]. split.
  - rewrite Hlook, <- HK. destruct (decide (K a = 0)); [lia|reflexivity].
  - intros s c Hc. rewrite Hlook in Hc.
    destruct (decide (success_count col s = 0)); [discriminate|]. injection Hc as <-.
    rewrite HN. rewrite <- dropna_count, <- dropna_length in *.
    split; [lia|]. apply inj_le. apply length_filter.
Qed.

Lemma analysis_categories_witness :
  exists a,
    analyze_categorical_column {[ "estado" := [Some "ok"; None; Some "falla"; Some "ok"] ]}
                               "estado" "ok" = Ok a /\
    exists col,
      ({[ "estado" := [Some "ok"; None; Some "falla"; Some "ok"] ]}
         : gmap string (list (option string))) !! "estado" = Some col /\
      (forall s, categories a !! s =
                 if decide (success_count col s = 0) then None
                 else Some (success_count col s)) /\
      categories a !! "ok" = Some (K a) /\
      (forall s c, categories a !! s = Some c -> 1 <= c <= N a).
Proof.
  eexists. split; [vm_compute; reflexivity|].
  apply (analysis_categories {[ "estado" := [Some "ok"; None; Some "falla"; Some "ok"] ]}
                             "estado" "ok").
  vm_compute. reflexivity.
Defined.

(** X25.  The N and K of an analysis are always a valid population for
    the selector and for the hypergeometric engine: every sample size
    0 < n <= N passes both validations. *)
Theorem analysis_feeds_selector
    (df : gmap string (list (option string))) (column success : string) (a : Analysis) (n : Z) :
  analyze_categorical_column df column success = Ok a ->
  0 < n <= N a ->
  Hypergeometric._validate_inputs (N a) (K a) n None = Ok tt /\
  exists d, ModelSelector.decide (N a) (K a) n = Ok d.
Proof.
  intros Ha Hn. destruct (analysis_inversion df column success a Ha)
    as (col & _ & _ & _ & _ & Hrange).
  split; [apply hypergeometric_valid_intro; lia|].
  destruct (int_truediv_ok n (N a)) as (ratio & Hr & _); [lia|lia|].
  unfold ModelSelector.decide. decide_tests. rewrite Hr. cbn [bind].
  destruct (fleb _ _); eexists; reflexivity.
Qed.

Lemma analysis_feeds_selector_witness :
  exists a,
    analyze_categorical_column {[ "estado" := [Some "ok"; None; Some "falla"; Some "ok"] ]}
                               "estado" "ok" = Ok a /\
    Hypergeometric._validate_inputs (N a) (K a) 2 None = Ok tt /\
    exists d, ModelSelector.decide (N a) (K a) 2 = Ok d.
Proof.
  eexists. split; [vm_compute; reflexivity|].
  apply (analysis_feeds_selector {[ "estado" := [Some "ok"; None; Some "falla"; Some "ok"] ]}
                                 "estado" "ok"); [vm_compute; reflexivity|].
  vm_compute. split; [reflexivity|discriminate].
Defined.

(** X26.  The analysis depends only on the non-null values of the column
    and not on their order: two columns whose non-null cells are a
    permutation of each other give the same result or the same error. *)
Theorem analysis_ignores_order_and_nulls
    (df : gmap string (list (option string))) (column success : string)
    (col col' : list (option string)) :
  dropna col ≡ₚ dropna col' ->
  analyze_categorical_column (<[column := col]> df) column success =
  analyze_categorical_column (<[column := col']> df) column success.
Proof.
  intros Hperm. unfold analyze_categorical_column. rewrite !lookup_insert_eq.
  rewrite !categories_get.
  assert (Hlen : length (dropna col) = length (dropna col')) by (rewrite Hperm; reflexivity).
  assert (Hcat : to_categories (value_counts (dropna col)) =
                 to_categories (value_counts (dropna col'))).
  { apply map_eq. intros s. rewrite !categories_lookup.
    rewrite (count_Permutation _ _ s Hperm).
    destruct (decide (s ∈ dropna col)) as [Hin|Hnin].
    - rewrite decide_True by (rewrite <- Hperm; exact Hin). reflexivity.
    - rewrite decide_False by (rewrite <- Hperm; exact Hnin). reflexivity. }
  rewrite Hlen, Hcat, (count_Permutation _ _ success Hperm). reflexivity.
Qed.

Lemma analysis_ignores_order_and_nulls_witness :
  analyze_categorical_column (<["c" := [Some "a"; Some "b"; None]]> ∅) "c" "a" =
  analyze_categorical_column (<["c" := [None; Some "b"; Some "a"]]> ∅) "c" "a".
Proof.
  apply (analysis_ignores_order_and_nulls ∅ "c" "a" [Some "a"; Some "b"; None]
                                          [None; Some "b"; Some "a"]).
  cbn. apply perm_swap.
Defined.

End AnalysisFacts.
